(** * PanelCleaner: box geometry, overlap resolution and the OCR review
      state machine

    A shallow embedding of [pcleaner/structures.py] (the [Box] value type,
    [PageData.resolve_total_overlaps], [PageData.resolve_overlaps], the
    [OCRAnalytic]/[OCRResult] conversions) and of the table-manipulation
    slots of [pcleaner/gui/ocr_review_driver.py].

    Conventions of the embedding:
    - Python [int] is [Z] (unbounded);
    - the [float] threshold of [Box.overlaps] and the true division it
      takes part in are carried out exactly over [Q];
    - a [Path] and a [str] are [string];
    - Python exceptions are the [Raise] outcome of [result];
    - a Python [set] is a duplicate-free list whose order is the (unknown)
      iteration order, and [set.pop()] may pick any member. *)

From Stdlib Require Import String Decimal DecimalString DecimalPos DecimalZ.
From Stdlib Require Import ZArith List Bool Lia QArith Permutation.
Import ListNotations.
Local Open Scope Z_scope.

(** ** Python outcomes and list primitives *)

Inductive exn : Type := IndexError | ValueError | KeyError | StopIteration.

Inductive result (A : Type) : Type :=
| Ok (a : A)
| Raise (e : exn).
Arguments Ok {A} a.
Arguments Raise {A} e.

Definition result_bind {A B} (r : result A) (k : A -> result B) : result B :=
  match r with
  | Ok a => k a
  | Raise e => Raise e
  end.

Module PyList.
Section Ops.
Context {A : Type}.

(** Python accepts an index [i] with [-len <= i < len]; a negative one
    counts from the end. *)
Definition norm_index (l : list A) (i : Z) : option nat :=
  let n := Z.of_nat (length l) in
  let j := if i <? 0 then i + n else i in
  if (0 <=? j) && (j <? n) then Some (Z.to_nat j) else None.

Fixpoint replace_nth (n : nat) (v : A) (l : list A) : list A :=
  match l, n with
  | [], _ => []
  | _ :: t, O => v :: t
  | h :: t, S m => h :: replace_nth m v t
  end.

Fixpoint remove_nth (n : nat) (l : list A) : list A :=
  match l, n with
  | [], _ => []
  | _ :: t, O => t
  | h :: t, S m => h :: remove_nth m t
  end.

(** [l[i]] *)
Definition getitem (l : list A) (i : Z) : result A :=
  match norm_index l i with
  | Some j =>
      match nth_error l j with
      | Some x => Ok x
      | None => Raise IndexError
      end
  | None => Raise IndexError
  end.

(** [l[i] = v] *)
Definition setitem (l : list A) (i : Z) (v : A) : result (list A) :=
  match norm_index l i with
  | Some j => Ok (replace_nth j v l)
  | None => Raise IndexError
  end.

(** [l.pop(i)]: the popped element and what is left of the list. *)
Definition pop (l : list A) (i : Z) : result (A * list A) :=
  match norm_index l i with
  | Some j =>
      match nth_error l j with
      | Some x => Ok (x, remove_nth j l)
      | None => Raise IndexError
      end
  | None => Raise IndexError
  end.

(** [enumerate(l, start)] *)
Fixpoint enumerate (start : Z) (l : list A) : list (Z * A) :=
  match l with
  | [] => []
  | x :: t => (start, x) :: enumerate (start + 1) t
  end.
End Ops.
End PyList.

Module PySeq.
Section Ops.
Context {A : Type}.

(** [l.insert(i, x)]: a negative index counts from the end, and an index
    outside the list is clamped to its nearer end. *)
Definition insert (l : list A) (i : Z) (x : A) : list A :=
  let n := Z.of_nat (length l) in
  let j := if i <? 0 then Z.max 0 (i + n) else Z.min i n in
  firstn (Z.to_nat j) l ++ x :: skipn (Z.to_nat j) l.
End Ops.
End PySeq.

(** [str(i)] for an integer. *)
Definition py_str (i : Z) : string := NilZero.string_of_int (Z.to_int i).

(** ** pcleaner/structures.py : Box *)

Module Structures.

Record Box : Type := mkBox { x1 : Z; y1 : Z; x2 : Z; y2 : Z }.

Definition Box_eq_dec (a b : Box) : {a = b} + {a <> b}.
Proof. decide equality; apply Z.eq_dec. Defined.

Definition Box_eqb (a b : Box) : bool :=
  if Box_eq_dec a b then true else false.

(** [Box.__contains__]: inclusive on both edges. *)
Definition contains (self : Box) (point : Z * Z) : bool :=
  let '(x, y) := point in
  (x1 self <=? x) && (x <=? x2 self) && (y1 self <=? y) && (y <=? y2 self).

Definition area (self : Box) : Z :=
  (x2 self - x1 self) * (y2 self - y1 self).

(** Python's [//] is floor division, which is [Z.div]. *)
Definition center (self : Box) : Z * Z :=
  ((x1 self + x2 self) / 2, (y1 self + y2 self) / 2).

Definition merge (self box : Box) : Box :=
  let x_min := Z.min (x1 self) (x1 box) in
  let y_min := Z.min (y1 self) (y1 box) in
  let x_max := Z.max (x2 self) (x2 box) in
  let y_max := Z.max (y2 self) (y2 box) in
  mkBox x_min y_min x_max y_max.

(** [a or b] on integers: [b] when [a] is falsy (zero). *)
Definition py_or (a b : Z) : Z := if a =? 0 then b else a.

(** [Box.overlaps]: the ratio test is strict. *)
Definition overlaps (self other : Box) (threshold : Q) : bool :=
  let x_overlap := Z.max 0 (Z.min (x2 self) (x2 other) - Z.max (x1 self) (x1 other)) in
  let y_overlap := Z.max 0 (Z.min (y2 self) (y2 other) - Z.max (y1 self) (y1 other)) in
  let intersection := x_overlap * y_overlap in
  let smaller_area := py_or (Z.min (area self) (area other)) 1 in
  negb (Qle_bool (inject_Z intersection / inject_Z smaller_area)
                 (threshold / inject_Z 100)).

Definition overlaps_center (self other : Box) : bool :=
  contains other (center self) || contains self (center other).

Definition pad (self : Box) (amount : Z) (canvas_size : Z * Z) : Box :=
  let x1_new := Z.max (x1 self - amount) 0 in
  let y1_new := Z.max (y1 self - amount) 0 in
  let x2_new := Z.min (x2 self + amount) (fst canvas_size) in
  let y2_new := Z.min (y2 self + amount) (snd canvas_size) in
  mkBox x1_new y1_new x2_new y2_new.

Definition right_pad (self : Box) (amount : Z) (canvas_size : Z * Z) : Box :=
  let x2_new := Z.min (x2 self + amount) (fst canvas_size) in
  mkBox (x1 self) (y1 self) x2_new (y2 self).

(** A box lies within [[0,0] x canvas] when each of its four coordinates is
    between 0 and the corresponding canvas dimension. *)
Definition within_canvas (b : Box) (canvas_size : Z * Z) : Prop :=
  0 <= x1 b <= fst canvas_size /\ 0 <= x2 b <= fst canvas_size /\
  0 <= y1 b <= snd canvas_size /\ 0 <= y2 b <= snd canvas_size.

(** ** pcleaner/structures.py : PageData and the overlap resolution *)

Inductive BoxType : Type := BOX | EXTENDED_BOX | MERGED_EXT_BOX | REFERENCE_BOX.

Record PageData : Type := mkPageData {
  image_path : string;
  mask_path : string;
  original_path : string;
  scale : Q;
  boxes : list Box;
  extended_boxes : list Box;
  merged_extended_boxes : list Box;
  reference_boxes : list Box;
  _image_size : option (Z * Z)
}.

Definition boxes_from_type (self : PageData) (box_type : BoxType) : list Box :=
  match box_type with
  | BOX => boxes self
  | EXTENDED_BOX => extended_boxes self
  | MERGED_EXT_BOX => merged_extended_boxes self
  | REFERENCE_BOX => reference_boxes self
  end.

(** The list handed out by [boxes_from_type] is the object stored in the
    page, so rewriting it in place is rewriting the field. *)
Definition set_boxes_of_type (self : PageData) (box_type : BoxType)
    (new_boxes : list Box) : PageData :=
  match box_type with
  | BOX =>
      mkPageData (image_path self) (mask_path self) (original_path self) (scale self)
        new_boxes (extended_boxes self) (merged_extended_boxes self)
        (reference_boxes self) (_image_size self)
  | EXTENDED_BOX =>
      mkPageData (image_path self) (mask_path self) (original_path self) (scale self)
        (boxes self) new_boxes (merged_extended_boxes self)
        (reference_boxes self) (_image_size self)
  | MERGED_EXT_BOX =>
      mkPageData (image_path self) (mask_path self) (original_path self) (scale self)
        (boxes self) (extended_boxes self) new_boxes
        (reference_boxes self) (_image_size self)
  | REFERENCE_BOX =>
      mkPageData (image_path self) (mask_path self) (original_path self) (scale self)
        (boxes self) (extended_boxes self) (merged_extended_boxes self)
        new_boxes (_image_size self)
  end.

(** [list.remove(b)]: drops the first element equal to [b], [ValueError]
    when there is none. *)
Fixpoint list_remove (b : Box) (l : list Box) : result (list Box) :=
  match l with
  | [] => Raise ValueError
  | x :: t =>
      if Box_eq_dec x b then Ok t
      else result_bind (list_remove b t) (fun t' => Ok (x :: t'))
  end.

(** [set.remove(b)] on a set held as a duplicate-free list: [KeyError] when
    [b] is not a member. *)
Fixpoint set_remove (b : Box) (s : list Box) : result (list Box) :=
  match s with
  | [] => Raise KeyError
  | x :: t =>
      if Box_eq_dec x b then Ok t
      else result_bind (set_remove b t) (fun t' => Ok (x :: t'))
  end.

(** The inner [for b in overlapping_boxes] loop shared by both algorithms:
    [box = box.merge(b); merge_queue.remove(b)]. *)
Fixpoint merge_overlapping (remove : Box -> list Box -> result (list Box))
    (overlapping_boxes : list Box) (box : Box) (merge_queue : list Box)
    : result (Box * list Box) :=
  match overlapping_boxes with
  | [] => Ok (box, merge_queue)
  | b :: rest =>
      result_bind (remove b merge_queue)
        (fun q => merge_overlapping remove rest (merge box b) q)
  end.

(** The [while merge_queue] loop of [resolve_total_overlaps]; [None] only
    when the fuel runs out. *)
Fixpoint total_overlaps_loop (fuel : nat) (merge_queue merged_boxes : list Box)
    : option (result (list Box)) :=
  match merge_queue with
  | [] => Some (Ok merged_boxes)
  | box :: merge_queue =>
      match fuel with
      | O => None
      | S fuel' =>
          let overlapping_boxes := filter (fun b => overlaps_center box b) merge_queue in
          match merge_overlapping list_remove overlapping_boxes box merge_queue with
          | Ok (box', merge_queue') =>
              total_overlaps_loop fuel' merge_queue' (merged_boxes ++ [box'])
          | Raise e => Some (Raise e)
          end
      end
  end.

(** One pass of the loop body per queued box is enough fuel. *)
Definition resolve_total_overlaps_boxes (bs : list Box) : option (result (list Box)) :=
  total_overlaps_loop (length bs) bs [].

Definition resolve_total_overlaps (self : PageData) : option (result PageData) :=
  match resolve_total_overlaps_boxes (boxes self) with
  | Some (Ok merged_boxes) => Some (Ok (set_boxes_of_type self BOX merged_boxes))
  | Some (Raise e) => Some (Raise e)
  | None => None
  end.

(** What the [while merge_queue] loop computes, as a function of its queue:
    the popped box merged with the queued boxes that pass the test against
    it, then the same for the boxes that fail it. *)
Fixpoint fifo_cluster (fuel : nat) (queue : list Box) : list Box :=
  match fuel, queue with
  | S fuel', b :: remaining =>
      let matched := filter (fun o => overlaps_center b o) remaining in
      let unmatched := filter (fun o => negb (overlaps_center b o)) remaining in
      fold_left merge matched b :: fifo_cluster fuel' unmatched
  | _, _ => []
  end.

(** [set(boxes)]: some duplicate-free enumeration of the members. *)
Definition is_set_of (s l : list Box) : Prop :=
  NoDup s /\ forall b, In b s <-> In b l.

(** One iteration of the [while merge_queue] loop of [resolve_overlaps] once
    [box] has been popped and [merge_queue] is what is left. *)
Definition overlaps_iteration (threshold : Q) (box : Box) (merge_queue : list Box)
    : result (Box * list Box) :=
  let overlapping_boxes := filter (fun b => overlaps box b threshold) merge_queue in
  merge_overlapping set_remove overlapping_boxes box merge_queue.

(** The loop of [resolve_overlaps]: [set.pop()] hands out an arbitrary member. *)
Inductive overlaps_loop (threshold : Q)
  : list Box -> list Box -> result (list Box) -> Prop :=
| overlaps_loop_exit : forall merged_boxes,
    overlaps_loop threshold [] merged_boxes (Ok merged_boxes)
| overlaps_loop_iter : forall merge_queue box box' merge_queue' merged_boxes out,
    In box merge_queue ->
    overlaps_iteration threshold box (remove Box_eq_dec box merge_queue)
      = Ok (box', merge_queue') ->
    overlaps_loop threshold merge_queue' (merged_boxes ++ [box']) out ->
    overlaps_loop threshold merge_queue merged_boxes out
| overlaps_loop_raise : forall merge_queue box e merged_boxes,
    In box merge_queue ->
    overlaps_iteration threshold box (remove Box_eq_dec box merge_queue) = Raise e ->
    overlaps_loop threshold merge_queue merged_boxes (Raise e).

Inductive resolve_overlaps (self : PageData) (from_type to_type : BoxType)
    (threshold : Q) : result PageData -> Prop :=
| resolve_overlaps_ok : forall merge_queue merged_boxes,
    is_set_of merge_queue (boxes_from_type self from_type) ->
    overlaps_loop threshold merge_queue [] (Ok merged_boxes) ->
    resolve_overlaps self from_type to_type threshold
      (Ok (set_boxes_of_type self to_type merged_boxes))
| resolve_overlaps_raise : forall merge_queue e,
    is_set_of merge_queue (boxes_from_type self from_type) ->
    overlaps_loop threshold merge_queue [] (Raise e) ->
    resolve_overlaps self from_type to_type threshold (Raise e).

(** Every result the loop can reach, over all choices of [set.pop()]. *)
Fixpoint overlaps_loop_outcomes (fuel : nat) (threshold : Q)
    (merge_queue merged_boxes : list Box) : list (result (list Box)) :=
  match merge_queue with
  | [] => [Ok merged_boxes]
  | _ :: _ =>
      match fuel with
      | O => []
      | S fuel' =>
          flat_map
            (fun box =>
               match overlaps_iteration threshold box
                       (remove Box_eq_dec box merge_queue) with
               | Ok (box', merge_queue') =>
                   overlaps_loop_outcomes fuel' threshold merge_queue'
                     (merged_boxes ++ [box'])
               | Raise e => [Raise e]
               end)
            merge_queue
      end
  end.

(** The run in which [set.pop()] always hands out the first member. *)
Fixpoint overlaps_loop_first (fuel : nat) (threshold : Q)
    (merge_queue merged_boxes : list Box) : option (result (list Box)) :=
  match merge_queue with
  | [] => Some (Ok merged_boxes)
  | box :: _ =>
      match fuel with
      | O => None
      | S fuel' =>
          match overlaps_iteration threshold box
                  (remove Box_eq_dec box merge_queue) with
          | Ok (box', merge_queue') =>
              overlaps_loop_first fuel' threshold merge_queue' (merged_boxes ++ [box'])
          | Raise e => Some (Raise e)
          end
      end
  end.

(** Some pair of distinct positions of [l] passes the overlap test. *)
Fixpoint overlaps_any (threshold : Q) (b : Box) (l : list Box) : bool :=
  match l with
  | [] => false
  | c :: t => overlaps b c threshold || overlaps_any threshold b t
  end.

Fixpoint has_overlapping_pair (threshold : Q) (l : list Box) : bool :=
  match l with
  | [] => false
  | b :: t => overlaps_any threshold b t || has_overlapping_pair threshold t
  end.

Definition outcome_overlaps (threshold : Q) (r : result (list Box)) : bool :=
  match r with
  | Ok merged_boxes => has_overlapping_pair threshold merged_boxes
  | Raise _ => false
  end.

(** All lists of length [n] over the members of [l]: every iteration order
    a set with [n] members drawn from [l] can have is among them. *)
Fixpoint lists_of (n : nat) (l : list Box) : list (list Box) :=
  match n with
  | O => [[]]
  | S m => flat_map (fun x => map (cons x) (lists_of m l)) l
  end.

Definition covers (s l : list Box) : bool :=
  forallb (fun x => existsb (Box_eqb x) s) l.

(** For every iteration order of [set(source)] and every choice of
    [set.pop()], the loop returns a collection with an overlapping pair. *)
Definition every_run_overlaps (threshold : Q) (source : list Box) : bool :=
  forallb
    (fun s =>
       if covers s source then
         forallb (outcome_overlaps threshold)
                 (overlaps_loop_outcomes (length s) threshold s [])
       else true)
    (lists_of (length (nodup Box_eq_dec source)) source).

(** Four boxes in a row, each overlapping the next by 4 of its 10 columns. *)
Definition chain : list Box :=
  [mkBox 0 0 10 10; mkBox 6 0 16 10; mkBox 12 0 22 10; mkBox 18 0 28 10].

(** The property of a collection that no two of its boxes, at distinct
    positions, pass the overlap test. *)
Definition overlap_free (threshold : Q) (l : list Box) : Prop :=
  forall i j a b, i <> j -> nth_error l i = Some a -> nth_error l j = Some b ->
    overlaps a b threshold = false.

(** ** pcleaner/structures.py : OCR analytics and OCR results *)

Record OCRAnalytic : Type := mkOCRAnalytic {
  num_boxes : Z;
  box_sizes_ocr : list Z;
  box_sizes_removed : list Z;
  removed_box_data : list (string * string * Box)
}.

Inductive OCRStatus : Type := Normal | Removed | Edited | EditedRemoved | New.

Definition OCRStatus_eqb (a b : OCRStatus) : bool :=
  match a, b with
  | Normal, Normal | Removed, Removed | Edited, Edited
  | EditedRemoved, EditedRemoved | New, New => true
  | _, _ => false
  end.

Record OCRResult : Type := mkOCRResult {
  path : string;
  text : string;
  box : Box;
  label : string;
  status : OCRStatus
}.

Definition bubbles_of_analytic (analytic : OCRAnalytic) : list OCRResult :=
  map (fun '(index, (path, text, box)) =>
         mkOCRResult path text box (py_str index) Normal)
      (PyList.enumerate 1 (removed_box_data analytic)).

Definition convert_ocr_analytics_to_results (ocr_analytics : list OCRAnalytic)
    : list (list OCRResult) :=
  map bubbles_of_analytic ocr_analytics.

Definition removed_box_data_of_results (results : list OCRResult)
    : list (string * string * Box) :=
  map (fun result => (path result, text result, box result))
      (filter (fun result => negb (OCRStatus_eqb (status result) Removed)) results).

Definition analytic_of_results (results : list OCRResult) : OCRAnalytic :=
  let removed_box_data := removed_box_data_of_results results in
  mkOCRAnalytic (Z.of_nat (length removed_box_data)) [] [] removed_box_data.

Definition convert_ocr_results_to_analytics (ocr_results : list (list OCRResult))
    : list OCRAnalytic :=
  map analytic_of_results ocr_results.

(** The ordered [(path, text, box)] triples of a list of records. *)
Definition triples (results : list OCRResult) : list (string * string * Box) :=
  map (fun result => (path result, text result, box result)) results.

(** ** pcleaner/structures.py : further Box and PageData operations *)

(** [Box.as_tuple] and [Box.as_tuple_xywh]. *)
Definition as_tuple (self : Box) : Z * Z * Z * Z :=
  (x1 self, y1 self, x2 self, y2 self).

Definition as_tuple_xywh (self : Box) : Z * Z * Z * Z :=
  (x1 self, y1 self, x2 self - x1 self, y2 self - y1 self).

(** [inner] lies inside [outer], edges included. *)
Definition inside (inner outer : Box) : Prop :=
  x1 outer <= x1 inner /\ y1 outer <= y1 inner /\
  x2 inner <= x2 outer /\ y2 inner <= y2 outer.

(** A box whose corners are in the order the field names promise. *)
Definition well_formed (b : Box) : Prop := x1 b <= x2 b /\ y1 b <= y2 b.

Definition with_image_size (size : option (Z * Z)) (self : PageData) : PageData :=
  mkPageData (image_path self) (mask_path self) (original_path self) (scale self)
    (boxes self) (extended_boxes self) (merged_extended_boxes self)
    (reference_boxes self) size.

(** [PageData.image_size]: the cached size when there is one; otherwise the
    size read from the image file, [probe], which is cached from then on. *)
Definition image_size (probe : Z * Z) (self : PageData) : (Z * Z) * PageData :=
  match _image_size self with
  | Some size => (size, self)
  | None => (probe, with_image_size (Some probe) self)
  end.

(** The loop [for i, box in enumerate(boxes): boxes[i] = op(box, padding,
    self.image_size)] of [grow_boxes] and [right_pad_boxes]: the size is
    asked for once per box, so never for an empty collection. *)
Fixpoint pad_each (op : Box -> Z -> Z * Z -> Box) (probe : Z * Z) (padding : Z)
    (todo : list Box) (self : PageData) : list Box * PageData :=
  match todo with
  | [] => ([], self)
  | box :: rest =>
      let '(size, self1) := image_size probe self in
      let '(done, self2) := pad_each op probe padding rest self1 in
      (op box padding size :: done, self2)
  end.

Definition grow_boxes (probe : Z * Z) (padding : Z) (box_type : BoxType)
    (self : PageData) : PageData :=
  let '(new_boxes, self') :=
    pad_each pad probe padding (boxes_from_type self box_type) self in
  set_boxes_of_type self' box_type new_boxes.

Definition right_pad_boxes (probe : Z * Z) (padding : Z) (box_type : BoxType)
    (self : PageData) : PageData :=
  let '(new_boxes, self') :=
    pad_each right_pad probe padding (boxes_from_type self box_type) self in
  set_boxes_of_type self' box_type new_boxes.

(** No two boxes at distinct positions of [l] pass [overlaps_center]. *)
Definition center_free (l : list Box) : Prop :=
  forall i j a b, i <> j -> nth_error l i = Some a -> nth_error l j = Some b ->
    overlaps_center a b = false.

(** No two distinct boxes of [l] pass the overlap test. *)
Definition pairwise_apart (threshold : Q) (l : list Box) : Prop :=
  forall a b, In a l -> In b l -> a <> b -> overlaps a b threshold = false.

End Structures.

(** ** pcleaner/gui/ocr_review_driver.py : the table-manipulation slots

    The Qt widgets are collaborators: what a slot reads from them (the
    current row of the image list and of the table, the text of the edited
    cell, the corners of the drawn rectangle, the translation of a source
    string) is an argument of the slot.  The window keeps the frozen
    analytics, the working results, the re-entrancy flag, and here also the
    messages handed to the logger. *)

Module OcrReview.
Import Structures.

Record OcrReviewWindow : Type := mkWindow {
  ocr_analytics : list OCRAnalytic;
  ocr_results : list (list OCRResult);
  awaiting_user_input : bool;
  logged : list string
}.

(** What running a slot leaves behind: it returned, or an exception escaped
    it; either way the window is in some state. *)
Inductive outcome : Type :=
| Returned (w : OcrReviewWindow)
| Raised (e : exn) (w : OcrReviewWindow).

Definition window_of (o : outcome) : OcrReviewWindow :=
  match o with
  | Returned w => w
  | Raised _ w => w
  end.

Definition set_awaiting (flag : bool) (w : OcrReviewWindow) : OcrReviewWindow :=
  mkWindow (ocr_analytics w) (ocr_results w) flag (logged w).

Definition set_results (rs : list (list OCRResult)) (w : OcrReviewWindow)
    : OcrReviewWindow :=
  mkWindow (ocr_analytics w) rs (awaiting_user_input w) (logged w).

Definition log_message (msg : string) (w : OcrReviewWindow) : OcrReviewWindow :=
  mkWindow (ocr_analytics w) (ocr_results w) (awaiting_user_input w)
           (logged w ++ [msg]).

(** Sequencing a fallible read with the rest of a slot. *)
Definition try_with {A} (w : OcrReviewWindow) (r : result A)
    (k : A -> outcome) : outcome :=
  match r with
  | Ok a => k a
  | Raise e => Raised e w
  end.

Notation "'let!' x ':=' r 'from' w 'in' k" :=
  (try_with w r (fun x => k))
  (at level 10, x pattern, r at level 100, w at level 0, k at level 200).

(** [@suppress_cell_update_handling]: the flag is lowered, the method runs,
    and the flag is raised again unless an exception escaped. *)
Definition suppress_cell_update_handling
    (method : OcrReviewWindow -> outcome) (w : OcrReviewWindow) : outcome :=
  match method (set_awaiting false w) with
  | Returned w' => Returned (set_awaiting true w')
  | Raised e w' => Raised e w'
  end.

(** [load_ocr_results] repaints the table and the image from the results it
    is given; of the modelled state it touches only the flag, through its
    decorator. *)
Definition load_ocr_results (shown : list OCRResult) (w : OcrReviewWindow) : outcome :=
  suppress_cell_update_handling (fun w' => Returned w') w.

(** [self.ocr_results[self.image_list.currentRow()]] *)
Definition current_image_ocr_results (image_row : Z) (w : OcrReviewWindow)
    : result (list OCRResult) :=
  PyList.getitem (ocr_results w) image_row.

(** The list of the current image is mutated in place: the new contents
    are what the window holds at that row from then on. *)
Definition store_current (image_row : Z) (rs : list OCRResult) (w : OcrReviewWindow)
    : result OcrReviewWindow :=
  result_bind (PyList.setitem (ocr_results w) image_row rs)
    (fun all => Ok (set_results all w)).

Definition with_status (s : OCRStatus) (r : OCRResult) : OCRResult :=
  mkOCRResult (path r) (text r) (box r) (label r) s.

Definition with_text (t : string) (r : OCRResult) : OCRResult :=
  mkOCRResult (path r) t (box r) (label r) (status r).

Definition delete_bubble_body (image_row selected_row : Z) (w : OcrReviewWindow)
    : outcome :=
  if selected_row =? -1 then Returned w
  else
    let! results := current_image_ocr_results image_row w from w in
    let! ocr_result := PyList.getitem results selected_row from w in
    let! results' :=
      match status ocr_result with
      | New =>
          result_bind (PyList.pop results selected_row) (fun p => Ok (snd p))
      | Removed =>
          PyList.setitem results selected_row (with_status Normal ocr_result)
      | EditedRemoved =>
          PyList.setitem results selected_row (with_status Edited ocr_result)
      | Edited =>
          PyList.setitem results selected_row (with_status EditedRemoved ocr_result)
      | Normal =>
          PyList.setitem results selected_row (with_status Removed ocr_result)
      end from w in
    let! w' := store_current image_row results' w from w in
    load_ocr_results results' w'.

Definition delete_bubble (image_row selected_row : Z) : OcrReviewWindow -> outcome :=
  suppress_cell_update_handling (delete_bubble_body image_row selected_row).

Definition is_edited (s : OCRStatus) : bool :=
  match s with
  | Edited | EditedRemoved => true
  | _ => false
  end.

(** [next(i for i, r in enumerate(results) if r.label == wanted)] *)
Fixpoint first_row_with_label (start : Z) (wanted : string) (results : list OCRResult)
    : result Z :=
  match results with
  | [] => Raise StopIteration
  | r :: rest =>
      if String.eqb (label r) wanted then Ok start
      else first_row_with_label (start + 1) wanted rest
  end.

Definition reset_single_bubble_body (image_row selected_row : Z) (w : OcrReviewWindow)
    : outcome :=
  if selected_row =? -1 then Returned w
  else
    let! results := current_image_ocr_results image_row w from w in
    let! selected := PyList.getitem results selected_row from w in
    if negb (is_edited (status selected)) then
      Returned (log_message "Tried to reset a non-edited bubble." w)
    else
      let! original_analytic := PyList.getitem (ocr_analytics w) image_row from w in
      let! original_results :=
        PyList.getitem (convert_ocr_analytics_to_results [original_analytic]) 0 from w in
      let! results := PyList.getitem (ocr_results w) image_row from w in
      let! selected := PyList.getitem results selected_row from w in
      let! original_row :=
        first_row_with_label 0 (label selected) original_results from w in
      let! original := PyList.getitem original_results original_row from w in
      let! results' := PyList.setitem results selected_row original from w in
      let! w' := store_current image_row results' w from w in
      load_ocr_results results' w'.

Definition reset_single_bubble (image_row selected_row : Z)
    : OcrReviewWindow -> outcome :=
  suppress_cell_update_handling (reset_single_bubble_body image_row selected_row).

Definition MIN_BUBBLE_SIZE : Z := 400.

(** [sum(r.status == New for r in results)] *)
Definition count_new (results : list OCRResult) : Z :=
  Z.of_nat (length (filter (fun r => OCRStatus_eqb (status r) New) results)).

(** [rect] is given by its corners as [topLeft()] and [bottomRight()]
    report them. *)
Definition add_new_bubble_body (tr : string -> string) (image_row : Z)
    (rect : (Z * Z) * (Z * Z)) (w : OcrReviewWindow) : outcome :=
  let '((x1, y1), (x2, y2)) := rect in
  let box := mkBox x1 y1 x2 y2 in
  if area box <? MIN_BUBBLE_SIZE then
    Returned (log_message "Discarding bubble due to size." w)
  else
    let! counted := current_image_ocr_results image_row w from w in
    let new_bubbles := count_new counted in
    let new_bubble_label := (tr "New" ++ " " ++ py_str (new_bubbles + 1))%string in
    let! results := current_image_ocr_results image_row w from w in
    let! first := PyList.getitem results 0 from w in
    let image_path := path first in
    let results' :=
      results ++ [mkOCRResult image_path "" box new_bubble_label New] in
    let! w' := store_current image_row results' w from w in
    load_ocr_results results' w'.

Definition add_new_bubble (tr : string -> string) (image_row : Z)
    (rect : (Z * Z) * (Z * Z)) : OcrReviewWindow -> outcome :=
  suppress_cell_update_handling (add_new_bubble_body tr image_row rect).

(** [handle_table_edited] is not decorated: it returns at once while the
    flag is lowered.  [new_text] is [tableWidget_ocr.currentText(1)]. *)
Definition handle_table_edited (image_row : Z) (new_text : string) (row col : Z)
    (w : OcrReviewWindow) : outcome :=
  if negb (awaiting_user_input w) then Returned w
  else if negb (col =? 1) then
    Returned (log_message "Only the text column should be editable." w)
  else
    let! results := current_image_ocr_results image_row w from w in
    let! r := PyList.getitem results row from w in
    let r1 := with_text new_text r in
    let r2 := if OCRStatus_eqb (status r1) Normal then with_status Edited r1 else r1 in
    let r3 := if OCRStatus_eqb (status r2) Removed then with_status EditedRemoved r2 else r2 in
    let! results' := PyList.setitem results row r3 from w in
    let! w' := store_current image_row results' w from w in
    load_ocr_results results' w'.

(** The status a record has after its text was edited. *)
Definition edited_status (s : OCRStatus) : OCRStatus :=
  match s with
  | Normal => Edited
  | Removed => EditedRemoved
  | other => other
  end.

(** What a slot that rewrote the current image's list to [rs] and then
    repainted leaves behind. *)
Definition rewritten (w : OcrReviewWindow) (i : nat) (rs : list OCRResult)
    : OcrReviewWindow :=
  set_awaiting true (set_results (PyList.replace_nth i rs (ocr_results w)) w).

(** ** The remaining table slots *)

(** [ocr_results.insert(selected_row - 1, ocr_results.pop(selected_row))]:
    the pop happens first, the insert works on what it leaves. *)
Definition move_row_up_body (image_row selected_row : Z) (w : OcrReviewWindow)
    : outcome :=
  if (selected_row =? -1) || (selected_row =? 0) then Returned w
  else
    let! results := current_image_ocr_results image_row w from w in
    let! popped := PyList.pop results selected_row from w in
    let results' := PySeq.insert (snd popped) (selected_row - 1) (fst popped) in
    let! w' := store_current image_row results' w from w in
    load_ocr_results results' w'.

Definition move_row_up (image_row selected_row : Z) : OcrReviewWindow -> outcome :=
  suppress_cell_update_handling (move_row_up_body image_row selected_row).

(** [row_count] is [tableWidget_ocr.rowCount()]. *)
Definition move_row_down_body (image_row selected_row row_count : Z)
    (w : OcrReviewWindow) : outcome :=
  if (selected_row =? -1) || (selected_row =? row_count - 1) then Returned w
  else
    let! results := current_image_ocr_results image_row w from w in
    let! popped := PyList.pop results selected_row from w in
    let results' := PySeq.insert (snd popped) (selected_row + 1) (fst popped) in
    let! w' := store_current image_row results' w from w in
    load_ocr_results results' w'.

Definition move_row_down (image_row selected_row row_count : Z)
    : OcrReviewWindow -> outcome :=
  suppress_cell_update_handling (move_row_down_body image_row selected_row row_count).

(** [cancelled] is whether the question box was answered with Cancel. *)
Definition reset_all_bubbles_body (cancelled : bool) (image_row : Z)
    (w : OcrReviewWindow) : outcome :=
  if cancelled then Returned w
  else
    let! original_analytic := PyList.getitem (ocr_analytics w) image_row from w in
    let! original_results :=
      PyList.getitem (convert_ocr_analytics_to_results [original_analytic]) 0 from w in
    let! w' := store_current image_row original_results w from w in
    load_ocr_results original_results w'.

Definition reset_all_bubbles (cancelled : bool) (image_row : Z)
    : OcrReviewWindow -> outcome :=
  suppress_cell_update_handling (reset_all_bubbles_body cancelled image_row).

(** What [update_button_availability] leaves the table buttons as. *)
Record Buttons : Type := mkButtons {
  row_up_enabled : bool;
  row_down_enabled : bool;
  reset_enabled : bool;
  delete_enabled : bool;
  delete_shown : bool;
  undelete_shown : bool
}.

Definition is_removed (s : OCRStatus) : bool :=
  match s with
  | Removed | EditedRemoved => true
  | _ => false
  end.

Definition update_button_availability (image_row selected_row row_count : Z)
    (w : OcrReviewWindow) : result Buttons :=
  let row_up := 0 <? selected_row in
  let row_down := negb (selected_row =? -1) && (selected_row <? row_count - 1) in
  result_bind
    (if selected_row =? -1 then Ok false
     else
       result_bind (current_image_ocr_results image_row w) (fun results =>
       result_bind (PyList.getitem results selected_row) (fun r =>
       Ok (is_edited (status r)))))
    (fun reset =>
       if selected_row =? -1 then
         Ok (mkButtons row_up row_down reset false true false)
       else
         result_bind (current_image_ocr_results image_row w) (fun results =>
         result_bind (PyList.getitem results selected_row) (fun r =>
         if is_removed (status r)
         then Ok (mkButtons row_up row_down reset true false true)
         else Ok (mkButtons row_up row_down reset true true false)))).

Inductive ViewMode : Type := WithBoxes | Original.

Inductive PenStyle : Type := SolidLine | DashLine.

(** A [QColor] by its red, green, blue and alpha. *)
Definition QColor : Type := (Z * Z * Z * Z)%type.

Definition BUBBLE_STATUS_COLORS (s : OCRStatus) : QColor :=
  match s with
  | Normal => (0, 128, 0, 255)
  | Removed => (128, 0, 0, 255)
  | EditedRemoved => (128, 0, 0, 255)
  | Edited => (0, 0, 128, 255)
  | New => (128, 128, 0, 255)
  end.

(** What [update_image_boxes] hands to the image viewer: [None] for
    [clear_bubbles()], otherwise the four parallel lists of [set_bubbles]. *)
Definition Bubbles : Type :=
  (list (Z * Z * Z * Z) * list QColor * list string * list PenStyle)%type.

Definition update_image_boxes (mode : ViewMode) (highlight : QColor)
    (image_row selected_row : Z) (w : OcrReviewWindow) : result (option Bubbles) :=
  let no_results := match ocr_results w with [] => true | _ => false end in
  let original := match mode with Original => true | WithBoxes => false end in
  if original || no_results then Ok None
  else
    result_bind (current_image_ocr_results image_row w) (fun results =>
    let rects := map (fun r => as_tuple_xywh (box r)) results in
    let colors := map (fun r => BUBBLE_STATUS_COLORS (status r)) results in
    let labels := map label results in
    let strokes :=
      map (fun r => if negb (is_removed (status r)) then SolidLine else DashLine)
          results in
    if negb (selected_row =? -1) then
      result_bind (PyList.setitem colors selected_row highlight) (fun colors' =>
      Ok (Some (rects, colors', labels, strokes)))
    else Ok (Some (rects, colors, labels, strokes))).

(** ** The review session as a state machine *)

(** What the user and the toolkit can make the window do, each with the
    widget readings the slot takes. *)
Inductive Event : Type :=
| DeleteBubble (image_row selected_row : Z)
| ResetSingleBubble (image_row selected_row : Z)
| ResetAllBubbles (cancelled : bool) (image_row : Z)
| MoveRowUp (image_row selected_row : Z)
| MoveRowDown (image_row selected_row row_count : Z)
| AddNewBubble (tr : string -> string) (image_row : Z) (rect : (Z * Z) * (Z * Z))
| TableEdited (image_row : Z) (new_text : string) (row col : Z).

Definition run_event (ev : Event) (w : OcrReviewWindow) : outcome :=
  match ev with
  | DeleteBubble image_row selected_row => delete_bubble image_row selected_row w
  | ResetSingleBubble image_row selected_row =>
      reset_single_bubble image_row selected_row w
  | ResetAllBubbles cancelled image_row => reset_all_bubbles cancelled image_row w
  | MoveRowUp image_row selected_row => move_row_up image_row selected_row w
  | MoveRowDown image_row selected_row row_count =>
      move_row_down image_row selected_row row_count w
  | AddNewBubble tr image_row rect => add_new_bubble tr image_row rect w
  | TableEdited image_row new_text row col =>
      handle_table_edited image_row new_text row col w
  end.

(** Every slot but [handle_table_edited] is wrapped by the decorator. *)
Definition decorated (ev : Event) : bool :=
  match ev with
  | TableEdited _ _ _ _ => false
  | _ => true
  end.

(** The window as [__init__] sets it up from the analytics. *)
Definition init_window (analytics : list OCRAnalytic) : OcrReviewWindow :=
  mkWindow analytics (convert_ocr_analytics_to_results analytics) false [].

(** The windows a session can be in: whatever a sequence of events leaves,
    exceptions included (Qt reports an exception of a slot and goes on). *)
Inductive reachable (analytics : list OCRAnalytic) : OcrReviewWindow -> Prop :=
| reachable_init : reachable analytics (init_window analytics)
| reachable_step : forall w ev,
    reachable analytics w -> reachable analytics (window_of (run_event ev w)).

(** Every record of [results] that is not [New] carries the label of an
    entry of the expanded snapshot [analytic]. *)
Definition labels_known (analytic : OCRAnalytic) (results : list OCRResult) : Prop :=
  Forall (fun r => status r = New \/
                   In (label r) (map label (bubbles_of_analytic analytic)))
         results.

(** A record is known to the snapshot when it is [New] or carries the
    label of one of the snapshot's entries. *)
Definition known (a : OCRAnalytic) (r : OCRResult) : Prop :=
  status r = New \/ In (label r) (map label (bubbles_of_analytic a)).

(** The invariant of a session: image by image, every record that is not
    [New] carries a label of the frozen snapshot of that image. *)
Definition session_invariant (w : OcrReviewWindow) : Prop :=
  Forall2 labels_known (ocr_analytics w) (ocr_results w).

End OcrReview.

(** ** icons/build_icon_cache.py : the XDG icon search

    The file system is a collaborator: [present name] is whether
    [(src_path / name).exists()]. *)

From Stdlib Require Import Ascii.

Module IconCache.

Definition dash : Ascii.ascii := "-"%char.

(** [s.split("-")] *)
Fixpoint split_dash (s : string) : list string :=
  match s with
  | EmptyString => [EmptyString]
  | String c rest =>
      if Ascii.eqb c dash then EmptyString :: split_dash rest
      else
        match split_dash rest with
        | [] => [String c EmptyString]
        | first :: others => String c first :: others
        end
  end.

(** ["-".join(parts)] *)
Fixpoint join_dash (parts : list string) : string :=
  match parts with
  | [] => EmptyString
  | [part] => part
  | part :: others => (part ++ String dash (join_dash others))%string
  end.

(** ["-".join(file.split("-")[:-1])] *)
Definition drop_last_component (file : string) : string :=
  join_dash (removelast (split_dash file)).

Definition is_empty (s : string) : bool :=
  match s with
  | EmptyString => true
  | String _ _ => false
  end.

(** The [while] loop for one extension: the name it stops at, [None] only
    when the fuel runs out. *)
Fixpoint shorten (fuel : nat) (present : string -> bool) (ext file : string)
    : option string :=
  if negb (present (file ++ ext)%string) && negb (is_empty file) then
    match fuel with
    | O => None
    | S fuel' => shorten fuel' present ext (drop_last_component file)
    end
  else Some file.

(** The [for ext in extensions] loop; every extension starts again from the
    original name. *)
Fixpoint find_from (fuel : nat) (present : string -> bool) (og_file : string)
    (extensions : list string) : option (option string) :=
  match extensions with
  | [] => Some None
  | ext :: others =>
      match shorten fuel present ext og_file with
      | None => None
      | Some file =>
          if negb (is_empty file) then Some (Some (file ++ ext)%string)
          else find_from fuel present og_file others
      end
  end.

(** Each pass of the [while] loop takes at least one character off the name. *)
Definition find_xdg_icon (present : string -> bool) (file : string)
    (extensions : list string) : option (option string) :=
  find_from (String.length file) present file extensions.

Definition SUPPORTED_EXTENSIONS : list string :=
  [".svg"%string; ".png"%string; ".xpm"%string].

(** The names the search tries for [file]: [file] itself, then [file]
    without its last dash-separated component, and so on while the name is
    not empty. *)
Definition candidate (file name : string) : Prop :=
  is_empty name = false /\
  exists k, name = Nat.iter k drop_last_component file.

Fixpoint dash_free (s : string) : bool :=
  match s with
  | EmptyString => true
  | String c rest => negb (Ascii.eqb c dash) && dash_free rest
  end.

End IconCache.

(** ** Specification-side relations *)

Module Spec.
Import Structures.

(** Collapsing a set of records in the specification's words: walk the set
    in order, skip a record whose status is [Removed], emit the
    [(path, text, box)] triple of any other. *)
Inductive collapses_to : list OCRResult -> list (string * string * Box) -> Prop :=
| collapse_done : collapses_to [] []
| collapse_skip : forall r rs ts,
    status r = Removed -> collapses_to rs ts -> collapses_to (r :: rs) ts
| collapse_emit : forall r rs ts,
    status r <> Removed -> collapses_to rs ts ->
    collapses_to (r :: rs) ((path r, text r, box r) :: ts).

(** Total-overlap resolution in the specification's words.  The
    bounding-box union of two boxes: *)
Definition bounding_union (a b : Box) : Box :=
  mkBox (Z.min (x1 a) (x1 b)) (Z.min (y1 a) (y1 b))
        (Z.max (x2 a) (x2 b)) (Z.max (y2 a) (y2 b)).

(** the center of [a] (integer division, rounding down) lies in [b], edges
    included: *)
Definition center_in (a b : Box) : bool :=
  let cx := (x1 a + x2 a) / 2 in
  let cy := (y1 a + y2 a) / 2 in
  (x1 b <=? cx) && (cx <=? x2 b) && (y1 b <=? cy) && (cy <=? y2 b).

(** [o] matches the popped box [b] when the center of [b] lies in [o] or
    the center of [o] lies in [b]: *)
Definition total_overlap (b o : Box) : bool := center_in b o || center_in o b.

(** the FIFO queue: pop the front element [b], merge into it, in queue
    order, every remaining box that matches [b], drop those from the queue,
    emit, and go on with what is left. *)
Fixpoint fifo_queue (fuel : nat) (queue : list Box) : list Box :=
  match fuel, queue with
  | S fuel', b :: remaining =>
      fold_left bounding_union (filter (total_overlap b) remaining) b
        :: fifo_queue fuel' (filter (fun o => negb (total_overlap b o)) remaining)
  | _, _ => []
  end.

Definition fifo_resolution (bs : list Box) : list Box :=
  fifo_queue (length bs) bs.

End Spec.

(** * Properties *)

Import Structures OcrReview Spec.

(** ** Python list primitives at valid rows *)

Section PyListFacts.
Context {A : Type}.
Implicit Types (l : list A) (j : nat).

Lemma norm_index_nat l j :
  (j < length l)%nat -> PyList.norm_index l (Z.of_nat j) = Some j.
Proof.
  intros Hj. unfold PyList.norm_index.
  replace (Z.of_nat j <? 0) with false by (symmetry; apply Z.ltb_ge; lia).
  replace (0 <=? Z.of_nat j) with true by (symmetry; apply Z.leb_le; lia).
  replace (Z.of_nat j <? Z.of_nat (length l)) with true
    by (symmetry; apply Z.ltb_lt; lia).
  simpl. now rewrite Nat2Z.id.
Qed.

Lemma getitem_nat l j x :
  nth_error l j = Some x -> PyList.getitem l (Z.of_nat j) = Ok x.
Proof.
  intros H. unfold PyList.getitem.
  rewrite norm_index_nat by (apply nth_error_Some; congruence).
  now rewrite H.
Qed.

Lemma setitem_nat l j v :
  (j < length l)%nat ->
  PyList.setitem l (Z.of_nat j) v = Ok (PyList.replace_nth j v l).
Proof. intros H. unfold PyList.setitem. now rewrite norm_index_nat. Qed.

Lemma pop_nat l j x :
  nth_error l j = Some x ->
  PyList.pop l (Z.of_nat j) = Ok (x, PyList.remove_nth j l).
Proof.
  intros H. unfold PyList.pop.
  rewrite norm_index_nat by (apply nth_error_Some; congruence).
  now rewrite H.
Qed.

Lemma getitem_empty (i : Z) : PyList.getitem (@nil A) i = Raise IndexError.
Proof.
  unfold PyList.getitem, PyList.norm_index. simpl.
  destruct (i <? 0) eqn:E.
  - replace (0 <=? i + 0) with false; [reflexivity|].
    symmetry. apply Z.leb_gt. apply Z.ltb_lt in E. lia.
  - replace (i <? 0) with false.
    now rewrite andb_false_r.
Qed.

Lemma replace_nth_length j v l :
  length (PyList.replace_nth j v l) = length l.
Proof.
  revert j; induction l as [|h t IH]; intros [|j]; simpl; auto.
Qed.

Lemma nth_error_replace_nth_same l j v :
  (j < length l)%nat -> nth_error (PyList.replace_nth j v l) j = Some v.
Proof.
  revert j; induction l as [|h t IH]; intros [|j] H; simpl in *; try lia; auto.
  apply IH. lia.
Qed.

Lemma nth_error_replace_nth_other l j k v :
  j <> k -> nth_error (PyList.replace_nth j v l) k = nth_error l k.
Proof.
  revert j k; induction l as [|h t IH]; intros [|j] [|k] H; simpl; auto.
  - congruence.
Qed.

Lemma replace_nth_same l j x :
  nth_error l j = Some x -> PyList.replace_nth j x l = l.
Proof.
  revert j; induction l as [|h t IH]; intros [|j] H; simpl in *; auto.
  - congruence.
  - f_equal; auto.
Qed.

Lemma replace_nth_twice l j u v :
  PyList.replace_nth j v (PyList.replace_nth j u l) = PyList.replace_nth j v l.
Proof.
  revert j; induction l as [|h t IH]; intros [|j]; simpl; auto.
  f_equal; auto.
Qed.

Lemma nth_error_middle (pre : list A) (x : A) (post : list A) :
  nth_error (pre ++ x :: post) (length pre) = Some x.
Proof. induction pre as [|h pre IH]; simpl; auto. Qed.

Lemma remove_nth_middle (pre : list A) (x : A) (post : list A) :
  PyList.remove_nth (length pre) (pre ++ x :: post) = pre ++ post.
Proof. induction pre as [|h pre IH]; simpl; [reflexivity|]. f_equal. exact IH. Qed.

Lemma replace_nth_middle (pre : list A) (x y : A) (post : list A) :
  PyList.replace_nth (length pre) y (pre ++ x :: post) = pre ++ y :: post.
Proof. induction pre as [|h pre IH]; simpl; [reflexivity|]. f_equal. exact IH. Qed.
End PyListFacts.

(** ** Box.pad *)

Lemma pad_one_sided (a : Box) (k : Z) (canvas : Z * Z) :
  0 <= x1 (pad a k canvas) /\ 0 <= y1 (pad a k canvas) /\
  x2 (pad a k canvas) <= fst canvas /\ y2 (pad a k canvas) <= snd canvas.
Proof. unfold pad; simpl; lia. Qed.

(** C7, as stated, fails: [pad] clamps the top-left corner from below only
    and the bottom-right corner from above only, so a box that starts
    outside the canvas stays outside, and padding it by 0 moves it. *)
Lemma pad_leaves_canvas_and_moves :
  ~ within_canvas (pad (mkBox 20 20 30 30) 5 (10, 10)) (10, 10) /\
  pad (mkBox 20 20 30 30) 0 (10, 10) <> mkBox 20 20 30 30.
Proof.
  split.
  - unfold within_canvas; simpl. lia.
  - unfold pad; simpl. intros H. inversion H.
Qed.

(** C7 (amended): for a box that itself lies within [[0,0] x canvas] and an
    amount [k >= 0], [pad] returns a box lying within [[0,0] x canvas] and
    padding by 0 returns the box itself. *)
Theorem pad_within_canvas (a : Box) (k : Z) (canvas : Z * Z) :
  within_canvas a canvas -> 0 <= k ->
  within_canvas (pad a k canvas) canvas /\ pad a 0 canvas = a.
Proof.
  unfold within_canvas. destruct a as [ax1 ay1 ax2 ay2], canvas as [cw ch].
  simpl. intros (Hx1 & Hx2 & Hy1 & Hy2) Hk. split.
  - unfold pad; simpl. lia.
  - unfold pad; simpl. f_equal; lia.
Qed.

Lemma pad_within_canvas_witness :
  within_canvas (pad (mkBox 2 3 8 9) 4 (10, 12)) (10, 12) /\
  pad (mkBox 2 3 8 9) 0 (10, 12) = mkBox 2 3 8 9.
Proof.
  apply (pad_within_canvas (mkBox 2 3 8 9) 4 (10, 12)).
  - unfold within_canvas; simpl; lia.
  - lia.
Defined.

(** ** Annotation set <-> analytics snapshot *)

Lemma removed_box_data_collapses (results : list OCRResult) :
  collapses_to results (removed_box_data_of_results results).
Proof.
  unfold removed_box_data_of_results.
  induction results as [|r rs IH]; simpl.
  - constructor.
  - destruct (status r) eqn:E; simpl;
      try (apply collapse_emit; [congruence | exact IH]).
    apply collapse_skip; assumption.
Qed.

Lemma collapses_to_functional rs ts ts' :
  collapses_to rs ts -> collapses_to rs ts' -> ts = ts'.
Proof.
  intros H; revert ts'; induction H; intros ts' H'; inversion H'; subst;
    try congruence; auto.
  f_equal; auto.
Qed.

(** C3: each annotation set becomes one snapshot whose triples are, in set
    order, those of the records whose status is not [Removed] (so
    [EditedRemoved], [New], [Edited] and [Normal] records are kept), whose
    [num_boxes] is the number of emitted triples, and whose two
    size-histogram fields are empty. *)
Theorem convert_results_to_analytics_collapse (ocr_results : list (list OCRResult)) :
  Forall2
    (fun results analytic =>
       collapses_to results (removed_box_data analytic) /\
       (forall r, In r results ->
          status r = EditedRemoved \/ status r = New \/
          status r = Edited \/ status r = Normal ->
          In (path r, text r, box r) (removed_box_data analytic)) /\
       num_boxes analytic = Z.of_nat (length (removed_box_data analytic)) /\
       box_sizes_ocr analytic = [] /\ box_sizes_removed analytic = [])
    ocr_results (convert_ocr_results_to_analytics ocr_results).
Proof.
  unfold convert_ocr_results_to_analytics.
  induction ocr_results as [|results rest IH]; simpl; constructor; auto.
  simpl. repeat split.
  - apply removed_box_data_collapses.
  - intros r Hin Hst. unfold removed_box_data_of_results.
    apply (in_map (fun result => (path result, text result, box result))).
    apply filter_In. split; [exact Hin|].
    destruct Hst as [H|[H|[H|H]]]; rewrite H; reflexivity.
Qed.

Lemma convert_results_to_analytics_collapse_witness :
  convert_ocr_results_to_analytics
    [[mkOCRResult "p.png" "a" (mkBox 0 0 1 1) "1" Removed;
      mkOCRResult "p.png" "b" (mkBox 2 2 3 3) "2" EditedRemoved]]
  = [mkOCRAnalytic 1 [] [] [("p.png"%string, "b"%string, mkBox 2 2 3 3)]] /\
  In ("p.png"%string, "b"%string, mkBox 2 2 3 3)
     [("p.png"%string, "b"%string, mkBox 2 2 3 3)].
Proof.
  split; [reflexivity|].
  pose proof (convert_results_to_analytics_collapse
                [[mkOCRResult "p.png" "a" (mkBox 0 0 1 1) "1" Removed;
                  mkOCRResult "p.png" "b" (mkBox 2 2 3 3) "2" EditedRemoved]]) as H.
  inversion H as [|results analytic rest rest' (_ & Hkeep & _) _]; subst.
  exact (Hkeep (mkOCRResult "p.png" "b" (mkBox 2 2 3 3) "2" EditedRemoved)
               (or_intror (or_introl eq_refl)) (or_introl eq_refl)).
Defined.

Lemma triples_enumerate (start : Z) (data : list (string * string * Box)) :
  triples
    (map (fun '(index, (path, text, box)) =>
            mkOCRResult path text box (py_str index) Normal)
         (PyList.enumerate start data)) = data.
Proof.
  revert start; induction data as [|[[p t] b] data IH]; intros start; simpl.
  - reflexivity.
  - unfold triples in *. simpl. f_equal. apply IH.
Qed.

Lemma triples_bubbles_of_analytic (analytic : OCRAnalytic) :
  triples (bubbles_of_analytic analytic) = removed_box_data analytic.
Proof. apply triples_enumerate. Qed.

(** C6: collapsing every annotation set and expanding the snapshots again
    gives, set by set, records whose ordered triples are those of the
    original records with status other than [Removed], in the same order;
    exactly the [Removed] records are missing. *)
Theorem collapse_then_expand_triples (ocr_results : list (list OCRResult)) :
  Forall2
    (fun original rebuilt =>
       collapses_to original (triples rebuilt) /\
       triples rebuilt =
         triples (filter (fun r => negb (OCRStatus_eqb (status r) Removed)) original))
    ocr_results
    (convert_ocr_analytics_to_results (convert_ocr_results_to_analytics ocr_results)).
Proof.
  unfold convert_ocr_analytics_to_results, convert_ocr_results_to_analytics.
  induction ocr_results as [|results rest IH]; simpl; constructor; auto.
  rewrite triples_bubbles_of_analytic. simpl. split.
  - apply removed_box_data_collapses.
  - reflexivity.
Qed.

(** ** The review slots at a selected record *)

Lemma not_minus_one (j : nat) : (Z.of_nat j =? -1) = false.
Proof. apply Z.eqb_neq. lia. Qed.

Lemma current_image_nat w i results :
  nth_error (ocr_results w) i = Some results ->
  current_image_ocr_results (Z.of_nat i) w = Ok results.
Proof. intros H. unfold current_image_ocr_results. now apply getitem_nat. Qed.

Lemma store_current_nat w i results rs :
  nth_error (ocr_results w) i = Some results ->
  store_current (Z.of_nat i) rs w
    = Ok (set_results (PyList.replace_nth i rs (ocr_results w)) w).
Proof.
  intros H. unfold store_current.
  rewrite setitem_nat by (apply nth_error_Some; congruence). reflexivity.
Qed.

Lemma nth_error_lt {A} (l : list A) j x :
  nth_error l j = Some x -> (j < length l)%nat.
Proof. intros H. apply nth_error_Some. congruence. Qed.

Lemma rewritten_row w i results rs :
  nth_error (ocr_results w) i = Some results ->
  nth_error (ocr_results (rewritten w i rs)) i = Some rs.
Proof.
  intros H. unfold rewritten; simpl.
  apply nth_error_replace_nth_same. eapply nth_error_lt; eauto.
Qed.

Lemma rewritten_other_rows w i rs i' :
  i' <> i ->
  nth_error (ocr_results (rewritten w i rs)) i' = nth_error (ocr_results w) i'.
Proof.
  intros H. unfold rewritten; simpl.
  apply nth_error_replace_nth_other. congruence.
Qed.

Lemma delete_bubble_at w i j results r :
  nth_error (ocr_results w) i = Some results ->
  nth_error results j = Some r ->
  delete_bubble (Z.of_nat i) (Z.of_nat j) w
  = Returned
      (rewritten w i
         (match status r with
          | New => PyList.remove_nth j results
          | Removed => PyList.replace_nth j (with_status Normal r) results
          | EditedRemoved => PyList.replace_nth j (with_status Edited r) results
          | Edited => PyList.replace_nth j (with_status EditedRemoved r) results
          | Normal => PyList.replace_nth j (with_status Removed r) results
          end)).
Proof.
  intros Hi Hj.
  assert (Hlen := nth_error_lt _ _ _ Hj).
  unfold delete_bubble, suppress_cell_update_handling, delete_bubble_body.
  rewrite not_minus_one.
  rewrite (current_image_nat (set_awaiting false w) i results Hi).
  cbn [try_with]. rewrite (getitem_nat _ _ _ Hj). cbn [try_with].
  destruct (status r); cbn [try_with];
    rewrite ?(pop_nat _ _ _ Hj), ?setitem_nat by exact Hlen;
    cbn [try_with result_bind snd];
    rewrite (store_current_nat (set_awaiting false w) i results _ Hi);
    reflexivity.
Qed.

(** The delete toggle at a record given by its place in the window. *)
Lemma delete_bubble_in_place w before pre r post after :
  ocr_results w = before ++ (pre ++ r :: post) :: after ->
  delete_bubble (Z.of_nat (length before)) (Z.of_nat (length pre)) w
  = Returned
      (mkWindow (ocr_analytics w)
         (before
            ++ match status r with
               | New => pre ++ post
               | Removed =>
                   pre ++ mkOCRResult (path r) (text r) (box r) (label r) Normal :: post
               | EditedRemoved =>
                   pre ++ mkOCRResult (path r) (text r) (box r) (label r) Edited :: post
               | Edited =>
                   pre ++ mkOCRResult (path r) (text r) (box r) (label r) EditedRemoved
                       :: post
               | Normal =>
                   pre ++ mkOCRResult (path r) (text r) (box r) (label r) Removed :: post
               end
            :: after)
         true (logged w)).
Proof.
  intros H.
  rewrite (delete_bubble_at w (length before) (length pre) (pre ++ r :: post) r).
  - unfold rewritten, set_awaiting, set_results, with_status. simpl.
    rewrite H, replace_nth_middle.
    destruct (status r); rewrite ?remove_nth_middle, ?replace_nth_middle; reflexivity.
  - rewrite H. apply nth_error_middle.
  - apply nth_error_middle.
Qed.

(** C2: the delete toggle on the selected record [r], which stands after
    [pre] and before [post] in the set of the current image, returns, and
    the window it leaves has the same analytics, the same sets for the
    other images, and for the current image: [pre ++ post] when [r] is
    [New] (the record is gone from the set), and otherwise [r] in its place
    with only the status changed, [Removed] to [Normal], [EditedRemoved] to
    [Edited], [Edited] to [EditedRemoved], [Normal] to [Removed]; toggling
    an [Edited] record twice gives the set back as it was. *)
Theorem delete_bubble_transition_table w before pre r post after :
  ocr_results w = before ++ (pre ++ r :: post) :: after ->
  (status r = New ->
   delete_bubble (Z.of_nat (length before)) (Z.of_nat (length pre)) w
   = Returned
       (mkWindow (ocr_analytics w) (before ++ (pre ++ post) :: after) true (logged w))) /\
  (status r = Removed ->
   delete_bubble (Z.of_nat (length before)) (Z.of_nat (length pre)) w
   = Returned
       (mkWindow (ocr_analytics w)
          (before
             ++ (pre ++ mkOCRResult (path r) (text r) (box r) (label r) Normal :: post)
             :: after)
          true (logged w))) /\
  (status r = EditedRemoved ->
   delete_bubble (Z.of_nat (length before)) (Z.of_nat (length pre)) w
   = Returned
       (mkWindow (ocr_analytics w)
          (before
             ++ (pre ++ mkOCRResult (path r) (text r) (box r) (label r) Edited :: post)
             :: after)
          true (logged w))) /\
  (status r = Edited ->
   delete_bubble (Z.of_nat (length before)) (Z.of_nat (length pre)) w
   = Returned
       (mkWindow (ocr_analytics w)
          (before
             ++ (pre ++ mkOCRResult (path r) (text r) (box r) (label r) EditedRemoved
                     :: post)
             :: after)
          true (logged w))) /\
  (status r = Normal ->
   delete_bubble (Z.of_nat (length before)) (Z.of_nat (length pre)) w
   = Returned
       (mkWindow (ocr_analytics w)
          (before
             ++ (pre ++ mkOCRResult (path r) (text r) (box r) (label r) Removed :: post)
             :: after)
          true (logged w))) /\
  (status r = Edited ->
   exists w',
     delete_bubble (Z.of_nat (length before)) (Z.of_nat (length pre)) w = Returned w' /\
     delete_bubble (Z.of_nat (length before)) (Z.of_nat (length pre)) w'
     = Returned
         (mkWindow (ocr_analytics w) (before ++ (pre ++ r :: post) :: after)
            true (logged w))).
Proof.
  intros H.
  pose proof (delete_bubble_in_place w before pre r post after H) as Hrun.
  split; [intros Hst; rewrite Hst in Hrun; exact Hrun|].
  split; [intros Hst; rewrite Hst in Hrun; exact Hrun|].
  split; [intros Hst; rewrite Hst in Hrun; exact Hrun|].
  split; [intros Hst; rewrite Hst in Hrun; exact Hrun|].
  split; [intros Hst; rewrite Hst in Hrun; exact Hrun|].
  intros Hst. rewrite Hst in Hrun.
  set (w1 := mkWindow (ocr_analytics w)
               (before
                  ++ (pre ++ mkOCRResult (path r) (text r) (box r) (label r)
                               EditedRemoved :: post)
                  :: after)
               true (logged w)) in *.
  exists w1. split; [exact Hrun|].
  rewrite (delete_bubble_in_place w1 before pre
             (mkOCRResult (path r) (text r) (box r) (label r) EditedRemoved)
             post after eq_refl).
  simpl. destruct r as [p t b l s]; simpl in *; subst s; reflexivity.
Qed.

Lemma delete_bubble_transition_table_witness :
  delete_bubble 0 1
    (mkWindow []
       [[mkOCRResult "p.png" "hello" (mkBox 0 0 10 10) "1" Normal;
         mkOCRResult "p.png" "" (mkBox 20 20 50 50) "New 1" New;
         mkOCRResult "p.png" "bye" (mkBox 60 0 90 10) "2" Edited]]
       true [])
  = Returned
      (mkWindow []
         [[mkOCRResult "p.png" "hello" (mkBox 0 0 10 10) "1" Normal;
           mkOCRResult "p.png" "bye" (mkBox 60 0 90 10) "2" Edited]]
         true []) /\
  delete_bubble 0 1
    (mkWindow []
       [[mkOCRResult "p.png" "hello" (mkBox 0 0 10 10) "1" Normal;
         mkOCRResult "p.png" "bye" (mkBox 60 0 90 10) "2" Edited]]
       true [])
  = Returned
      (mkWindow []
         [[mkOCRResult "p.png" "hello" (mkBox 0 0 10 10) "1" Normal;
           mkOCRResult "p.png" "bye" (mkBox 60 0 90 10) "2" EditedRemoved]]
         true []).
Proof.
  split.
  - exact (proj1
             (delete_bubble_transition_table
                (mkWindow []
                   [[mkOCRResult "p.png" "hello" (mkBox 0 0 10 10) "1" Normal;
                     mkOCRResult "p.png" "" (mkBox 20 20 50 50) "New 1" New;
                     mkOCRResult "p.png" "bye" (mkBox 60 0 90 10) "2" Edited]]
                   true [])
                [] [mkOCRResult "p.png" "hello" (mkBox 0 0 10 10) "1" Normal]
                (mkOCRResult "p.png" "" (mkBox 20 20 50 50) "New 1" New)
                [mkOCRResult "p.png" "bye" (mkBox 60 0 90 10) "2" Edited] []
                eq_refl)
             eq_refl).
  - exact (proj1 (proj2 (proj2 (proj2
             (delete_bubble_transition_table
                (mkWindow []
                   [[mkOCRResult "p.png" "hello" (mkBox 0 0 10 10) "1" Normal;
                     mkOCRResult "p.png" "bye" (mkBox 60 0 90 10) "2" Edited]]
                   true [])
                [] [mkOCRResult "p.png" "hello" (mkBox 0 0 10 10) "1" Normal]
                (mkOCRResult "p.png" "bye" (mkBox 60 0 90 10) "2" Edited)
                [] []
                eq_refl))))
             eq_refl).
Defined.

(** ** Text edits *)

Section IndexFacts.
Context {A : Type}.

Lemma norm_index_lt (l : list A) (i : Z) (j : nat) :
  PyList.norm_index l i = Some j -> (j < length l)%nat.
Proof.
  unfold PyList.norm_index.
  set (z := if i <? 0 then i + Z.of_nat (length l) else i).
  destruct (Z.leb_spec 0 z) as [Hlo|Hlo];
    destruct (Z.ltb_spec z (Z.of_nat (length l))) as [Hhi|Hhi];
    simpl; intros E; inversion E; lia.
Qed.

Lemma getitem_Ok (l : list A) (i : Z) (x : A) :
  PyList.getitem l i = Ok x ->
  exists j, PyList.norm_index l i = Some j /\ nth_error l j = Some x.
Proof.
  unfold PyList.getitem. destruct (PyList.norm_index l i) as [j|]; [|discriminate].
  destruct (nth_error l j) eqn:E; [|discriminate].
  intros H; inversion H; subst. eauto.
Qed.

Lemma map_replace_nth {B} (f : A -> B) (l : list A) j x y :
  nth_error l j = Some x -> f y = f x ->
  map f (PyList.replace_nth j y l) = map f l.
Proof.
  revert j; induction l as [|h t IH]; intros [|j] H Hf; simpl in *;
    try congruence.
  f_equal. now apply IH.
Qed.
End IndexFacts.

(** Whatever the arguments and whatever the outcome, a text edit leaves the
    label of every record of every image as it was. *)
Lemma handle_table_edited_labels image_row new_text row col w :
  map (map label) (ocr_results (window_of (handle_table_edited image_row new_text row col w)))
  = map (map label) (ocr_results w).
Proof.
  unfold handle_table_edited.
  destruct (awaiting_user_input w); simpl; [|reflexivity].
  destruct (col =? 1); simpl; [|reflexivity].
  unfold current_image_ocr_results.
  destruct (PyList.getitem (ocr_results w) image_row) as [results|e] eqn:Hrow;
    simpl; [|reflexivity].
  destruct (PyList.getitem results row) as [r|e] eqn:Hrec; simpl; [|reflexivity].
  apply getitem_Ok in Hrow. destruct Hrow as (i & Hi & Hrow).
  apply getitem_Ok in Hrec. destruct Hrec as (j & Hj & Hrec).
  unfold PyList.setitem. rewrite Hj. simpl.
  unfold store_current, PyList.setitem. rewrite Hi. simpl.
  apply map_replace_nth with (x := results); [exact Hrow|].
  apply map_replace_nth with (x := r); [exact Hrec|].
  destruct r as [p t b l s]; destruct s; reflexivity.
Qed.

(** A text edit at a record given by its place in the window. *)
Lemma handle_table_edited_in_place w before pre r post after new_text :
  awaiting_user_input w = true ->
  ocr_results w = before ++ (pre ++ r :: post) :: after ->
  handle_table_edited (Z.of_nat (length before)) new_text (Z.of_nat (length pre)) 1 w
  = Returned
      (mkWindow (ocr_analytics w)
         (before
            ++ (pre
                  ++ mkOCRResult (path r) new_text (box r) (label r)
                       match status r with
                       | Normal => Edited
                       | Removed => EditedRemoved
                       | other => other
                       end
                  :: post)
            :: after)
         true (logged w)).
Proof.
  intros Haw H.
  assert (Hi : nth_error (ocr_results w) (length before) = Some (pre ++ r :: post))
    by (rewrite H; apply nth_error_middle).
  assert (Hj : nth_error (pre ++ r :: post) (length pre) = Some r)
    by apply nth_error_middle.
  assert (Hlen := nth_error_lt _ _ _ Hj).
  unfold handle_table_edited. rewrite Haw. cbn [negb Z.eqb Pos.eqb].
  rewrite (current_image_nat w _ _ Hi). cbn [try_with].
  rewrite (getitem_nat _ _ _ Hj). cbn [try_with].
  rewrite setitem_nat by exact Hlen. cbn [try_with].
  rewrite (store_current_nat w _ _ _ Hi). cbn [try_with].
  unfold load_ocr_results, suppress_cell_update_handling, set_awaiting, set_results.
  simpl. rewrite H, !replace_nth_middle.
  destruct r as [p t b l s]; destruct s; reflexivity.
Qed.

(** C5: a text edit of the selected record [r] (flag raised, text column),
    which stands after [pre] and before [post] in the set of the current
    image, returns, and the window it leaves has the same analytics, the
    same sets for the other images, and in the place of [r] a record with
    the new text, the path, box and label of [r], and the status moved:
    [Normal] to [Edited], [Removed] to [EditedRemoved], any other status
    kept.  Whatever the arguments of the slot and whether it returns or
    raises, no label of any record of any image changes. *)
Theorem handle_table_edited_transition w before pre r post after new_text :
  awaiting_user_input w = true ->
  ocr_results w = before ++ (pre ++ r :: post) :: after ->
  (exists s',
     handle_table_edited (Z.of_nat (length before)) new_text
       (Z.of_nat (length pre)) 1 w
     = Returned
         (mkWindow (ocr_analytics w)
            (before
               ++ (pre ++ mkOCRResult (path r) new_text (box r) (label r) s' :: post)
               :: after)
            true (logged w)) /\
     (status r = Normal -> s' = Edited) /\
     (status r = Removed -> s' = EditedRemoved) /\
     (status r = Edited \/ status r = EditedRemoved \/ status r = New ->
      s' = status r)) /\
  (forall image_row some_text row col w0 w1,
     handle_table_edited image_row some_text row col w0 = Returned w1 \/
     (exists e, handle_table_edited image_row some_text row col w0 = Raised e w1) ->
     map (map label) (ocr_results w1) = map (map label) (ocr_results w0)).
Proof.
  intros Haw H. split.
  - eexists. split; [apply (handle_table_edited_in_place _ _ _ _ _ _ _ Haw H)|].
    split; [intros ->; reflexivity|].
    split; [intros ->; reflexivity|].
    intros [-> | [-> | ->]]; reflexivity.
  - intros image_row some_text row col w0 w1 Hout.
    pose proof (handle_table_edited_labels image_row some_text row col w0) as Hl.
    destruct Hout as [Hout | [e Hout]]; rewrite Hout in Hl; exact Hl.
Qed.

Lemma handle_table_edited_transition_witness :
  handle_table_edited 0 "bye" 1 1
    (mkWindow []
       [[mkOCRResult "p.png" "hello" (mkBox 0 0 10 10) "1" Normal;
         mkOCRResult "p.png" "hullo" (mkBox 60 0 90 10) "2" Removed]]
       true [])
  = Returned
      (mkWindow []
         [[mkOCRResult "p.png" "hello" (mkBox 0 0 10 10) "1" Normal;
           mkOCRResult "p.png" "bye" (mkBox 60 0 90 10) "2" EditedRemoved]]
         true []).
Proof.
  destruct (handle_table_edited_transition
              (mkWindow []
                 [[mkOCRResult "p.png" "hello" (mkBox 0 0 10 10) "1" Normal;
                   mkOCRResult "p.png" "hullo" (mkBox 60 0 90 10) "2" Removed]]
                 true [])
              [] [mkOCRResult "p.png" "hello" (mkBox 0 0 10 10) "1" Normal]
              (mkOCRResult "p.png" "hullo" (mkBox 60 0 90 10) "2" Removed)
              [] [] "bye" eq_refl eq_refl)
    as ((s' & Hrun & _ & Hrem & _) & _).
  rewrite (Hrem eq_refl) in Hrun. exact Hrun.
Defined.

(** ** Per-record reset and new bubbles *)

Lemma py_str_inj (a b : Z) : py_str a = py_str b -> a = b.
Proof.
  unfold py_str. intros H.
  assert (Hnn : forall z, Z.to_int z <> Decimal.Pos Decimal.Nil /\
                          Z.to_int z <> Decimal.Neg Decimal.Nil).
  { intros [|p|p]; simpl; split; try discriminate;
      intros E; inversion E as [E'];
      exact (DecimalPos.Unsigned.to_uint_nonnil p E'). }
  apply DecimalZ.to_int_inj.
  assert (Ha := NilZero.isi (Z.to_int a) (proj1 (Hnn a)) (proj2 (Hnn a))).
  assert (Hb := NilZero.isi (Z.to_int b) (proj1 (Hnn b)) (proj2 (Hnn b))).
  rewrite H in Ha. congruence.
Qed.

Lemma bubbles_label_at (start : Z) (data : list (string * string * Box)) k o :
  nth_error
    (map (fun '(index, (path, text, box)) =>
            mkOCRResult path text box (py_str index) Normal)
         (PyList.enumerate start data)) k = Some o ->
  label o = py_str (start + Z.of_nat k).
Proof.
  revert start k; induction data as [|[[p t] b] data IH]; intros start [|k] H;
    simpl in H; try discriminate.
  - inversion H; subst; simpl. f_equal. lia.
  - rewrite (IH _ _ H). f_equal. lia.
Qed.

(** The labels of an expanded snapshot are pairwise distinct, so the search
    by label stops at the one entry that carries it. *)
Lemma first_row_with_label_bubbles (base start : Z)
    (data : list (string * string * Box)) k o :
  nth_error
    (map (fun '(index, (path, text, box)) =>
            mkOCRResult path text box (py_str index) Normal)
         (PyList.enumerate start data)) k = Some o ->
  first_row_with_label base (label o)
    (map (fun '(index, (path, text, box)) =>
            mkOCRResult path text box (py_str index) Normal)
         (PyList.enumerate start data))
  = Ok (base + Z.of_nat k).
Proof.
  revert base start k; induction data as [|[[p t] b] data IH];
    intros base start [|k] H; simpl in H; try discriminate.
  - inversion H; subst; simpl. rewrite String.eqb_refl. f_equal. lia.
  - simpl. rewrite (bubbles_label_at _ _ _ _ H).
    destruct (String.eqb_spec (py_str start) (py_str (start + 1 + Z.of_nat k)))
      as [E|_].
    + apply py_str_inj in E. lia.
    + rewrite <- (bubbles_label_at _ _ _ _ H). rewrite (IH _ _ _ H). f_equal. lia.
Qed.

(** C8: reset of a selected record that is neither [Edited] nor
    [EditedRemoved] returns, logs, and leaves every annotation set and the
    frozen analytics as they were; reset of an [Edited] or [EditedRemoved]
    record puts, at the record's position, the entry of the expanded frozen
    snapshot that carries the record's label. *)
Theorem reset_single_bubble_policy w (i j : nat) results r :
  nth_error (ocr_results w) i = Some results ->
  nth_error results j = Some r ->
  (status r <> Edited -> status r <> EditedRemoved ->
   exists w',
     reset_single_bubble (Z.of_nat i) (Z.of_nat j) w = Returned w' /\
     ocr_results w' = ocr_results w /\
     ocr_analytics w' = ocr_analytics w /\
     logged w' = logged w ++ ["Tried to reset a non-edited bubble."%string]) /\
  (forall original_analytic k original,
     status r = Edited \/ status r = EditedRemoved ->
     nth_error (ocr_analytics w) i = Some original_analytic ->
     nth_error (bubbles_of_analytic original_analytic) k = Some original ->
     label original = label r ->
     exists w',
       reset_single_bubble (Z.of_nat i) (Z.of_nat j) w = Returned w' /\
       nth_error (ocr_results w') i = Some (PyList.replace_nth j original results) /\
       (forall i', i' <> i ->
          nth_error (ocr_results w') i' = nth_error (ocr_results w) i') /\
       ocr_analytics w' = ocr_analytics w /\
       logged w' = logged w).
Proof.
  intros Hi Hj.
  assert (Hlen := nth_error_lt _ _ _ Hj).
  split.
  - intros Hne1 Hne2. eexists. split.
    + unfold reset_single_bubble, suppress_cell_update_handling,
        reset_single_bubble_body.
      rewrite not_minus_one.
      rewrite (current_image_nat (set_awaiting false w) i results Hi).
      cbn [try_with]. rewrite (getitem_nat _ _ _ Hj). cbn [try_with].
      replace (is_edited (status r)) with false
        by (destruct (status r); simpl; congruence).
      cbn [negb]. reflexivity.
    + simpl. auto.
  - intros a k o Hst Ha Hk Hlab.
    exists (rewritten w i (PyList.replace_nth j o results)).
    split.
    + unfold reset_single_bubble, suppress_cell_update_handling,
        reset_single_bubble_body.
      rewrite not_minus_one.
      rewrite (current_image_nat (set_awaiting false w) i results Hi).
      cbn [try_with]. rewrite (getitem_nat _ _ _ Hj). cbn [try_with].
      replace (is_edited (status r)) with true
        by (destruct Hst as [-> | ->]; reflexivity).
      cbn [negb].
      rewrite (getitem_nat (ocr_analytics (set_awaiting false w)) i a Ha).
      cbn [try_with].
      change (PyList.getitem (convert_ocr_analytics_to_results [a]) 0)
        with (Ok (bubbles_of_analytic a)).
      cbn [try_with].
      rewrite (getitem_nat (ocr_results (set_awaiting false w)) i results Hi).
      cbn [try_with]. rewrite (getitem_nat _ _ _ Hj). cbn [try_with].
      rewrite <- Hlab.
      unfold bubbles_of_analytic in *.
      rewrite (first_row_with_label_bubbles 0 1 _ k o Hk).
      cbn [try_with]. rewrite Z.add_0_l.
      rewrite (getitem_nat _ _ _ Hk). cbn [try_with].
      rewrite setitem_nat by exact Hlen. cbn [try_with].
      rewrite (store_current_nat (set_awaiting false w) i results _ Hi).
      reflexivity.
    + split; [eapply rewritten_row; eassumption|].
      split; [intros i' Hne; now apply rewritten_other_rows|].
      split; reflexivity.
Qed.

Lemma reset_single_bubble_policy_witness :
  exists w',
    reset_single_bubble 0 0
      (mkWindow
         [mkOCRAnalytic 1 [] [] [("p.png"%string, "hello"%string, mkBox 0 0 10 10)]]
         [[mkOCRResult "p.png" "hullo" (mkBox 0 0 10 10) "1" Edited]] true [])
    = Returned w' /\
    nth_error (ocr_results w') 0
    = Some [mkOCRResult "p.png" "hello" (mkBox 0 0 10 10) "1" Normal].
Proof.
  destruct (reset_single_bubble_policy
              (mkWindow
                 [mkOCRAnalytic 1 [] [] [("p.png"%string, "hello"%string, mkBox 0 0 10 10)]]
                 [[mkOCRResult "p.png" "hullo" (mkBox 0 0 10 10) "1" Edited]] true [])
              0 0 [mkOCRResult "p.png" "hullo" (mkBox 0 0 10 10) "1" Edited]
              (mkOCRResult "p.png" "hullo" (mkBox 0 0 10 10) "1" Edited)
              eq_refl eq_refl) as [_ Hreset].
  destruct (Hreset (mkOCRAnalytic 1 [] [] [("p.png"%string, "hello"%string, mkBox 0 0 10 10)])
              0%nat (mkOCRResult "p.png" "hello" (mkBox 0 0 10 10) "1" Normal)
              (or_introl eq_refl) eq_refl eq_refl eq_refl)
    as (w' & Hrun & Hrow & _).
  exists w'. split; [exact Hrun | exact Hrow].
Defined.

(** C9: with a drawn rectangle of area at least 400, [add_new_bubble] on an
    image whose annotation set is empty lets an [IndexError] escape and
    appends nothing; on a non-empty set it appends a [New] record with empty
    text whose path is that of the first record of the set. *)
Theorem add_new_bubble_needs_a_record tr w (i : nat) (xa ya xb yb : Z) :
  MIN_BUBBLE_SIZE <= area (mkBox xa ya xb yb) ->
  (nth_error (ocr_results w) i = Some [] ->
   exists w',
     add_new_bubble tr (Z.of_nat i) ((xa, ya), (xb, yb)) w = Raised IndexError w' /\
     ocr_results w' = ocr_results w) /\
  (forall first rest,
     nth_error (ocr_results w) i = Some (first :: rest) ->
     exists w' new_label,
       add_new_bubble tr (Z.of_nat i) ((xa, ya), (xb, yb)) w = Returned w' /\
       nth_error (ocr_results w') i
       = Some ((first :: rest)
                 ++ [mkOCRResult (path first) "" (mkBox xa ya xb yb) new_label New])).
Proof.
  intros Harea.
  assert (Hbig : (area (mkBox xa ya xb yb) <? MIN_BUBBLE_SIZE) = false)
    by (apply Z.ltb_ge; exact Harea).
  split.
  - intros Hi. eexists. split.
    + unfold add_new_bubble, suppress_cell_update_handling, add_new_bubble_body.
      rewrite Hbig.
      rewrite (current_image_nat (set_awaiting false w) i [] Hi).
      cbn [try_with]. rewrite getitem_empty. cbn [try_with]. reflexivity.
    + reflexivity.
  - intros first rest Hi. eexists. eexists. split.
    + unfold add_new_bubble, suppress_cell_update_handling, add_new_bubble_body.
      rewrite Hbig.
      rewrite (current_image_nat (set_awaiting false w) i _ Hi).
      cbn [try_with].
      change (PyList.getitem (first :: rest) 0) with (Ok first).
      cbn [try_with].
      rewrite (store_current_nat (set_awaiting false w) i _ _ Hi).
      cbn [try_with]. reflexivity.
    + cbn [window_of]. unfold load_ocr_results, suppress_cell_update_handling.
      simpl. apply nth_error_replace_nth_same. eapply nth_error_lt; eauto.
Qed.

Lemma add_new_bubble_needs_a_record_witness :
  exists w',
    add_new_bubble (fun s => s) 0 ((0, 0), (20, 20)) (mkWindow [] [[]] true [])
    = Raised IndexError w' /\
    ocr_results w' = [[]].
Proof.
  destruct (add_new_bubble_needs_a_record (fun s => s) (mkWindow [] [[]] true [])
              0 0 0 20 20) as [Hempty _].
  - unfold MIN_BUBBLE_SIZE, area; simpl; lia.
  - destruct (Hempty eq_refl) as (w' & Hrun & Hsame).
    exists w'. split; [exact Hrun | exact Hsame].
Defined.

(** ** The inner merge loop *)

Section MergeLoop.
Variable remove : Box -> list Box -> result (list Box).
Hypothesis remove_first : forall pre x post,
  (forall y, In y pre -> y <> x) ->
  remove x (pre ++ x :: post) = Ok (pre ++ post).

Variable p : Box -> bool.

Lemma merge_overlapping_partition_gen (post pre : list Box) (box : Box) :
  (forall y, In y pre -> p y = false) ->
  merge_overlapping remove (filter p post) box (pre ++ post)
  = Ok (fold_left merge (filter p post) box,
        pre ++ filter (fun o => negb (p o)) post).
Proof.
  revert pre box; induction post as [|x post IH]; intros pre box Hpre; simpl.
  - reflexivity.
  - destruct (p x) eqn:Hx; simpl.
    + rewrite remove_first.
      * simpl. apply IH. exact Hpre.
      * intros y Hy E. subst y. rewrite (Hpre _ Hy) in Hx. discriminate.
    + replace (pre ++ x :: post) with ((pre ++ [x]) ++ post)
        by (rewrite <- app_assoc; reflexivity).
      rewrite IH.
      * rewrite <- app_assoc. reflexivity.
      * intros y Hy. apply in_app_or in Hy. destruct Hy as [Hy|[<-|[]]]; auto.
Qed.

(** The loop merges every queued box that passes the test, in queue
    order, and leaves exactly the boxes that fail it, in queue order. *)
Lemma merge_overlapping_partition (queue : list Box) (box : Box) :
  merge_overlapping remove (filter p queue) box queue
  = Ok (fold_left merge (filter p queue) box,
        filter (fun o => negb (p o)) queue).
Proof.
  apply (merge_overlapping_partition_gen queue [] box). intros y [].
Qed.
End MergeLoop.

Lemma list_remove_first pre x post :
  (forall y, In y pre -> y <> x) ->
  list_remove x (pre ++ x :: post) = Ok (pre ++ post).
Proof.
  induction pre as [|h pre IH]; intros Hpre; simpl.
  - destruct (Box_eq_dec x x); congruence.
  - destruct (Box_eq_dec h x) as [E|_].
    + exfalso. apply (Hpre h); simpl; auto.
    + rewrite IH by (intros y Hy; apply Hpre; simpl; auto). reflexivity.
Qed.

Lemma set_remove_first pre x post :
  (forall y, In y pre -> y <> x) ->
  set_remove x (pre ++ x :: post) = Ok (pre ++ post).
Proof.
  induction pre as [|h pre IH]; intros Hpre; simpl.
  - destruct (Box_eq_dec x x); congruence.
  - destruct (Box_eq_dec h x) as [E|_].
    + exfalso. apply (Hpre h); simpl; auto.
    + rewrite IH by (intros y Hy; apply Hpre; simpl; auto). reflexivity.
Qed.

Lemma filter_length_le {A} (f : A -> bool) (l : list A) :
  (length (filter f l) <= length l)%nat.
Proof. induction l as [|x l IH]; simpl; [lia|]. destruct (f x); simpl; lia. Qed.

(** ** resolve_total_overlaps *)

Lemma total_overlaps_loop_fifo (fuel : nat) (queue acc : list Box) :
  (length queue <= fuel)%nat ->
  total_overlaps_loop fuel queue acc = Some (Ok (acc ++ fifo_cluster fuel queue)).
Proof.
  revert queue acc; induction fuel as [|fuel IH]; intros [|b rest] acc Hlen;
    simpl in *; try lia; try (now rewrite app_nil_r).
  rewrite (merge_overlapping_partition list_remove list_remove_first).
  rewrite IH.
  - rewrite <- app_assoc. reflexivity.
  - pose proof (filter_length_le (fun o => negb (overlaps_center b o)) rest). lia.
Qed.

Lemma fifo_cluster_fuel (n m : nat) (queue : list Box) :
  (length queue <= n)%nat -> (length queue <= m)%nat ->
  fifo_cluster n queue = fifo_cluster m queue.
Proof.
  revert m queue; induction n as [|n IH]; intros [|m] [|b rest] Hn Hm;
    simpl in *; try lia; try reflexivity.
  f_equal. apply IH;
    pose proof (filter_length_le (fun o => negb (overlaps_center b o)) rest); lia.
Qed.

(** The source's merge and test are the specification's bounding-box union
    and center test, so the loop computes the specification's queue. *)
Lemma fifo_cluster_is_fifo_queue (fuel : nat) (queue : list Box) :
  fifo_cluster fuel queue = fifo_queue fuel queue.
Proof.
  revert queue; induction fuel as [|fuel IH]; intros [|b rest]; reflexivity.
Qed.

Lemma fifo_queue_fuel (n m : nat) (queue : list Box) :
  (length queue <= n)%nat -> (length queue <= m)%nat ->
  fifo_queue n queue = fifo_queue m queue.
Proof.
  intros Hn Hm. rewrite <- !fifo_cluster_is_fifo_queue.
  now apply fifo_cluster_fuel.
Qed.

Lemma resolve_total_overlaps_stores (self : PageData) :
  resolve_total_overlaps self
  = Some (Ok (mkPageData (image_path self) (mask_path self) (original_path self)
                (scale self) (fifo_resolution (boxes self)) (extended_boxes self)
                (merged_extended_boxes self) (reference_boxes self)
                (_image_size self))).
Proof.
  unfold resolve_total_overlaps, resolve_total_overlaps_boxes, fifo_resolution.
  rewrite total_overlaps_loop_fifo by lia.
  rewrite fifo_cluster_is_fifo_queue. reflexivity.
Qed.

(** C4: [resolve_total_overlaps] returns, and the page it leaves is the page
    it was given with [boxes] replaced by the result of the FIFO algorithm
    of the specification on the old [boxes]: nothing for an empty queue,
    and otherwise the front box united, in queue order, with every queued
    box whose center lies in it or in which its center lies, followed by the
    result for the boxes that fail that test.  [Box(0,0,10,10)] and
    [Box(2,2,8,8)] give the single box [Box(0,0,10,10)]; [Box(0,0,10,10)]
    and [Box(5,5,20,20)] give the single box [Box(0,0,20,20)]; and two boxes
    that fail the test pass through unchanged. *)
Theorem resolve_total_overlaps_fifo :
  (forall self,
     resolve_total_overlaps self
     = Some (Ok (mkPageData (image_path self) (mask_path self) (original_path self)
                   (scale self) (fifo_resolution (boxes self)) (extended_boxes self)
                   (merged_extended_boxes self) (reference_boxes self)
                   (_image_size self)))) /\
  fifo_resolution [] = [] /\
  (forall b rest,
     fifo_resolution (b :: rest)
     = fold_left bounding_union (filter (total_overlap b) rest) b
         :: fifo_resolution (filter (fun o => negb (total_overlap b o)) rest)) /\
  (forall self,
     boxes self = [mkBox 0 0 10 10; mkBox 2 2 8 8] ->
     exists page,
       resolve_total_overlaps self = Some (Ok page) /\
       boxes page = [mkBox 0 0 10 10]) /\
  (forall self,
     boxes self = [mkBox 0 0 10 10; mkBox 5 5 20 20] ->
     exists page,
       resolve_total_overlaps self = Some (Ok page) /\
       boxes page = [mkBox 0 0 20 20]) /\
  (forall self a b,
     boxes self = [a; b] ->
     total_overlap a b = false ->
     exists page,
       resolve_total_overlaps self = Some (Ok page) /\
       boxes page = [a; b]).
Proof.
  split; [exact resolve_total_overlaps_stores|].
  split; [reflexivity|].
  split.
  { intros b rest. unfold fifo_resolution. simpl. f_equal.
    apply fifo_queue_fuel; [|lia].
    apply filter_length_le. }
  split.
  { intros self Hb. eexists. split; [apply resolve_total_overlaps_stores|].
    simpl. rewrite Hb. reflexivity. }
  split.
  { intros self Hb. eexists. split; [apply resolve_total_overlaps_stores|].
    simpl. rewrite Hb. reflexivity. }
  intros self a b Hb Hab. eexists. split; [apply resolve_total_overlaps_stores|].
  simpl. rewrite Hb. unfold fifo_resolution. simpl. rewrite Hab. reflexivity.
Qed.

Lemma resolve_total_overlaps_fifo_witness :
  resolve_total_overlaps
    (mkPageData "a.png" "m.png" "o.png" 1%Q
       [mkBox 0 0 10 10; mkBox 5 5 20 20; mkBox 12 12 20 20; mkBox 100 100 110 110]
       [mkBox 1 1 2 2] [] [] None)
  = Some (Ok (mkPageData "a.png" "m.png" "o.png" 1%Q
                [mkBox 0 0 20 20; mkBox 12 12 20 20; mkBox 100 100 110 110]
                [mkBox 1 1 2 2] [] [] None)).
Proof.
  exact (proj1 resolve_total_overlaps_fifo
           (mkPageData "a.png" "m.png" "o.png" 1%Q
              [mkBox 0 0 10 10; mkBox 5 5 20 20; mkBox 12 12 20 20;
               mkBox 100 100 110 110]
              [mkBox 1 1 2 2] [] [] None)).
Defined.

(** ** resolve_overlaps *)

Lemma overlaps_iteration_partition (threshold : Q) (box : Box) (queue : list Box) :
  overlaps_iteration threshold box queue
  = Ok (fold_left merge (filter (fun b => overlaps box b threshold) queue) box,
        filter (fun b => negb (overlaps box b threshold)) queue).
Proof.
  unfold overlaps_iteration.
  apply (merge_overlapping_partition set_remove set_remove_first).
Qed.

Lemma overlaps_iteration_shrinks threshold box queue box' queue' :
  In box queue ->
  overlaps_iteration threshold box (remove Box_eq_dec box queue) = Ok (box', queue') ->
  (length queue' < length queue)%nat.
Proof.
  intros Hin H. rewrite overlaps_iteration_partition in H. inversion H; subst.
  pose proof (remove_length_lt Box_eq_dec queue box Hin).
  pose proof (filter_length_le (fun b => negb (overlaps box b threshold))
                (remove Box_eq_dec box queue)).
  lia.
Qed.

Lemma boxes_from_type_set self box_type new_boxes :
  boxes_from_type (set_boxes_of_type self box_type new_boxes) box_type = new_boxes.
Proof. destruct box_type; reflexivity. Qed.

(** The loop never raises. *)
Lemma overlaps_loop_returns threshold queue acc r :
  overlaps_loop threshold queue acc r -> exists out, r = Ok out.
Proof.
  induction 1 as [acc | queue box box' queue' acc out Hin Hit Hloop IH
                  | queue box e acc Hin Hit]; eauto.
  rewrite overlaps_iteration_partition in Hit. discriminate.
Qed.

(** Each pass emits one box and takes at least one out of the pool. *)
Lemma overlaps_loop_length threshold queue acc out :
  overlaps_loop threshold queue acc (Ok out) ->
  (length out <= length acc + length queue)%nat.
Proof.
  intros H. remember (Ok out) as r eqn:Hr. revert out Hr.
  induction H as [acc | queue box box' queue' acc r Hin Hit Hloop IH
                  | queue box e acc Hin Hit]; intros out Hr.
  - inversion Hr; subst. lia.
  - specialize (IH out Hr). rewrite length_app in IH. simpl in IH.
    pose proof (overlaps_iteration_shrinks _ _ _ _ _ Hin Hit). lia.
  - discriminate.
Qed.

(** The run where [set.pop()] hands out the first member is a run. *)
Lemma overlaps_loop_first_run fuel threshold queue acc r :
  overlaps_loop_first fuel threshold queue acc = Some r ->
  overlaps_loop threshold queue acc r.
Proof.
  revert queue acc; induction fuel as [|fuel IH]; intros [|box rest] acc H;
    simpl in H; try discriminate.
  - inversion H; subst. constructor.
  - inversion H; subst. constructor.
  - destruct (Box_eq_dec box box) as [_|Hne]; [|congruence].
    destruct (overlaps_iteration threshold box (remove Box_eq_dec box rest))
      as [[box' queue']|e] eqn:Hit.
    + apply overlaps_loop_iter with (box := box) (box' := box') (merge_queue' := queue').
      * simpl; auto.
      * simpl. destruct (Box_eq_dec box box); [exact Hit|congruence].
      * apply IH. exact H.
    + rewrite overlaps_iteration_partition in Hit. discriminate.
Qed.

Lemma overlaps_loop_first_total fuel threshold queue acc :
  (length queue <= fuel)%nat ->
  exists out, overlaps_loop_first fuel threshold queue acc = Some (Ok out).
Proof.
  revert queue acc; induction fuel as [|fuel IH]; intros [|box rest] acc Hlen;
    simpl in *; try lia; eauto.
  destruct (overlaps_iteration threshold box
              (if Box_eq_dec box box then remove Box_eq_dec box rest
               else box :: remove Box_eq_dec box rest))
    as [[box' queue']|e] eqn:Hit.
  - apply IH.
    assert (Hin : In box (box :: rest)) by (simpl; auto).
    pose proof (overlaps_iteration_shrinks threshold box (box :: rest) box' queue' Hin Hit).
    simpl in *. lia.
  - rewrite overlaps_iteration_partition in Hit. discriminate.
Qed.

Lemma is_set_of_nodup (l : list Box) : is_set_of (nodup Box_eq_dec l) l.
Proof.
  split; [apply NoDup_nodup|]. intros b. apply nodup_In.
Qed.

Lemma is_set_of_length s l :
  is_set_of s l -> length s = length (nodup Box_eq_dec l).
Proof.
  intros [Hnd Hmem]. apply Nat.le_antisymm.
  - apply NoDup_incl_length; [exact Hnd|].
    intros b Hb. apply nodup_In. now apply Hmem.
  - apply NoDup_incl_length; [apply NoDup_nodup|].
    intros b Hb. apply Hmem. now apply nodup_In in Hb.
Qed.

(** [resolve_overlaps] always has a run, and it returns. *)
Lemma resolve_overlaps_runs self from_type to_type threshold :
  exists self', resolve_overlaps self from_type to_type threshold (Ok self').
Proof.
  destruct (overlaps_loop_first_total
              (length (nodup Box_eq_dec (boxes_from_type self from_type)))
              threshold (nodup Box_eq_dec (boxes_from_type self from_type)) []
              (le_n _)) as (out & Hout).
  exists (set_boxes_of_type self to_type out).
  apply resolve_overlaps_ok with (merge_queue := nodup Box_eq_dec (boxes_from_type self from_type)).
  - apply is_set_of_nodup.
  - eapply overlaps_loop_first_run; eassumption.
Qed.

(** A box never overlaps itself by more than 100 percent. *)
Lemma overlaps_self_100 (b : Box) : overlaps b b (inject_Z 100) = false.
Proof.
  unfold overlaps. apply negb_false_iff. apply Qle_bool_iff.
  rewrite !Z.min_id, !Z.max_id.
  assert (H100 : (inject_Z 100 / inject_Z 100 == 1)%Q) by reflexivity.
  rewrite H100. unfold area, py_or.
  set (w := x2 b - x1 b). set (h := y2 b - y1 b).
  destruct (Z.eqb_spec (w * h) 0) as [E|E].
  - assert (Hi : Z.max 0 w * Z.max 0 h = 0) by nia.
    rewrite Hi. unfold Qle; simpl. lia.
  - destruct (Z.lt_trichotomy (w * h) 0) as [Hneg|[?|Hpos]]; [|lia|].
    + assert (Hi : Z.max 0 w * Z.max 0 h = 0) by nia.
      rewrite Hi. unfold Qdiv. rewrite Qmult_0_l. unfold Qle; simpl. lia.
    + apply Qle_shift_div_r.
      * unfold Qlt; simpl. lia.
      * rewrite Qmult_1_l. rewrite <- Zle_Qle. nia.
Qed.

Lemma overlaps_loop_singleton threshold (b : Box) acc r :
  overlaps_loop threshold [b] acc r -> r = Ok (acc ++ [b]).
Proof.
  intros H.
  inversion H as [ | queue box box' queue' acc' out Hin Hit Hloop
                   | queue box e acc' Hin Hit]; subst.
  - destruct Hin as [<-|[]].
    simpl in Hit. destruct (Box_eq_dec b b) as [_|Hne]; [|congruence].
    inversion Hit; subst.
    inversion Hloop as [ | ? ? ? ? ? ? Hin' | ? ? ? ? Hin']; subst;
      [reflexivity | destruct Hin' | destruct Hin'].
  - rewrite overlaps_iteration_partition in Hit. discriminate.
Qed.

Lemma is_set_of_pair_singleton s (b : Box) : is_set_of s [b; b] -> s = [b].
Proof.
  intros Hs. pose proof (is_set_of_length _ _ Hs) as Hlen.
  simpl in Hlen. destruct (Box_eq_dec b b) as [_|Hne]; [|congruence].
  simpl in Hlen.
  destruct s as [|x [|y s]]; simpl in Hlen; try discriminate.
  destruct Hs as [_ Hmem].
  assert (Hx : In x [b; b]) by (apply Hmem; simpl; auto).
  destruct Hx as [<-|[<-|[]]]; reflexivity.
Qed.

(** C10: the pool of [resolve_overlaps] is a set, so its result never has
    more boxes than the source collection has distinct ones; two copies of
    one box come out as one box whatever the threshold, although a box does
    not pass the test against itself at threshold 100; the queue of
    [resolve_total_overlaps] is a copy of the list, and two copies of a box
    that fail [overlaps_center] against each other both come out. *)
Theorem resolve_overlaps_pools_a_set :
  (forall self from_type to_type threshold self',
     resolve_overlaps self from_type to_type threshold (Ok self') ->
     (length (boxes_from_type self' to_type)
      <= length (nodup Box_eq_dec (boxes_from_type self from_type)))%nat) /\
  (forall b, overlaps b b (inject_Z 100) = false) /\
  (forall self from_type to_type threshold b r,
     boxes_from_type self from_type = [b; b] ->
     resolve_overlaps self from_type to_type threshold r ->
     r = Ok (set_boxes_of_type self to_type [b])) /\
  (forall self from_type to_type threshold,
     exists self', resolve_overlaps self from_type to_type threshold (Ok self')) /\
  resolve_total_overlaps_boxes [mkBox 10 10 0 0; mkBox 10 10 0 0]
  = Some (Ok [mkBox 10 10 0 0; mkBox 10 10 0 0]).
Proof.
  split; [|split; [|split; [|split]]].
  - intros self from_type to_type threshold self' H.
    inversion H as [queue out Hset Hloop Heq | ]; subst.
    rewrite boxes_from_type_set.
    rewrite <- (is_set_of_length _ _ Hset).
    apply (overlaps_loop_length _ _ _ _ Hloop).
  - apply overlaps_self_100.
  - intros self from_type to_type threshold b r Hsrc H.
    inversion H as [queue out Hset Hloop Heq | queue e Hset Hloop Heq]; subst;
      rewrite Hsrc in Hset; apply is_set_of_pair_singleton in Hset; subst queue;
      apply overlaps_loop_singleton in Hloop.
    + inversion Hloop; subst. reflexivity.
    + discriminate.
  - intros. apply resolve_overlaps_runs.
  - reflexivity.
Qed.

Lemma resolve_overlaps_pools_a_set_witness :
  resolve_overlaps
    (mkPageData "a.png" "m.png" "o.png" 1%Q [] [mkBox 0 0 4 4; mkBox 0 0 4 4] [] [] None)
    EXTENDED_BOX MERGED_EXT_BOX (inject_Z 100)
    (Ok (mkPageData "a.png" "m.png" "o.png" 1%Q [] [mkBox 0 0 4 4; mkBox 0 0 4 4]
           [mkBox 0 0 4 4] [] None)) /\
  (length [mkBox 0 0 4 4]
   <= length (nodup Box_eq_dec [mkBox 0 0 4 4; mkBox 0 0 4 4]))%nat.
Proof.
  assert (Hrun :
    resolve_overlaps
      (mkPageData "a.png" "m.png" "o.png" 1%Q [] [mkBox 0 0 4 4; mkBox 0 0 4 4] [] [] None)
      EXTENDED_BOX MERGED_EXT_BOX (inject_Z 100)
      (Ok (mkPageData "a.png" "m.png" "o.png" 1%Q [] [mkBox 0 0 4 4; mkBox 0 0 4 4]
             [mkBox 0 0 4 4] [] None))).
  { apply (resolve_overlaps_ok
             (mkPageData "a.png" "m.png" "o.png" 1%Q [] [mkBox 0 0 4 4; mkBox 0 0 4 4]
                [] [] None)
             EXTENDED_BOX MERGED_EXT_BOX (inject_Z 100) [mkBox 0 0 4 4] [mkBox 0 0 4 4]).
    - apply (is_set_of_nodup [mkBox 0 0 4 4; mkBox 0 0 4 4]).
    - apply (overlaps_loop_first_run 1). reflexivity. }
  split; [exact Hrun|].
  exact (proj1 resolve_overlaps_pools_a_set _ _ _ _ _ Hrun).
Defined.

(** ** Overlap among the boxes resolve_overlaps returns *)

Lemma overlaps_loop_outcomes_complete threshold queue acc r :
  overlaps_loop threshold queue acc r ->
  forall fuel, (length queue <= fuel)%nat ->
  In r (overlaps_loop_outcomes fuel threshold queue acc).
Proof.
  induction 1 as [acc | queue box box' queue' acc out Hin Hit Hloop IH
                  | queue box e acc Hin Hit]; intros fuel Hlen.
  - destruct fuel; simpl; auto.
  - destruct queue as [|q0 queue]; [destruct Hin|].
    destruct fuel as [|fuel]; [simpl in Hlen; lia|].
    cbn [overlaps_loop_outcomes]. apply in_flat_map.
    exists box. split; [exact Hin|]. rewrite Hit. apply IH.
    pose proof (overlaps_iteration_shrinks _ _ _ _ _ Hin Hit). lia.
  - rewrite overlaps_iteration_partition in Hit. discriminate.
Qed.

Lemma lists_of_complete (l s : list Box) :
  (forall b, In b s -> In b l) -> In s (lists_of (length s) l).
Proof.
  induction s as [|x s IH]; intros Hsub; simpl.
  - auto.
  - apply in_flat_map. exists x. split; [apply Hsub; simpl; auto|].
    apply in_map. apply IH. intros b Hb. apply Hsub. simpl; auto.
Qed.

Lemma covers_complete (s l : list Box) :
  (forall b, In b l -> In b s) -> covers s l = true.
Proof.
  intros Hsub. unfold covers. apply forallb_forall. intros x Hx.
  apply existsb_exists. exists x. split; [apply Hsub; exact Hx|].
  unfold Box_eqb. destruct (Box_eq_dec x x); congruence.
Qed.

Lemma overlaps_any_pair threshold b l :
  overlaps_any threshold b l = true ->
  exists j c, nth_error l j = Some c /\ overlaps b c threshold = true.
Proof.
  induction l as [|c t IH]; simpl; [discriminate|].
  intros H. apply orb_true_iff in H. destruct H as [H|H].
  - exists 0%nat, c. auto.
  - destruct (IH H) as (j & d & Hj & Hd). exists (S j), d. auto.
Qed.

Lemma has_overlapping_pair_not_free threshold l :
  has_overlapping_pair threshold l = true -> ~ overlap_free threshold l.
Proof.
  induction l as [|b t IH]; simpl; [discriminate|].
  intros H Hfree. apply orb_true_iff in H. destruct H as [H|H].
  - destruct (overlaps_any_pair _ _ _ H) as (j & c & Hj & Hc).
    rewrite (Hfree 0%nat (S j) b c) in Hc; [discriminate|lia|reflexivity|exact Hj].
  - apply (IH H). intros i j a c Hne Hi Hj.
    apply (Hfree (S i) (S j) a c); [lia|exact Hi|exact Hj].
Qed.

(** Whatever order the set is iterated in and whatever [set.pop()] hands
    out, a source collection that passes [every_run_overlaps] comes out with
    two boxes that still pass the overlap test. *)
Lemma every_run_overlaps_sound threshold self from_type to_type r :
  every_run_overlaps threshold (boxes_from_type self from_type) = true ->
  resolve_overlaps self from_type to_type threshold r ->
  exists self', r = Ok self' /\
    ~ overlap_free threshold (boxes_from_type self' to_type).
Proof.
  intros Hall Hrun.
  assert (Hq : forall queue res,
             is_set_of queue (boxes_from_type self from_type) ->
             overlaps_loop threshold queue [] res ->
             outcome_overlaps threshold res = true).
  { intros queue res Hset Hloop.
    unfold every_run_overlaps in Hall.
    rewrite forallb_forall in Hall.
    specialize (Hall queue).
    rewrite <- (is_set_of_length _ _ Hset) in Hall.
    assert (Hin : In queue (lists_of (length queue) (boxes_from_type self from_type))).
    { apply lists_of_complete. intros b Hb. now apply (proj2 Hset). }
    specialize (Hall Hin).
    rewrite covers_complete in Hall by (intros b Hb; now apply (proj2 Hset)).
    rewrite forallb_forall in Hall. apply Hall.
    apply overlaps_loop_outcomes_complete; [exact Hloop|lia]. }
  inversion Hrun as [queue out Hset Hloop Heq | queue e Hset Hloop Heq]; subst.
  - eexists. split; [reflexivity|].
    rewrite boxes_from_type_set.
    apply has_overlapping_pair_not_free.
    exact (Hq _ _ Hset Hloop).
  - specialize (Hq _ _ Hset Hloop). discriminate.
Qed.

(** C1 at a chain of four boxes, threshold 10: every run of
    [resolve_overlaps] returns, and the collection it stores holds two boxes
    that pass [overlaps] at that threshold. *)
Theorem resolve_overlaps_chain_still_overlaps self from_type to_type r :
  boxes_from_type self from_type = chain ->
  resolve_overlaps self from_type to_type (inject_Z 10) r ->
  exists self', r = Ok self' /\
    ~ overlap_free (inject_Z 10) (boxes_from_type self' to_type).
Proof.
  intros Hsrc Hrun.
  apply (every_run_overlaps_sound (inject_Z 10) self from_type to_type r);
    [|exact Hrun].
  rewrite Hsrc. vm_compute. reflexivity.
Qed.

Lemma resolve_overlaps_chain_still_overlaps_witness :
  exists self',
    resolve_overlaps
      (mkPageData "a.png" "m.png" "o.png" 1%Q [] chain [] [] None)
      EXTENDED_BOX MERGED_EXT_BOX (inject_Z 10) (Ok self') /\
    merged_extended_boxes self' = [mkBox 0 0 16 10; mkBox 12 0 28 10] /\
    ~ overlap_free (inject_Z 10) (merged_extended_boxes self').
Proof.
  assert (Hrun :
    resolve_overlaps
      (mkPageData "a.png" "m.png" "o.png" 1%Q [] chain [] [] None)
      EXTENDED_BOX MERGED_EXT_BOX (inject_Z 10)
      (Ok (mkPageData "a.png" "m.png" "o.png" 1%Q [] chain
             [mkBox 0 0 16 10; mkBox 12 0 28 10] [] None))).
  { apply (resolve_overlaps_ok
             (mkPageData "a.png" "m.png" "o.png" 1%Q [] chain [] [] None)
             EXTENDED_BOX MERGED_EXT_BOX (inject_Z 10) chain
             [mkBox 0 0 16 10; mkBox 12 0 28 10]).
    - apply (is_set_of_nodup chain).
    - apply (overlaps_loop_first_run 4). reflexivity. }
  destruct (resolve_overlaps_chain_still_overlaps
              (mkPageData "a.png" "m.png" "o.png" 1%Q [] chain [] [] None)
              EXTENDED_BOX MERGED_EXT_BOX _ eq_refl Hrun)
    as (self' & Heq & Hov).
  exists self'. inversion Heq; subst self'.
  split; [exact Hrun|]. split; [reflexivity|exact Hov].
Defined.

(** * Further properties of the code *)

(** ** Box algebra *)

Lemma inside_refl (a : Box) : inside a a.
Proof. unfold inside; lia. Qed.

Lemma inside_trans (a b c : Box) : inside a b -> inside b c -> inside a c.
Proof. unfold inside; lia. Qed.

Lemma merge_comm (a b : Box) : merge a b = merge b a.
Proof. unfold merge. f_equal; lia. Qed.

Lemma merge_assoc (a b c : Box) : merge (merge a b) c = merge a (merge b c).
Proof. unfold merge; simpl. f_equal; lia. Qed.

Lemma inside_merge_l (a b : Box) : inside a (merge a b).
Proof. unfold inside, merge; simpl; lia. Qed.

Lemma inside_merge_r (a b : Box) : inside b (merge a b).
Proof. unfold inside, merge; simpl; lia. Qed.

(** X1: [merge] is commutative, associative and idempotent, and its result
    is the smallest box that has both operands inside it. *)
Theorem merge_is_bounding_box (a b c : Box) :
  merge a b = merge b a /\
  merge (merge a b) c = merge a (merge b c) /\
  merge a a = a /\
  inside a (merge a b) /\ inside b (merge a b) /\
  (inside a c -> inside b c -> inside (merge a b) c).
Proof.
  split; [apply merge_comm|]. split; [apply merge_assoc|].
  split; [destruct a; unfold merge; simpl; f_equal; lia|].
  split; [apply inside_merge_l|]. split; [apply inside_merge_r|].
  unfold inside, merge; simpl. lia.
Qed.

Lemma merge_is_bounding_box_witness :
  inside (merge (mkBox 0 0 4 4) (mkBox 2 3 9 5)) (mkBox 0 0 10 10).
Proof.
  apply (merge_is_bounding_box (mkBox 0 0 4 4) (mkBox 2 3 9 5) (mkBox 0 0 10 10));
    unfold inside; simpl; lia.
Defined.

Lemma overlaps_symmetric_aux (a b : Box) (threshold : Q) :
  overlaps a b threshold = overlaps b a threshold.
Proof.
  unfold overlaps.
  rewrite (Z.min_comm (x2 a) (x2 b)), (Z.max_comm (x1 a) (x1 b)).
  rewrite (Z.min_comm (y2 a) (y2 b)), (Z.max_comm (y1 a) (y1 b)).
  rewrite (Z.min_comm (area a) (area b)). reflexivity.
Qed.

(** X2: the area-ratio test does not depend on which of the two boxes it is
    called on, at any threshold; it never holds for two boxes that share no
    interior point when the threshold is not negative. *)
Theorem overlaps_symmetric (a b : Box) (threshold : Q) :
  overlaps a b threshold = overlaps b a threshold /\
  ((0 <= threshold)%Q ->
   x2 a <= x1 b \/ x2 b <= x1 a \/ y2 a <= y1 b \/ y2 b <= y1 a ->
   overlaps a b threshold = false).
Proof.
  split; [apply overlaps_symmetric_aux|].
  intros Hth Hsep. unfold overlaps. apply negb_false_iff. apply Qle_bool_iff.
  assert (Hzero :
    Z.max 0 (Z.min (x2 a) (x2 b) - Z.max (x1 a) (x1 b))
    * Z.max 0 (Z.min (y2 a) (y2 b) - Z.max (y1 a) (y1 b)) = 0).
  { destruct Hsep as [H|[H|[H|H]]].
    - replace (Z.max 0 (Z.min (x2 a) (x2 b) - Z.max (x1 a) (x1 b))) with 0 by lia. lia.
    - replace (Z.max 0 (Z.min (x2 a) (x2 b) - Z.max (x1 a) (x1 b))) with 0 by lia. lia.
    - replace (Z.max 0 (Z.min (y2 a) (y2 b) - Z.max (y1 a) (y1 b))) with 0 by lia. lia.
    - replace (Z.max 0 (Z.min (y2 a) (y2 b) - Z.max (y1 a) (y1 b))) with 0 by lia. lia. }
  rewrite Hzero. unfold Qdiv at 1. rewrite Qmult_0_l.
  apply Qle_shift_div_l; [reflexivity|]. rewrite Qmult_0_l. exact Hth.
Qed.

Lemma overlaps_symmetric_witness :
  overlaps (mkBox 0 0 10 10) (mkBox 10 0 20 10) (inject_Z 0) = false.
Proof.
  apply (proj2 (overlaps_symmetric (mkBox 0 0 10 10) (mkBox 10 0 20 10) (inject_Z 0))).
  - unfold Qle; simpl; lia.
  - left. simpl. lia.
Defined.

Lemma center_in_well_formed (b : Box) :
  well_formed b -> contains b (center b) = true.
Proof.
  unfold well_formed, contains, center. intros [Hx Hy].
  pose proof (Z.div_mod (x1 b + x2 b) 2 ltac:(lia)) as Ex.
  pose proof (Z.mod_pos_bound (x1 b + x2 b) 2 ltac:(lia)) as Bx.
  pose proof (Z.div_mod (y1 b + y2 b) 2 ltac:(lia)) as Ey.
  pose proof (Z.mod_pos_bound (y1 b + y2 b) 2 ltac:(lia)) as By.
  rewrite !andb_true_iff, !Z.leb_le. lia.
Qed.

Lemma overlaps_center_sym (a b : Box) : overlaps_center a b = overlaps_center b a.
Proof. unfold overlaps_center. apply orb_comm. Qed.

(** X3: [overlaps_center] is symmetric; the center of a well-formed box lies
    in the box, so such a box passes the test against itself and two copies
    of it leave [resolve_total_overlaps] as one box; a box with its corners
    swapped does not contain its own center. *)
Theorem overlaps_center_self (a b : Box) :
  overlaps_center a b = overlaps_center b a /\
  (well_formed b ->
   contains b (center b) = true /\
   overlaps_center b b = true /\
   resolve_total_overlaps_boxes [b; b] = Some (Ok [b])) /\
  (x2 b < x1 b \/ y2 b < y1 b -> overlaps_center b b = false).
Proof.
  split; [apply overlaps_center_sym|]. split.
  - intros Hwf. pose proof (center_in_well_formed b Hwf) as Hc.
    assert (Hself : overlaps_center b b = true)
      by (unfold overlaps_center; rewrite Hc; reflexivity).
    repeat split; auto.
    unfold resolve_total_overlaps_boxes. simpl. rewrite Hself. simpl.
    destruct (Box_eq_dec b b) as [_|Hne]; [|congruence]. simpl.
    destruct b; unfold merge; simpl. repeat f_equal; lia.
  - intros Hinv. unfold overlaps_center, contains, center.
    pose proof (Z.div_mod (x1 b + x2 b) 2 ltac:(lia)) as Ex.
    pose proof (Z.mod_pos_bound (x1 b + x2 b) 2 ltac:(lia)) as Bx.
    pose proof (Z.div_mod (y1 b + y2 b) 2 ltac:(lia)) as Ey.
    pose proof (Z.mod_pos_bound (y1 b + y2 b) 2 ltac:(lia)) as By.
    rewrite orb_diag. apply not_true_is_false.
    rewrite !andb_true_iff, !Z.leb_le. lia.
Qed.

Lemma overlaps_center_self_witness :
  resolve_total_overlaps_boxes [mkBox 1 2 7 9; mkBox 1 2 7 9]
  = Some (Ok [mkBox 1 2 7 9]).
Proof.
  apply (proj1 (proj2 (overlaps_center_self (mkBox 1 2 7 9) (mkBox 1 2 7 9)))).
  unfold well_formed; simpl; lia.
Defined.

(** X4: padding twice is padding once by the sum, as long as the second
    amount is not negative; the same holds for [right_pad]. *)
Theorem pad_twice (a : Box) (k1 k2 : Z) (canvas : Z * Z) :
  0 <= k2 ->
  pad (pad a k1 canvas) k2 canvas = pad a (k1 + k2) canvas /\
  right_pad (right_pad a k1 canvas) k2 canvas = right_pad a (k1 + k2) canvas.
Proof.
  intros Hk. unfold pad, right_pad; simpl. split; f_equal; lia.
Qed.

Lemma pad_twice_witness :
  pad (pad (mkBox 5 5 9 9) 3 (10, 10)) 4 (10, 10) = pad (mkBox 5 5 9 9) 7 (10, 10).
Proof. apply (pad_twice (mkBox 5 5 9 9) 3 4 (10, 10)). lia. Defined.

(** X5: a box that lies within the canvas only grows under [pad] and
    [right_pad] with a non-negative amount: the original box lies inside the
    padded one, and a well-formed box stays well-formed; [right_pad] never
    touches [x1], [y1] and [y2]. *)
Theorem pad_grows (a : Box) (k : Z) (canvas : Z * Z) :
  within_canvas a canvas -> 0 <= k ->
  inside a (pad a k canvas) /\ inside a (right_pad a k canvas) /\
  (well_formed a -> well_formed (pad a k canvas) /\ well_formed (right_pad a k canvas)) /\
  x1 (right_pad a k canvas) = x1 a /\ y1 (right_pad a k canvas) = y1 a /\
  y2 (right_pad a k canvas) = y2 a.
Proof.
  unfold within_canvas, inside, well_formed, pad, right_pad; simpl.
  intros (Hx1 & Hx2 & Hy1 & Hy2) Hk. repeat split; try lia.
Qed.

Lemma pad_grows_witness :
  inside (mkBox 2 3 8 9) (pad (mkBox 2 3 8 9) 4 (10, 12)).
Proof.
  apply (pad_grows (mkBox 2 3 8 9) 4 (10, 12)).
  - unfold within_canvas; simpl; lia.
  - lia.
Defined.

(** ** What the overlap resolution keeps *)

Lemma fold_left_merge_grows (l : list Box) (b0 : Box) :
  inside b0 (fold_left merge l b0).
Proof.
  revert b0; induction l as [|x l IH]; intros b0; simpl.
  - apply inside_refl.
  - eapply inside_trans; [apply inside_merge_l | apply IH].
Qed.

Lemma fold_left_merge_covers (l : list Box) (b0 x : Box) :
  In x l -> inside x (fold_left merge l b0).
Proof.
  revert b0; induction l as [|y l IH]; intros b0 Hx; simpl; [destruct Hx|].
  destruct Hx as [Hx|Hx].
  - subst y. eapply inside_trans; [apply inside_merge_r | apply fold_left_merge_grows].
  - apply IH. exact Hx.
Qed.

Lemma fifo_cluster_covers (fuel : nat) (queue : list Box) :
  (length queue <= fuel)%nat ->
  forall b, In b queue -> exists m, In m (fifo_cluster fuel queue) /\ inside b m.
Proof.
  revert queue; induction fuel as [|fuel IH]; intros [|h rest] Hlen b Hb;
    simpl in *; try lia; try contradiction.
  destruct Hb as [<-|Hb].
  - eexists. split; [left; reflexivity|]. apply fold_left_merge_grows.
  - destruct (overlaps_center h b) eqn:Hov.
    + eexists. split; [left; reflexivity|].
      apply fold_left_merge_covers. apply filter_In. auto.
    + destruct (IH (filter (fun o => negb (overlaps_center h o)) rest)) with (b := b)
        as (m & Hm & Hin).
      * pose proof (filter_length_le (fun o => negb (overlaps_center h o)) rest). lia.
      * apply filter_In. rewrite Hov. auto.
      * exists m. auto.
Qed.

Lemma fifo_cluster_length (fuel : nat) (queue : list Box) :
  (length (fifo_cluster fuel queue) <= length queue)%nat.
Proof.
  revert queue; induction fuel as [|fuel IH]; intros [|h rest]; simpl; try lia.
  pose proof (IH (filter (fun o => negb (overlaps_center h o)) rest)).
  pose proof (filter_length_le (fun o => negb (overlaps_center h o)) rest). lia.
Qed.

(** X6: [resolve_total_overlaps] returns for every collection; it never
    returns more boxes than it was given, returns none only for none, and
    loses no region: every box of the collection lies inside one of the
    boxes returned. *)
Theorem resolve_total_overlaps_covers (bs : list Box) :
  exists out,
    resolve_total_overlaps_boxes bs = Some (Ok out) /\
    (length out <= length bs)%nat /\
    (out = [] <-> bs = []) /\
    (forall b, In b bs -> exists m, In m out /\ inside b m).
Proof.
  exists (fifo_cluster (length bs) bs). split.
  - unfold resolve_total_overlaps_boxes.
    rewrite total_overlaps_loop_fifo by lia. reflexivity.
  - split; [apply fifo_cluster_length|]. split.
    + destruct bs; simpl; split; intros H; congruence.
    + apply fifo_cluster_covers. lia.
Qed.

Lemma center_free_tail (b : Box) (rest : list Box) :
  center_free (b :: rest) ->
  center_free rest /\ forall o, In o rest -> overlaps_center b o = false.
Proof.
  intros H. split.
  - intros i j x y Hne Hi Hj. apply (H (S i) (S j)); auto.
  - intros o Ho. apply In_nth_error in Ho. destruct Ho as [n Hn].
    apply (H 0%nat (S n)); auto.
Qed.

Lemma filter_all {A} (f : A -> bool) (l : list A) :
  (forall x, In x l -> f x = true) -> filter f l = l.
Proof.
  induction l as [|x l IH]; intros H; simpl; [reflexivity|].
  rewrite (H x) by (simpl; auto). f_equal. apply IH. intros y Hy. apply H. simpl; auto.
Qed.

Lemma filter_none {A} (f : A -> bool) (l : list A) :
  (forall x, In x l -> f x = false) -> filter f l = [].
Proof.
  induction l as [|x l IH]; intros H; simpl; [reflexivity|].
  rewrite (H x) by (simpl; auto). apply IH. intros y Hy. apply H. simpl; auto.
Qed.

Lemma fifo_cluster_center_free (fuel : nat) (queue : list Box) :
  (length queue <= fuel)%nat -> center_free queue -> fifo_cluster fuel queue = queue.
Proof.
  revert queue; induction fuel as [|fuel IH]; intros [|h rest] Hlen Hfree;
    simpl in *; try lia; try reflexivity.
  destruct (center_free_tail _ _ Hfree) as [Hrest Hhead].
  rewrite (filter_none (fun o => overlaps_center h o) rest Hhead).
  rewrite (filter_all (fun o => negb (overlaps_center h o)) rest)
    by (intros o Ho; rewrite (Hhead o Ho); reflexivity).
  simpl. f_equal. apply IH; [lia | exact Hrest].
Qed.

(** X7: a collection in which no two boxes pass [overlaps_center] against
    each other leaves [resolve_total_overlaps] as it went in, same boxes in
    the same order; so running the resolution again on such a result changes
    nothing. *)
Theorem resolve_total_overlaps_fixed_point (bs : list Box) :
  center_free bs -> resolve_total_overlaps_boxes bs = Some (Ok bs).
Proof.
  intros Hfree. unfold resolve_total_overlaps_boxes.
  rewrite total_overlaps_loop_fifo by lia.
  rewrite fifo_cluster_center_free by (auto; lia). reflexivity.
Qed.

Lemma resolve_total_overlaps_fixed_point_witness :
  resolve_total_overlaps_boxes
    [mkBox 0 0 10 10; mkBox 100 100 110 110; mkBox 8 8 30 30]
  = Some (Ok [mkBox 0 0 10 10; mkBox 100 100 110 110; mkBox 8 8 30 30]).
Proof.
  apply resolve_total_overlaps_fixed_point.
  intros [|[|[|i]]] [|[|[|j]]] a b Hne Hi Hj; simpl in Hi, Hj;
    try congruence; try (destruct i; discriminate); try (destruct j; discriminate);
    inversion Hi; inversion Hj; subst; reflexivity.
Defined.

Lemma overlaps_loop_covers threshold queue acc out :
  overlaps_loop threshold queue acc (Ok out) ->
  forall b, In b queue \/ (exists m, In m acc /\ inside b m) ->
  exists m, In m out /\ inside b m.
Proof.
  intros H. remember (Ok out) as r eqn:Hr. revert out Hr.
  induction H as [acc | queue box box' queue' acc r Hin Hit Hloop IH
                  | queue box e acc Hin Hit]; intros out Hr b Hb.
  - inversion Hr; subst. destruct Hb as [[]|Hb]. exact Hb.
  - apply (IH out Hr). rewrite overlaps_iteration_partition in Hit.
    inversion Hit; subst box' queue'. clear Hit.
    destruct Hb as [Hb|(m & Hm & Hbm)].
    + destruct (Box_eq_dec b box) as [->|Hne].
      * right. eexists. split; [apply in_or_app; right; left; reflexivity|].
        apply fold_left_merge_grows.
      * assert (Hrem : In b (remove Box_eq_dec box queue))
          by (apply in_in_remove; auto).
        destruct (overlaps box b threshold) eqn:Hov.
        -- right. eexists. split; [apply in_or_app; right; left; reflexivity|].
           apply fold_left_merge_covers. apply filter_In. auto.
        -- left. apply filter_In. rewrite Hov. auto.
    + right. exists m. split; [apply in_or_app; auto | exact Hbm].
  - discriminate.
Qed.

(** X8: whatever order the set is iterated in, [resolve_overlaps] returns
    without raising, and every box of the source collection lies inside one
    of the boxes it stores in the target collection. *)
Theorem resolve_overlaps_covers self from_type to_type threshold r :
  resolve_overlaps self from_type to_type threshold r ->
  exists self',
    r = Ok self' /\
    forall b, In b (boxes_from_type self from_type) ->
      exists m, In m (boxes_from_type self' to_type) /\ inside b m.
Proof.
  intros H.
  inversion H as [queue out Hset Hloop Heq | queue e Hset Hloop Heq]; subst.
  - eexists. split; [reflexivity|]. intros b Hb.
    rewrite boxes_from_type_set.
    apply (overlaps_loop_covers _ _ _ _ Hloop). left. now apply (proj2 Hset).
  - destruct (overlaps_loop_returns _ _ _ _ Hloop) as [out Hout]. discriminate.
Qed.

Lemma resolve_overlaps_covers_witness :
  exists m,
    In m [mkBox 0 0 16 10; mkBox 12 0 28 10] /\ inside (mkBox 6 0 16 10) m.
Proof.
  assert (Hrun :
    resolve_overlaps
      (mkPageData "a.png" "m.png" "o.png" 1%Q [] chain [] [] None)
      EXTENDED_BOX MERGED_EXT_BOX (inject_Z 10)
      (Ok (mkPageData "a.png" "m.png" "o.png" 1%Q [] chain
             [mkBox 0 0 16 10; mkBox 12 0 28 10] [] None))).
  { apply (resolve_overlaps_ok
             (mkPageData "a.png" "m.png" "o.png" 1%Q [] chain [] [] None)
             EXTENDED_BOX MERGED_EXT_BOX (inject_Z 10) chain
             [mkBox 0 0 16 10; mkBox 12 0 28 10]).
    - apply (is_set_of_nodup chain).
    - apply (overlaps_loop_first_run 4). reflexivity. }
  destruct (resolve_overlaps_covers _ _ _ _ _ Hrun) as (self' & Heq & Hcov).
  inversion Heq; subst self'.
  apply (Hcov (mkBox 6 0 16 10)). simpl. auto.
Defined.

(** ** What resolve_overlaps does guarantee about overlap *)

Lemma in_remove_neq (box b : Box) (queue : list Box) :
  In b (remove Box_eq_dec box queue) -> In b queue /\ b <> box.
Proof. apply in_remove. Qed.

(** Every pass emits the popped box merged with its matches; the popped
    boxes are the representatives of the boxes emitted. *)
Lemma overlaps_loop_representatives threshold queue acc out :
  overlaps_loop threshold queue acc (Ok out) ->
  exists reps emitted,
    out = acc ++ emitted /\
    Forall2 inside reps emitted /\
    (forall rep, In rep reps -> In rep queue) /\
    ForallOrdPairs (fun a b => overlaps a b threshold = false) reps.
Proof.
  intros H. remember (Ok out) as r eqn:Hr. revert out Hr.
  induction H as [acc | queue box box' queue' acc r Hin Hit Hloop IH
                  | queue box e acc Hin Hit]; intros out Hr.
  - inversion Hr; subst. exists [], []. rewrite app_nil_r.
    repeat split; auto; try constructor.
  - destruct (IH out Hr) as (reps & emitted & Hout & Hins & Hsub & Hpair).
    rewrite overlaps_iteration_partition in Hit.
    inversion Hit; subst box' queue'. clear Hit.
    exists (box :: reps), (fold_left merge
                             (filter (fun b => overlaps box b threshold)
                                     (remove Box_eq_dec box queue)) box :: emitted).
    split; [rewrite Hout, <- app_assoc; reflexivity|].
    split; [constructor; [apply fold_left_merge_grows | exact Hins]|].
    split.
    + intros rep [<-|Hrep]; [exact Hin|].
      apply Hsub in Hrep. apply filter_In in Hrep. destruct Hrep as [Hrep _].
      apply in_remove_neq in Hrep. tauto.
    + constructor; [|exact Hpair].
      apply Forall_forall. intros rep Hrep.
      apply Hsub in Hrep. apply filter_In in Hrep. destruct Hrep as [_ Hrep].
      apply negb_true_iff in Hrep. exact Hrep.
  - discriminate.
Qed.

(** X9: in every run of [resolve_overlaps], each box stored in the target
    collection has a representative among the source boxes that lies inside
    it, and no two of these representatives pass the overlap test against
    each other: what the loop keeps apart is the popped boxes, not the
    merged ones. *)
Theorem resolve_overlaps_representatives self from_type to_type threshold self' :
  resolve_overlaps self from_type to_type threshold (Ok self') ->
  exists reps,
    Forall2 inside reps (boxes_from_type self' to_type) /\
    (forall rep, In rep reps -> In rep (boxes_from_type self from_type)) /\
    ForallOrdPairs
      (fun a b => overlaps a b threshold = false /\ overlaps b a threshold = false)
      reps.
Proof.
  intros H. inversion H as [queue out Hset Hloop Heq | ]; subst.
  destruct (overlaps_loop_representatives _ _ _ _ Hloop)
    as (reps & emitted & Hout & Hins & Hsub & Hpair).
  simpl in Hout. subst emitted.
  exists reps. rewrite boxes_from_type_set.
  split; [exact Hins|]. split.
  - intros rep Hrep. apply (proj2 Hset). auto.
  - clear - Hpair. induction Hpair as [|a l Hal Hl IH]; constructor; auto.
    apply Forall_forall. intros b Hb. rewrite Forall_forall in Hal.
    split; [auto|]. rewrite overlaps_symmetric_aux. auto.
Qed.

Lemma resolve_overlaps_representatives_witness :
  exists reps,
    Forall2 inside reps [mkBox 0 0 16 10; mkBox 12 0 28 10] /\
    (forall rep, In rep reps -> In rep chain).
Proof.
  assert (Hrun :
    resolve_overlaps
      (mkPageData "a.png" "m.png" "o.png" 1%Q [] chain [] [] None)
      EXTENDED_BOX MERGED_EXT_BOX (inject_Z 10)
      (Ok (mkPageData "a.png" "m.png" "o.png" 1%Q [] chain
             [mkBox 0 0 16 10; mkBox 12 0 28 10] [] None))).
  { apply (resolve_overlaps_ok
             (mkPageData "a.png" "m.png" "o.png" 1%Q [] chain [] [] None)
             EXTENDED_BOX MERGED_EXT_BOX (inject_Z 10) chain
             [mkBox 0 0 16 10; mkBox 12 0 28 10]).
    - apply (is_set_of_nodup chain).
    - apply (overlaps_loop_first_run 4). reflexivity. }
  destruct (resolve_overlaps_representatives _ _ _ _ _ Hrun) as (reps & Hins & Hsub & _).
  exists reps. split; [exact Hins | exact Hsub].
Defined.

Lemma NoDup_remove_box (box : Box) (l : list Box) :
  NoDup l -> NoDup (remove Box_eq_dec box l).
Proof.
  induction 1 as [|x l Hx Hl IH]; simpl; [constructor|].
  destruct (Box_eq_dec box x); [exact IH|].
  constructor; [|exact IH]. intros Hin. apply in_remove in Hin. tauto.
Qed.

Lemma remove_box_perm (box : Box) (l : list Box) :
  NoDup l -> In box l -> Permutation (box :: remove Box_eq_dec box l) l.
Proof.
  intros Hnd Hin. apply NoDup_Permutation; [| exact Hnd |].
  - constructor; [apply remove_In | apply NoDup_remove_box; exact Hnd].
  - intros x. split.
    + intros [<-|Hx]; [exact Hin|]. apply in_remove in Hx. tauto.
    + intros Hx. destruct (Box_eq_dec x box) as [->|Hne]; [left; reflexivity|].
      right. apply in_in_remove; auto.
Qed.

Lemma overlaps_loop_apart threshold queue acc out :
  overlaps_loop threshold queue acc (Ok out) ->
  NoDup queue -> pairwise_apart threshold queue ->
  exists emitted, out = acc ++ emitted /\ Permutation emitted queue.
Proof.
  intros H. remember (Ok out) as r eqn:Hr. revert out Hr.
  induction H as [acc | queue box box' queue' acc r Hin Hit Hloop IH
                  | queue box e acc Hin Hit]; intros out Hr Hnd Hap.
  - inversion Hr; subst. exists []. rewrite app_nil_r. auto.
  - rewrite overlaps_iteration_partition in Hit.
    assert (Hnone : forall b, In b (remove Box_eq_dec box queue) ->
                              overlaps box b threshold = false).
    { intros b Hb. apply in_remove in Hb. destruct Hb as [Hb Hne].
      apply Hap; auto. }
    rewrite (filter_none _ _ Hnone) in Hit.
    rewrite (filter_all (fun b => negb (overlaps box b threshold)))
      in Hit by (intros b Hb; rewrite (Hnone b Hb); reflexivity).
    simpl in Hit. inversion Hit; subst box' queue'. clear Hit.
    destruct (IH out Hr) as (emitted & Hout & Hperm).
    + apply NoDup_remove_box. exact Hnd.
    + intros a b Ha Hb Hne. apply in_remove in Ha. apply in_remove in Hb.
      apply Hap; tauto.
    + exists (box :: emitted). split.
      * rewrite Hout, <- app_assoc. reflexivity.
      * eapply Permutation_trans; [|apply remove_box_perm; eassumption].
        constructor. exact Hperm.
  - discriminate.
Qed.

(** X10: when no two distinct boxes of the source collection pass the
    overlap test, every run of [resolve_overlaps] stores exactly the distinct
    source boxes, in some order, and no two boxes of the result pass the
    test. *)
Theorem resolve_overlaps_of_apart_source self from_type to_type threshold self' :
  pairwise_apart threshold (boxes_from_type self from_type) ->
  resolve_overlaps self from_type to_type threshold (Ok self') ->
  Permutation (boxes_from_type self' to_type)
              (nodup Box_eq_dec (boxes_from_type self from_type)) /\
  overlap_free threshold (boxes_from_type self' to_type).
Proof.
  intros Hap H. inversion H as [queue out Hset Hloop Heq | ]; subst.
  rewrite boxes_from_type_set.
  destruct (overlaps_loop_apart _ _ _ _ Hloop (proj1 Hset)) as (emitted & Hout & Hperm).
  { intros a b Ha Hb Hne. apply Hap; auto; now apply (proj2 Hset). }
  simpl in Hout. subst emitted.
  assert (Hq : Permutation queue (nodup Box_eq_dec (boxes_from_type self from_type))).
  { apply NoDup_Permutation; [exact (proj1 Hset) | apply NoDup_nodup |].
    intros x. rewrite nodup_In. apply (proj2 Hset). }
  split; [eapply Permutation_trans; eassumption|].
  intros i j a b Hne Hi Hj.
  assert (Hnd : NoDup out)
    by (eapply Permutation_NoDup; [apply Permutation_sym; exact Hperm | exact (proj1 Hset)]).
  apply Hap.
  - apply (proj2 Hset). eapply Permutation_in; [exact Hperm|].
    eapply nth_error_In; eauto.
  - apply (proj2 Hset). eapply Permutation_in; [exact Hperm|].
    eapply nth_error_In; eauto.
  - intros ->. apply Hne.
    apply (proj1 (NoDup_nth_error out) Hnd i j); [|congruence].
    apply nth_error_Some. congruence.
Qed.

Lemma resolve_overlaps_of_apart_source_witness :
  overlap_free (inject_Z 10) [mkBox 0 0 10 10; mkBox 100 100 110 110].
Proof.
  assert (Hrun :
    resolve_overlaps
      (mkPageData "a.png" "m.png" "o.png" 1%Q []
         [mkBox 0 0 10 10; mkBox 100 100 110 110; mkBox 0 0 10 10] [] [] None)
      EXTENDED_BOX MERGED_EXT_BOX (inject_Z 10)
      (Ok (mkPageData "a.png" "m.png" "o.png" 1%Q []
             [mkBox 0 0 10 10; mkBox 100 100 110 110; mkBox 0 0 10 10]
             [mkBox 0 0 10 10; mkBox 100 100 110 110] [] None))).
  { apply (resolve_overlaps_ok
             (mkPageData "a.png" "m.png" "o.png" 1%Q []
                [mkBox 0 0 10 10; mkBox 100 100 110 110; mkBox 0 0 10 10] [] [] None)
             EXTENDED_BOX MERGED_EXT_BOX (inject_Z 10)
             [mkBox 0 0 10 10; mkBox 100 100 110 110]
             [mkBox 0 0 10 10; mkBox 100 100 110 110]).
    - split.
      + repeat constructor; simpl; intuition discriminate.
      + intros b; simpl; intuition.
    - apply (overlaps_loop_first_run 2). reflexivity. }
  refine (proj2 (resolve_overlaps_of_apart_source _ _ _ _ _ _ Hrun)).
  intros a b Ha Hb Hne. simpl in Ha, Hb.
  destruct Ha as [<-|[<-|[<-|[]]]]; destruct Hb as [<-|[<-|[<-|[]]]];
    try congruence; reflexivity.
Defined.

(** ** Expanding a snapshot *)

Lemma removed_box_data_of_bubbles (analytic : OCRAnalytic) :
  removed_box_data_of_results (bubbles_of_analytic analytic)
  = removed_box_data analytic.
Proof.
  unfold removed_box_data_of_results, bubbles_of_analytic.
  generalize 1 as start. induction (removed_box_data analytic) as [|[[p t] b] data IH];
    intros start; simpl; [reflexivity|].
  f_equal. apply IH.
Qed.

(** X11: expanding snapshots into annotation sets and collapsing them again
    keeps every [(path, text, box)] triple in order; the count becomes the
    number of triples and both size lists come back empty, so a snapshot
    survives the round trip unchanged exactly when it already had that
    count and empty size lists. *)
Theorem expand_then_collapse (ocr_analytics : list OCRAnalytic) :
  convert_ocr_results_to_analytics (convert_ocr_analytics_to_results ocr_analytics)
  = map (fun a => mkOCRAnalytic (Z.of_nat (length (removed_box_data a))) [] []
                    (removed_box_data a))
        ocr_analytics /\
  ((forall a, In a ocr_analytics ->
      num_boxes a = Z.of_nat (length (removed_box_data a)) /\
      box_sizes_ocr a = [] /\ box_sizes_removed a = []) <->
   convert_ocr_results_to_analytics (convert_ocr_analytics_to_results ocr_analytics)
   = ocr_analytics).
Proof.
  assert (Heq : convert_ocr_results_to_analytics
                  (convert_ocr_analytics_to_results ocr_analytics)
                = map (fun a => mkOCRAnalytic (Z.of_nat (length (removed_box_data a)))
                                  [] [] (removed_box_data a)) ocr_analytics).
  { unfold convert_ocr_results_to_analytics, convert_ocr_analytics_to_results.
    rewrite map_map. apply map_ext. intros a. unfold analytic_of_results.
    rewrite removed_box_data_of_bubbles. reflexivity. }
  split; [exact Heq|]. rewrite Heq. clear Heq.
  induction ocr_analytics as [|a rest IH]; simpl.
  - split; auto. intros _ a [].
  - split.
    + intros H. f_equal.
      * destruct (H a (or_introl eq_refl)) as (Hn & Ho & Hr).
        destruct a as [n so sr data]; simpl in *. subst. reflexivity.
      * apply IH. intros b Hb. apply H. auto.
    + intros H. injection H as Ha Hrest. intros b [<-|Hb].
      * rewrite <- Ha. simpl. auto.
      * apply (proj2 IH); auto.
Qed.

Lemma bubbles_nth (start : Z) (data : list (string * string * Box)) k r :
  nth_error
    (map (fun '(index, (path, text, box)) =>
            mkOCRResult path text box (py_str index) Normal)
         (PyList.enumerate start data)) k = Some r ->
  status r = Normal /\ nth_error data k = Some (path r, text r, box r).
Proof.
  revert start k; induction data as [|[[p t] b] data IH]; intros start [|k] H;
    simpl in H; try discriminate.
  - inversion H; subst; simpl. auto.
  - apply (IH _ _ H).
Qed.

Lemma bubbles_length (analytic : OCRAnalytic) :
  length (bubbles_of_analytic analytic) = length (removed_box_data analytic).
Proof.
  unfold bubbles_of_analytic. rewrite length_map.
  generalize 1 as start.
  induction (removed_box_data analytic) as [|x data IH]; intros start; simpl; auto.
Qed.

(** X12: the annotation set expanded from a snapshot has one record per
    triple, in order; record [k] (from 0) carries that triple, the status
    [Normal] and the label [str(k + 1)], and no two records share a label. *)
Theorem expansion_labels (analytic : OCRAnalytic) :
  length (bubbles_of_analytic analytic) = length (removed_box_data analytic) /\
  (forall k r, nth_error (bubbles_of_analytic analytic) k = Some r ->
     label r = py_str (Z.of_nat k + 1) /\ status r = Normal /\
     nth_error (removed_box_data analytic) k = Some (path r, text r, box r)) /\
  NoDup (map label (bubbles_of_analytic analytic)).
Proof.
  split; [apply bubbles_length|]. split.
  - intros k r H. unfold bubbles_of_analytic in H.
    rewrite (bubbles_label_at _ _ _ _ H).
    split; [f_equal; lia | apply (bubbles_nth _ _ _ _ H)].
  - apply NoDup_nth_error. intros i j Hi Hij.
    rewrite length_map in Hi.
    rewrite !nth_error_map in Hij.
    destruct (nth_error (bubbles_of_analytic analytic) i) as [ri|] eqn:Ei;
      [|apply nth_error_None in Ei; lia].
    destruct (nth_error (bubbles_of_analytic analytic) j) as [rj|] eqn:Ej;
      [|discriminate].
    simpl in Hij. inversion Hij as [Hl].
    unfold bubbles_of_analytic in Ei, Ej.
    rewrite (bubbles_label_at _ _ _ _ Ei), (bubbles_label_at _ _ _ _ Ej) in Hl.
    apply py_str_inj in Hl. lia.
Qed.

(** ** How the review slots compose *)

Lemma handle_table_edited_at w i j results r new_text :
  awaiting_user_input w = true ->
  nth_error (ocr_results w) i = Some results ->
  nth_error results j = Some r ->
  handle_table_edited (Z.of_nat i) new_text (Z.of_nat j) 1 w
  = Returned
      (rewritten w i
         (PyList.replace_nth j
            (mkOCRResult (path r) new_text (box r) (label r) (edited_status (status r)))
            results)).
Proof.
  intros Haw Hi Hj.
  assert (Hlen := nth_error_lt _ _ _ Hj).
  unfold handle_table_edited. rewrite Haw. cbn [negb Z.eqb Pos.eqb].
  rewrite (current_image_nat w i results Hi). cbn [try_with].
  rewrite (getitem_nat _ _ _ Hj). cbn [try_with].
  rewrite setitem_nat by exact Hlen. cbn [try_with].
  rewrite (store_current_nat w i results _ Hi). cbn [try_with].
  unfold load_ocr_results, suppress_cell_update_handling, rewritten.
  destruct r as [p t b l s]; destruct s; reflexivity.
Qed.

Lemma rewritten_twice w i results rs1 rs2 :
  nth_error (ocr_results w) i = Some results ->
  rewritten (rewritten w i rs1) i rs2 = rewritten w i rs2.
Proof.
  intros _. unfold rewritten, set_awaiting, set_results; simpl.
  rewrite replace_nth_twice. reflexivity.
Qed.

Lemma rewritten_awaiting w i rs : awaiting_user_input (rewritten w i rs) = true.
Proof. reflexivity. Qed.

(** X13: for a record of any status but [New], the delete toggle is its own
    inverse: toggling the selected record twice returns both times and
    leaves every annotation set as it was. *)
Theorem delete_bubble_twice w (i j : nat) results r :
  nth_error (ocr_results w) i = Some results ->
  nth_error results j = Some r ->
  status r <> New ->
  exists w1 w2,
    delete_bubble (Z.of_nat i) (Z.of_nat j) w = Returned w1 /\
    delete_bubble (Z.of_nat i) (Z.of_nat j) w1 = Returned w2 /\
    ocr_results w1 <> ocr_results w /\
    ocr_results w2 = ocr_results w.
Proof.
  intros Hi Hj Hnew.
  assert (Hlen := nth_error_lt _ _ _ Hj).
  destruct r as [p t b l s].
  destruct s; simpl in Hnew; try congruence;
    pose proof (delete_bubble_at w i j results _ Hi Hj) as H1; cbn [status] in H1;
    match type of H1 with
    | _ = Returned (rewritten w i ?rs1) =>
        assert (Hi1 : nth_error (ocr_results (rewritten w i rs1)) i = Some rs1)
          by (eapply rewritten_row; eassumption);
        pose proof (delete_bubble_at _ i j rs1 _ Hi1
                      (nth_error_replace_nth_same _ _ _ Hlen)) as H2;
        cbn [status with_status] in H2
    end;
    (do 2 eexists; split; [exact H1|]; split; [exact H2|]; split;
     [ intros Heq; rewrite <- Heq in Hi; rewrite Hi1 in Hi;
       inversion Hi as [Hrs]; rewrite <- Hrs in Hj;
       rewrite nth_error_replace_nth_same in Hj by exact Hlen; discriminate
     | rewrite (rewritten_twice w i results) by exact Hi;
       unfold rewritten; simpl; apply replace_nth_same; rewrite Hi; f_equal;
       rewrite replace_nth_twice; symmetry; apply replace_nth_same; exact Hj ]).
Qed.

Lemma delete_bubble_twice_witness :
  exists w1 w2,
    delete_bubble 0 0
      (mkWindow [] [[mkOCRResult "p.png" "hello" (mkBox 0 0 10 10) "1" Normal]] true [])
    = Returned w1 /\
    delete_bubble 0 0 w1 = Returned w2 /\
    ocr_results w2 = [[mkOCRResult "p.png" "hello" (mkBox 0 0 10 10) "1" Normal]].
Proof.
  destruct (delete_bubble_twice
              (mkWindow [] [[mkOCRResult "p.png" "hello" (mkBox 0 0 10 10) "1" Normal]]
                 true [])
              0 0 [mkOCRResult "p.png" "hello" (mkBox 0 0 10 10) "1" Normal]
              (mkOCRResult "p.png" "hello" (mkBox 0 0 10 10) "1" Normal)
              eq_refl eq_refl) as (w1 & w2 & H1 & H2 & _ & H3).
  - simpl. discriminate.
  - exists w1, w2. auto.
Defined.

(** X14: on a record of any status but [New], editing the text and toggling
    the deletion commute: both orders return and leave the window in the
    same state. *)
Theorem delete_and_edit_commute w (i j : nat) results r new_text :
  awaiting_user_input w = true ->
  nth_error (ocr_results w) i = Some results ->
  nth_error results j = Some r ->
  status r <> New ->
  exists w_edited w_toggled w',
    handle_table_edited (Z.of_nat i) new_text (Z.of_nat j) 1 w = Returned w_edited /\
    delete_bubble (Z.of_nat i) (Z.of_nat j) w_edited = Returned w' /\
    delete_bubble (Z.of_nat i) (Z.of_nat j) w = Returned w_toggled /\
    handle_table_edited (Z.of_nat i) new_text (Z.of_nat j) 1 w_toggled = Returned w'.
Proof.
  intros Haw Hi Hj Hnew.
  assert (Hlen := nth_error_lt _ _ _ Hj).
  destruct r as [p t b l s].
  destruct s; simpl in Hnew; try congruence;
    pose proof (handle_table_edited_at w i j results _ new_text Haw Hi Hj) as He;
    pose proof (delete_bubble_at w i j results _ Hi Hj) as Hd;
    cbn [status path box label edited_status] in He, Hd;
    match type of He with
    | _ = Returned (rewritten w i ?rs) =>
        pose proof (delete_bubble_at (rewritten w i rs) i j rs _
                      (rewritten_row w i results rs Hi)
                      (nth_error_replace_nth_same _ _ _ Hlen)) as Hed
    end;
    match type of Hd with
    | _ = Returned (rewritten w i ?rs) =>
        pose proof (handle_table_edited_at (rewritten w i rs) i j rs _ new_text
                      (rewritten_awaiting w i rs)
                      (rewritten_row w i results rs Hi)
                      (nth_error_replace_nth_same _ _ _ Hlen)) as Hde
    end;
    cbn [status path box label text with_status edited_status] in Hed, Hde;
    rewrite (rewritten_twice w i results) in Hed, Hde by exact Hi;
    rewrite replace_nth_twice in Hed, Hde;
    (do 3 eexists; split; [exact He|]; split; [exact Hed|];
     split; [exact Hd | exact Hde]).
Qed.

Lemma delete_and_edit_commute_witness :
  exists w_edited w_toggled w',
    handle_table_edited 0 "bye" 0 1
      (mkWindow [] [[mkOCRResult "p.png" "hello" (mkBox 0 0 10 10) "1" Normal]] true [])
    = Returned w_edited /\
    delete_bubble 0 0 w_edited = Returned w' /\
    delete_bubble 0 0
      (mkWindow [] [[mkOCRResult "p.png" "hello" (mkBox 0 0 10 10) "1" Normal]] true [])
    = Returned w_toggled /\
    handle_table_edited 0 "bye" 0 1 w_toggled = Returned w'.
Proof.
  apply (delete_and_edit_commute
           (mkWindow [] [[mkOCRResult "p.png" "hello" (mkBox 0 0 10 10) "1" Normal]]
              true [])
           0 0 [mkOCRResult "p.png" "hello" (mkBox 0 0 10 10) "1" Normal]
           (mkOCRResult "p.png" "hello" (mkBox 0 0 10 10) "1" Normal) "bye");
    try reflexivity.
  simpl. discriminate.
Defined.

(** ** Reordering rows *)

Section MoveFacts.
Context {A : Type}.
Implicit Types (pre post : list A).

Lemma insert_middle pre post (x : A) :
  PySeq.insert (pre ++ post) (Z.of_nat (length pre)) x = pre ++ x :: post.
Proof.
  unfold PySeq.insert.
  replace (Z.of_nat (length pre) <? 0) with false by (symmetry; apply Z.ltb_ge; lia).
  rewrite length_app, Nat2Z.inj_add.
  replace (Z.min (Z.of_nat (length pre)) (Z.of_nat (length pre) + Z.of_nat (length post)))
    with (Z.of_nat (length pre)) by lia.
  rewrite Nat2Z.id.
  rewrite firstn_app, Nat.sub_diag, firstn_all. simpl. rewrite app_nil_r.
  rewrite skipn_app, Nat.sub_diag, skipn_all. reflexivity.
Qed.
End MoveFacts.

Lemma move_row_up_at w i pre a b post :
  nth_error (ocr_results w) i = Some (pre ++ a :: b :: post) ->
  move_row_up (Z.of_nat i) (Z.of_nat (S (length pre))) w
  = Returned (rewritten w i (pre ++ b :: a :: post)).
Proof.
  intros Hi.
  unfold move_row_up, suppress_cell_update_handling, move_row_up_body.
  rewrite not_minus_one.
  replace (Z.of_nat (S (length pre)) =? 0) with false by (symmetry; apply Z.eqb_neq; lia).
  cbn [orb].
  rewrite (current_image_nat (set_awaiting false w) i _ Hi). cbn [try_with].
  assert (Hb : nth_error (pre ++ a :: b :: post) (S (length pre)) = Some b).
  { replace (pre ++ a :: b :: post) with ((pre ++ [a]) ++ b :: post)
      by (rewrite <- app_assoc; reflexivity).
    replace (S (length pre)) with (length (pre ++ [a]))
      by (rewrite length_app; simpl; lia).
    apply nth_error_middle. }
  rewrite (pop_nat _ _ _ Hb). cbn [try_with fst snd].
  assert (Hrem : PyList.remove_nth (S (length pre)) (pre ++ a :: b :: post)
                 = pre ++ a :: post).
  { replace (pre ++ a :: b :: post) with ((pre ++ [a]) ++ b :: post)
      by (rewrite <- app_assoc; reflexivity).
    replace (S (length pre)) with (length (pre ++ [a]))
      by (rewrite length_app; simpl; lia).
    rewrite remove_nth_middle. rewrite <- app_assoc. reflexivity. }
  rewrite Hrem.
  replace (Z.of_nat (S (length pre)) - 1) with (Z.of_nat (length pre)) by lia.
  rewrite insert_middle.
  rewrite (store_current_nat (set_awaiting false w) i _ _ Hi). reflexivity.
Qed.

Lemma move_row_down_at w i pre a b post row_count :
  nth_error (ocr_results w) i = Some (pre ++ a :: b :: post) ->
  row_count = Z.of_nat (length (pre ++ a :: b :: post)) ->
  move_row_down (Z.of_nat i) (Z.of_nat (length pre)) row_count w
  = Returned (rewritten w i (pre ++ b :: a :: post)).
Proof.
  intros Hi Hcount.
  unfold move_row_down, suppress_cell_update_handling, move_row_down_body.
  rewrite not_minus_one.
  replace (Z.of_nat (length pre) =? row_count - 1) with false.
  2:{ symmetry; apply Z.eqb_neq. subst row_count.
      rewrite length_app. simpl. lia. }
  cbn [orb].
  rewrite (current_image_nat (set_awaiting false w) i _ Hi). cbn [try_with].
  rewrite (pop_nat _ _ _ (nth_error_middle pre a (b :: post))). cbn [try_with fst snd].
  rewrite remove_nth_middle.
  replace (pre ++ b :: post) with ((pre ++ [b]) ++ post)
    by (rewrite <- app_assoc; reflexivity).
  replace (Z.of_nat (length pre) + 1) with (Z.of_nat (length (pre ++ [b])))
    by (rewrite length_app; simpl; lia).
  rewrite insert_middle. rewrite <- app_assoc. simpl.
  rewrite (store_current_nat (set_awaiting false w) i _ _ Hi). reflexivity.
Qed.

(** X15: moving a row up swaps it with the row above, moving it down swaps
    it with the row below, nothing else in the set moves and no record
    changes; moving a row up and then down again gives the set back; the
    first row cannot move up, the last cannot move down, and without a
    selection neither does anything. *)
Theorem move_rows_swap_neighbours w (i : nat) pre a b post :
  nth_error (ocr_results w) i = Some (pre ++ a :: b :: post) ->
  (exists w_up w_back,
     move_row_up (Z.of_nat i) (Z.of_nat (S (length pre))) w = Returned w_up /\
     nth_error (ocr_results w_up) i = Some (pre ++ b :: a :: post) /\
     move_row_down (Z.of_nat i) (Z.of_nat (length pre))
       (Z.of_nat (length (pre ++ a :: b :: post))) w_up = Returned w_back /\
     ocr_results w_back = ocr_results w) /\
  (exists w_down,
     move_row_down (Z.of_nat i) (Z.of_nat (length pre))
       (Z.of_nat (length (pre ++ a :: b :: post))) w = Returned w_down /\
     nth_error (ocr_results w_down) i = Some (pre ++ b :: a :: post)) /\
  (forall image_row row_count,
     move_row_up image_row 0 w = Returned (set_awaiting true w) /\
     move_row_up image_row (-1) w = Returned (set_awaiting true w) /\
     move_row_down image_row (row_count - 1) row_count w
       = Returned (set_awaiting true w) /\
     move_row_down image_row (-1) row_count w = Returned (set_awaiting true w)).
Proof.
  intros Hi. split; [|split].
  - pose proof (move_row_up_at w i pre a b post Hi) as Hup.
    assert (Hi' : nth_error (ocr_results (rewritten w i (pre ++ b :: a :: post))) i
                  = Some (pre ++ b :: a :: post))
      by (eapply rewritten_row; eassumption).
    pose proof (move_row_down_at _ i pre b a post
                  (Z.of_nat (length (pre ++ a :: b :: post))) Hi') as Hdown.
    do 2 eexists. split; [exact Hup|]. split; [exact Hi'|]. split.
    + apply Hdown. rewrite !length_app. reflexivity.
    + rewrite (rewritten_twice w i _ _ _ Hi). unfold rewritten; simpl.
      apply replace_nth_same. exact Hi.
  - eexists. split; [apply move_row_down_at; [exact Hi | reflexivity]|].
    eapply rewritten_row; eassumption.
  - intros image_row row_count.
    unfold move_row_up, move_row_down, suppress_cell_update_handling,
      move_row_up_body, move_row_down_body.
    rewrite (Z.eqb_refl (row_count - 1)), !orb_true_r.
    destruct w; repeat split; reflexivity.
Qed.

Lemma move_rows_swap_neighbours_witness :
  exists w_up,
    move_row_up 0 1
      (mkWindow []
         [[mkOCRResult "p.png" "a" (mkBox 0 0 1 1) "1" Normal;
           mkOCRResult "p.png" "b" (mkBox 2 2 3 3) "2" Normal]] true [])
    = Returned w_up /\
    nth_error (ocr_results w_up) 0
    = Some [mkOCRResult "p.png" "b" (mkBox 2 2 3 3) "2" Normal;
            mkOCRResult "p.png" "a" (mkBox 0 0 1 1) "1" Normal].
Proof.
  destruct (move_rows_swap_neighbours
              (mkWindow []
                 [[mkOCRResult "p.png" "a" (mkBox 0 0 1 1) "1" Normal;
                   mkOCRResult "p.png" "b" (mkBox 2 2 3 3) "2" Normal]] true [])
              0 []
              (mkOCRResult "p.png" "a" (mkBox 0 0 1 1) "1" Normal)
              (mkOCRResult "p.png" "b" (mkBox 2 2 3 3) "2" Normal) [] eq_refl)
    as ((w_up & w_back & Hup & Hrow & _) & _).
  exists w_up. split; [exact Hup | exact Hrow].
Defined.

(** ** Whole-image reset and new bubbles *)

(** X16: a confirmed whole-image reset replaces the working set of the
    image by the expansion of its frozen snapshot, whatever the set held,
    and leaves the other images alone; collapsing the set then gives the
    snapshot's triples again, and a second reset changes nothing; a
    cancelled reset changes nothing. *)
Theorem reset_all_bubbles_restores w (i : nat) original_analytic results :
  nth_error (ocr_analytics w) i = Some original_analytic ->
  nth_error (ocr_results w) i = Some results ->
  (exists w',
     reset_all_bubbles false (Z.of_nat i) w = Returned w' /\
     nth_error (ocr_results w') i = Some (bubbles_of_analytic original_analytic) /\
     (forall i', i' <> i ->
        nth_error (ocr_results w') i' = nth_error (ocr_results w) i') /\
     removed_box_data_of_results (bubbles_of_analytic original_analytic)
     = removed_box_data original_analytic /\
     reset_all_bubbles false (Z.of_nat i) w' = Returned w') /\
  reset_all_bubbles true (Z.of_nat i) w = Returned (set_awaiting true w).
Proof.
  intros Ha Hi. split.
  - assert (Hrun : forall v, ocr_analytics v = ocr_analytics w ->
                     nth_error (ocr_results v) i <> None ->
                     reset_all_bubbles false (Z.of_nat i) v
                     = Returned (rewritten v i (bubbles_of_analytic original_analytic))).
    { intros v Hv Hrow.
      destruct (nth_error (ocr_results v) i) as [rs|] eqn:Hrs; [|congruence].
      unfold reset_all_bubbles, suppress_cell_update_handling, reset_all_bubbles_body.
      rewrite (getitem_nat (ocr_analytics (set_awaiting false v)) i original_analytic)
        by (simpl; rewrite Hv; exact Ha).
      cbn [try_with].
      change (PyList.getitem (convert_ocr_analytics_to_results [original_analytic]) 0)
        with (Ok (bubbles_of_analytic original_analytic)).
      cbn [try_with].
      rewrite (store_current_nat (set_awaiting false v) i rs _ Hrs). reflexivity. }
    exists (rewritten w i (bubbles_of_analytic original_analytic)).
    split; [apply Hrun; [reflexivity | congruence]|].
    split; [eapply rewritten_row; eassumption|].
    split; [intros i' Hne; now apply rewritten_other_rows|].
    split; [apply removed_box_data_of_bubbles|].
    rewrite Hrun.
    + rewrite (rewritten_twice w i results) by exact Hi. reflexivity.
    + reflexivity.
    + erewrite rewritten_row by eassumption. discriminate.
  - unfold reset_all_bubbles, suppress_cell_update_handling, reset_all_bubbles_body.
    destruct w; reflexivity.
Qed.

Lemma reset_all_bubbles_restores_witness :
  exists w',
    reset_all_bubbles false 0
      (mkWindow
         [mkOCRAnalytic 1 [] [] [("p.png"%string, "hello"%string, mkBox 0 0 10 10)]]
         [[]] true [])
    = Returned w' /\
    nth_error (ocr_results w') 0
    = Some [mkOCRResult "p.png" "hello" (mkBox 0 0 10 10) "1" Normal].
Proof.
  destruct (reset_all_bubbles_restores
              (mkWindow
                 [mkOCRAnalytic 1 [] [] [("p.png"%string, "hello"%string, mkBox 0 0 10 10)]]
                 [[]] true [])
              0 (mkOCRAnalytic 1 [] [] [("p.png"%string, "hello"%string, mkBox 0 0 10 10)])
              [] eq_refl eq_refl) as ((w' & Hrun & Hrow & _) & _).
  exists w'. split; [exact Hrun | exact Hrow].
Defined.

Lemma add_new_bubble_at tr w i first rest xa ya xb yb :
  nth_error (ocr_results w) i = Some (first :: rest) ->
  MIN_BUBBLE_SIZE <= area (mkBox xa ya xb yb) ->
  add_new_bubble tr (Z.of_nat i) ((xa, ya), (xb, yb)) w
  = Returned
      (rewritten w i
         ((first :: rest)
            ++ [mkOCRResult (path first) "" (mkBox xa ya xb yb)
                  (tr "New" ++ " " ++ py_str (count_new (first :: rest) + 1))%string
                  New])).
Proof.
  intros Hi Harea.
  unfold add_new_bubble, suppress_cell_update_handling, add_new_bubble_body.
  replace (area (mkBox xa ya xb yb) <? MIN_BUBBLE_SIZE) with false
    by (symmetry; apply Z.ltb_ge; exact Harea).
  rewrite (current_image_nat (set_awaiting false w) i _ Hi). cbn [try_with].
  change (PyList.getitem (first :: rest) 0) with (Ok first). cbn [try_with].
  rewrite (store_current_nat (set_awaiting false w) i _ _ Hi). reflexivity.
Qed.

Lemma count_new_app (l : list OCRResult) (r : OCRResult) :
  status r = New -> count_new (l ++ [r]) = count_new l + 1.
Proof.
  intros Hr. unfold count_new. rewrite filter_app, length_app. simpl.
  rewrite Hr. simpl. lia.
Qed.

(** X17: the label of a new bubble is numbered by the count of [New]
    records at the time, so numbers come back: after two bubbles are added
    and the first of them is deleted, the next bubble added gets the label
    the second one already has. *)
Theorem new_labels_repeat tr w (i : nat) first rest
    (xa ya xb yb : Z) :
  nth_error (ocr_results w) i = Some (first :: rest) ->
  MIN_BUBBLE_SIZE <= area (mkBox xa ya xb yb) ->
  exists w1 w2 w3 w4 second third,
    add_new_bubble tr (Z.of_nat i) ((xa, ya), (xb, yb)) w = Returned w1 /\
    add_new_bubble tr (Z.of_nat i) ((xa, ya), (xb, yb)) w1 = Returned w2 /\
    delete_bubble (Z.of_nat i) (Z.of_nat (length (first :: rest))) w2 = Returned w3 /\
    add_new_bubble tr (Z.of_nat i) ((xa, ya), (xb, yb)) w3 = Returned w4 /\
    nth_error (ocr_results w4) i = Some ((first :: rest) ++ [second; third]) /\
    status second = New /\ status third = New /\
    label second = label third.
Proof.
  intros Hi Harea.
  set (results := first :: rest) in *.
  set (bx := mkBox xa ya xb yb) in *.
  set (n := count_new results).
  set (r1 := mkOCRResult (path first) "" bx (tr "New" ++ " " ++ py_str (n + 1))%string New).
  set (r2 := mkOCRResult (path first) "" bx (tr "New" ++ " " ++ py_str (n + 1 + 1))%string New).
  pose proof (add_new_bubble_at tr w i first rest xa ya xb yb Hi Harea) as H1.
  fold results bx n r1 in H1.
  assert (Hi1 : nth_error (ocr_results (rewritten w i (results ++ [r1]))) i
                = Some (first :: rest ++ [r1]))
    by (eapply rewritten_row; eassumption).
  pose proof (add_new_bubble_at tr _ i first (rest ++ [r1]) xa ya xb yb Hi1 Harea) as H2.
  change (first :: rest ++ [r1]) with (results ++ [r1]) in H2.
  rewrite (count_new_app results r1 eq_refl) in H2.
  fold bx n r2 in H2.
  rewrite (rewritten_twice w i results) in H2 by exact Hi.
  rewrite <- app_assoc in H2. simpl in H2.
  assert (Hi2 : nth_error (ocr_results (rewritten w i (results ++ [r1; r2]))) i
                = Some (results ++ [r1; r2]))
    by (eapply rewritten_row; eassumption).
  pose proof (delete_bubble_at _ i (length results) (results ++ [r1; r2]) r1 Hi2
                (nth_error_middle results r1 [r2])) as H3.
  cbn [status r1] in H3.
  rewrite remove_nth_middle in H3.
  rewrite (rewritten_twice w i results) in H3 by exact Hi.
  assert (Hi3 : nth_error (ocr_results (rewritten w i (results ++ [r2]))) i
                = Some (first :: rest ++ [r2]))
    by (eapply rewritten_row; eassumption).
  pose proof (add_new_bubble_at tr _ i first (rest ++ [r2]) xa ya xb yb Hi3 Harea) as H4.
  change (first :: rest ++ [r2]) with (results ++ [r2]) in H4.
  rewrite (count_new_app results r2 eq_refl) in H4.
  fold bx n in H4.
  rewrite (rewritten_twice w i results) in H4 by exact Hi.
  rewrite <- app_assoc in H4. simpl in H4.
  do 4 eexists. exists r2. eexists.
  split; [exact H1|]. split; [exact H2|]. split; [exact H3|]. split; [exact H4|].
  split; [eapply rewritten_row; eassumption|].
  repeat split; reflexivity.
Qed.

Lemma new_labels_repeat_witness :
  exists w1 w2 w3 w4 second third,
    add_new_bubble (fun s => s) 0 ((0, 0), (20, 20))
      (mkWindow [] [[mkOCRResult "p.png" "a" (mkBox 0 0 1 1) "1" Normal]] true [])
    = Returned w1 /\
    add_new_bubble (fun s => s) 0 ((0, 0), (20, 20)) w1 = Returned w2 /\
    delete_bubble 0 1 w2 = Returned w3 /\
    add_new_bubble (fun s => s) 0 ((0, 0), (20, 20)) w3 = Returned w4 /\
    nth_error (ocr_results w4) 0
    = Some ([mkOCRResult "p.png" "a" (mkBox 0 0 1 1) "1" Normal] ++ [second; third]) /\
    status second = New /\ status third = New /\
    label second = label third.
Proof.
  apply (new_labels_repeat (fun s => s)
           (mkWindow [] [[mkOCRResult "p.png" "a" (mkBox 0 0 1 1) "1" Normal]] true [])
           0 (mkOCRResult "p.png" "a" (mkBox 0 0 1 1) "1" Normal) [] 0 0 20 20).
  - reflexivity.
  - unfold MIN_BUBBLE_SIZE, area; simpl; lia.
Defined.

(** ** Invariants of every slot *)

Ltac slot_unfold :=
  unfold run_event, delete_bubble, reset_single_bubble, reset_all_bubbles,
    move_row_up, move_row_down, add_new_bubble, handle_table_edited,
    delete_bubble_body, reset_single_bubble_body,
    reset_all_bubbles_body, move_row_up_body, move_row_down_body,
    add_new_bubble_body, load_ocr_results, suppress_cell_update_handling,
    store_current, try_with, result_bind.

Ltac slot_cases :=
  repeat match goal with
         | |- context [match ?x with _ => _ end] =>
             match x with
             | context [match _ with _ => _ end] => fail 1
             | _ => destruct x eqn:?
             end
         end.

Lemma run_event_keeps_analytics (ev : Event) (w : OcrReviewWindow) :
  ocr_analytics (window_of (run_event ev w)) = ocr_analytics w.
Proof. destruct ev; slot_unfold; simpl; slot_cases; simpl; reflexivity. Qed.

Lemma run_event_raise_keeps_results (ev : Event) (w : OcrReviewWindow) e w' :
  run_event ev w = Raised e w' -> ocr_results w' = ocr_results w.
Proof.
  destruct ev; slot_unfold; simpl; slot_cases; simpl;
    intros H; inversion H; subst; reflexivity.
Qed.

(** X18: no slot ever changes the frozen analytics, whatever its arguments
    and whether it returns or raises, so they are the same all through a
    session; and a slot that raises has changed no annotation set either. *)
Theorem analytics_are_frozen (analytics : list OCRAnalytic) (w : OcrReviewWindow) :
  (forall ev, ocr_analytics (window_of (run_event ev w)) = ocr_analytics w) /\
  (forall ev e w', run_event ev w = Raised e w' -> ocr_results w' = ocr_results w) /\
  (reachable analytics w -> ocr_analytics w = analytics).
Proof.
  split; [intros ev; apply run_event_keeps_analytics|].
  split; [intros ev e w'; apply run_event_raise_keeps_results|].
  induction 1 as [|v ev Hv IH]; [reflexivity|].
  rewrite run_event_keeps_analytics. exact IH.
Qed.

Lemma analytics_are_frozen_witness :
  ocr_analytics
    (window_of
       (run_event (DeleteBubble 0 0)
          (init_window
             [mkOCRAnalytic 1 [] [] [("p.png"%string, "a"%string, mkBox 0 0 1 1)]])))
  = [mkOCRAnalytic 1 [] [] [("p.png"%string, "a"%string, mkBox 0 0 1 1)]].
Proof.
  apply (proj2 (proj2 (analytics_are_frozen
                         [mkOCRAnalytic 1 [] [] [("p.png"%string, "a"%string, mkBox 0 0 1 1)]]
                         (window_of
                            (run_event (DeleteBubble 0 0)
                               (init_window
                                  [mkOCRAnalytic 1 [] []
                                     [("p.png"%string, "a"%string, mkBox 0 0 1 1)]])))))).
  apply reachable_step. apply reachable_init.
Defined.

(** X19: a decorated slot that returns leaves the flag raised; one that
    raises leaves it lowered, because the decorator restores it only after
    the method returned, and from then on text edits are ignored until some
    decorated slot returns again. *)
Theorem raised_slot_mutes_edits (ev : Event) (w : OcrReviewWindow) :
  decorated ev = true ->
  (forall w', run_event ev w = Returned w' -> awaiting_user_input w' = true) /\
  (forall e w', run_event ev w = Raised e w' ->
     awaiting_user_input w' = false /\
     forall image_row new_text row col,
       handle_table_edited image_row new_text row col w' = Returned w').
Proof.
  intros Hdec. split.
  - intros w'. destruct ev; try discriminate; slot_unfold; simpl; slot_cases; simpl;
      intros H; inversion H; subst; reflexivity.
  - assert (Hflag : forall e w', run_event ev w = Raised e w' ->
                      awaiting_user_input w' = false).
    { intros e w'. destruct ev; try discriminate; slot_unfold; simpl; slot_cases;
        simpl; intros H; inversion H; subst; reflexivity. }
    intros e w' H. pose proof (Hflag e w' H) as Hlow. split; [exact Hlow|].
    intros image_row new_text row col. unfold handle_table_edited.
    rewrite Hlow. reflexivity.
Qed.

Lemma raised_slot_mutes_edits_witness :
  exists w',
    add_new_bubble (fun s => s) 0 ((0, 0), (20, 20)) (mkWindow [] [[]] true [])
    = Raised IndexError w' /\
    handle_table_edited 0 "typed" 0 1 w' = Returned w'.
Proof.
  exists (mkWindow [] [[]] false []).
  split; [reflexivity|].
  apply (proj2 (raised_slot_mutes_edits
                  (AddNewBubble (fun s => s) 0 ((0, 0), (20, 20)))
                  (mkWindow [] [[]] true []) eq_refl) IndexError).
  reflexivity.
Defined.

(** ** Labels along a review session *)

Section RowFacts.
Context {A : Type}.

Lemma norm_index_same_length {B} (l : list A) (l' : list B) (i : Z) :
  length l = length l' -> PyList.norm_index l i = PyList.norm_index l' i.
Proof. intros H. unfold PyList.norm_index. rewrite H. reflexivity. Qed.

Lemma setitem_Ok (l : list A) (i : Z) (v : A) (l' : list A) :
  PyList.setitem l i v = Ok l' ->
  exists j, PyList.norm_index l i = Some j /\ l' = PyList.replace_nth j v l.
Proof.
  unfold PyList.setitem. destruct (PyList.norm_index l i) as [j|]; [|discriminate].
  intros H; inversion H; eauto.
Qed.

Lemma pop_Ok (l : list A) (i : Z) (x : A) (rest : list A) :
  PyList.pop l i = Ok (x, rest) ->
  exists j, nth_error l j = Some x /\ rest = PyList.remove_nth j l.
Proof.
  unfold PyList.pop. destruct (PyList.norm_index l i) as [j|]; [|discriminate].
  destruct (nth_error l j) eqn:E; [|discriminate].
  intros H; inversion H; subst; eauto.
Qed.

Lemma Forall_replace_nth (P : A -> Prop) (l : list A) j v :
  Forall P l -> P v -> Forall P (PyList.replace_nth j v l).
Proof.
  intros Hl Hv. revert j. induction Hl as [|x l Hx Hl IH]; intros [|j]; simpl;
    constructor; auto.
Qed.

Lemma Forall_remove_nth (P : A -> Prop) (l : list A) j :
  Forall P l -> Forall P (PyList.remove_nth j l).
Proof.
  intros Hl. revert j. induction Hl as [|x l Hx Hl IH]; intros [|j]; simpl;
    try constructor; auto.
Qed.

Lemma Forall_insert (P : A -> Prop) (l : list A) (i : Z) (x : A) :
  Forall P l -> P x -> Forall P (PySeq.insert l i x).
Proof.
  intros Hl Hx. unfold PySeq.insert.
  set (n := Z.to_nat _). clearbody n.
  rewrite Forall_forall in *. intros y Hy.
  apply in_app_or in Hy. destruct Hy as [Hy|[<-|Hy]]; auto.
  - apply Hl. revert Hy. clear. revert n.
    induction l as [|h t IH]; intros [|n]; simpl; try tauto.
    intros [->|Hy]; [left; reflexivity | right; eapply IH; eauto].
  - apply Hl. revert Hy. clear. revert n.
    induction l as [|h t IH]; intros [|n]; simpl; try tauto.
    intros Hy. right. eapply IH; eauto.
Qed.

Lemma Forall_nth_error (P : A -> Prop) (l : list A) j x :
  Forall P l -> nth_error l j = Some x -> P x.
Proof.
  intros Hl Hj. rewrite Forall_forall in Hl. apply Hl.
  eapply nth_error_In; eauto.
Qed.
End RowFacts.

Lemma Forall2_replace_nth {A B} (R : A -> B -> Prop) (la : list A) (lb : list B)
    i a b' :
  Forall2 R la lb -> nth_error la i = Some a -> R a b' ->
  Forall2 R la (PyList.replace_nth i b' lb).
Proof.
  intros H. revert i. induction H as [|x y la lb Hxy H IH]; intros [|i] Ha Hb;
    simpl in *; try discriminate.
  - inversion Ha; subst. constructor; auto.
  - constructor; auto.
Qed.

Lemma Forall2_nth_error {A B} (R : A -> B -> Prop) (la : list A) (lb : list B)
    i b :
  Forall2 R la lb -> nth_error lb i = Some b ->
  exists a, nth_error la i = Some a /\ R a b.
Proof.
  intros H. revert i. induction H as [|x y la lb Hxy H IH]; intros [|i] Hb;
    simpl in *; try discriminate.
  - inversion Hb; subst. eauto.
  - apply IH. exact Hb.
Qed.

Lemma invariant_unchanged w w' :
  ocr_analytics w' = ocr_analytics w -> ocr_results w' = ocr_results w ->
  session_invariant w -> session_invariant w'.
Proof. unfold session_invariant. intros -> ->. auto. Qed.

(** The current row together with its snapshot. *)
Lemma invariant_current w image_row results :
  session_invariant w ->
  PyList.getitem (ocr_results w) image_row = Ok results ->
  exists i a,
    PyList.norm_index (ocr_results w) image_row = Some i /\
    nth_error (ocr_results w) i = Some results /\
    nth_error (ocr_analytics w) i = Some a /\
    PyList.getitem (ocr_analytics w) image_row = Ok a /\
    labels_known a results.
Proof.
  intros Hinv Hget. apply getitem_Ok in Hget. destruct Hget as (i & Hi & Hrow).
  destruct (Forall2_nth_error _ _ _ _ _ Hinv Hrow) as (a & Ha & Hknown).
  exists i, a. repeat split; auto.
  unfold PyList.getitem.
  rewrite (norm_index_same_length (ocr_analytics w) (ocr_results w))
    by (eapply Forall2_length; eauto).
  rewrite Hi, Ha. reflexivity.
Qed.

Lemma invariant_store w image_row results rs' all i a :
  session_invariant w ->
  PyList.norm_index (ocr_results w) image_row = Some i ->
  nth_error (ocr_analytics w) i = Some a ->
  labels_known a rs' ->
  PyList.setitem (ocr_results w) image_row rs' = Ok all ->
  nth_error (ocr_results w) i = Some results ->
  Forall2 labels_known (ocr_analytics w) all.
Proof.
  intros Hinv Hi Ha Hknown Hset _. apply setitem_Ok in Hset.
  destruct Hset as (j & Hj & ->). rewrite Hi in Hj. inversion Hj; subst j.
  eapply Forall2_replace_nth; eauto.
Qed.

Lemma bubbles_known (a : OCRAnalytic) : labels_known a (bubbles_of_analytic a).
Proof.
  unfold labels_known. apply Forall_forall. intros r Hr. right.
  apply in_map. exact Hr.
Qed.

Lemma first_row_with_label_found (start : Z) (wanted : string)
    (results : list OCRResult) :
  In wanted (map label results) ->
  exists k o,
    first_row_with_label start wanted results = Ok (start + Z.of_nat k) /\
    nth_error results k = Some o.
Proof.
  revert start; induction results as [|r rest IH]; intros start Hin; [destruct Hin|].
  simpl. destruct (String.eqb_spec (label r) wanted) as [E|E].
  - exists 0%nat, r. split; [f_equal; lia | reflexivity].
  - destruct Hin as [Hin|Hin]; [congruence|].
    destruct (IH (start + 1) Hin) as (k & o & Hk & Ho).
    exists (S k), o. split; [rewrite Hk; f_equal; lia | exact Ho].
Qed.

Lemma known_with_status a r s :
  status r <> New -> known a r -> known a (with_status s r).
Proof. intros Hn [H|H]; [congruence|]. right. exact H. Qed.

Lemma invariant_delete_bubble w image_row selected_row :
  session_invariant w ->
  session_invariant (window_of (delete_bubble image_row selected_row w)).
Proof.
  intros Hinv.
  unfold delete_bubble, suppress_cell_update_handling, delete_bubble_body,
    current_image_ocr_results, load_ocr_results, suppress_cell_update_handling.
  destruct (selected_row =? -1); [exact Hinv|]. simpl.
  destruct (PyList.getitem (ocr_results w) image_row) as [results|e] eqn:Hrow;
    simpl; [|exact Hinv].
  destruct (PyList.getitem results selected_row) as [r|e] eqn:Hrec;
    simpl; [|exact Hinv].
  destruct (invariant_current w image_row results Hinv Hrow)
    as (i & a & Hi & Hrow' & Ha & _ & Hknown).
  pose proof Hrec as Hrec'. apply getitem_Ok in Hrec'.
  destruct Hrec' as (j & _ & Hj).
  assert (Hr : known a r) by (eapply Forall_nth_error; eauto).
  destruct (status r) eqn:Est;
    match goal with
    | |- context [try_with _ ?upd _] => destruct upd as [rs'|e] eqn:Hupd
    end; simpl; try exact Hinv;
    unfold store_current; simpl;
    (destruct (PyList.setitem (ocr_results w) image_row rs') as [all|e] eqn:Hst;
     simpl; [|exact Hinv]);
    unfold session_invariant; simpl;
    (eapply invariant_store; [exact Hinv | exact Hi | exact Ha | | exact Hst | exact Hrow']).
  all: try (apply setitem_Ok in Hupd; destruct Hupd as (j' & _ & ->);
            apply Forall_replace_nth; [exact Hknown|];
            apply known_with_status; [congruence | exact Hr]).
  unfold result_bind in Hupd.
  destruct (PyList.pop results selected_row) as [[x rest]|e] eqn:Hpop; [|discriminate].
  inversion Hupd; subst rs'. simpl.
  apply pop_Ok in Hpop. destruct Hpop as (j' & _ & ->).
  apply Forall_remove_nth. exact Hknown.
Qed.

Lemma invariant_handle_table_edited w image_row new_text row col :
  session_invariant w ->
  session_invariant (window_of (handle_table_edited image_row new_text row col w)).
Proof.
  intros Hinv.
  unfold handle_table_edited, current_image_ocr_results, load_ocr_results,
    suppress_cell_update_handling.
  destruct (negb (awaiting_user_input w)); [exact Hinv|].
  destruct (negb (col =? 1)); [exact Hinv|]. simpl.
  destruct (PyList.getitem (ocr_results w) image_row) as [results|e] eqn:Hrow;
    simpl; [|exact Hinv].
  destruct (PyList.getitem results row) as [r|e] eqn:Hrec; simpl; [|exact Hinv].
  destruct (invariant_current w image_row results Hinv Hrow)
    as (i & a & Hi & Hrow' & Ha & _ & Hknown).
  pose proof Hrec as Hrec'. apply getitem_Ok in Hrec'.
  destruct Hrec' as (j & _ & Hj).
  assert (Hr : known a r) by (eapply Forall_nth_error; eauto).
  match goal with
  | |- context [try_with _ ?upd _] => destruct upd as [rs'|e] eqn:Hupd
  end; simpl; [|exact Hinv].
  unfold store_current; simpl.
  destruct (PyList.setitem (ocr_results w) image_row rs') as [all|e] eqn:Hst;
    simpl; [|exact Hinv].
  unfold session_invariant; simpl.
  eapply invariant_store; [exact Hinv | exact Hi | exact Ha | | exact Hst | exact Hrow'].
  apply setitem_Ok in Hupd. destruct Hupd as (j' & _ & ->).
  apply Forall_replace_nth; [exact Hknown|].
  destruct Hr as [Hr|Hr].
  - left. destruct r as [p t b l s]; simpl in *; subst s; reflexivity.
  - right. destruct r as [p t b l s]; destruct s; exact Hr.
Qed.

Lemma invariant_reset_single_bubble w image_row selected_row :
  session_invariant w ->
  session_invariant (window_of (reset_single_bubble image_row selected_row w)).
Proof.
  intros Hinv.
  unfold reset_single_bubble, suppress_cell_update_handling, reset_single_bubble_body,
    current_image_ocr_results, load_ocr_results, suppress_cell_update_handling.
  destruct (selected_row =? -1); [exact Hinv|]. simpl.
  destruct (PyList.getitem (ocr_results w) image_row) as [results|e] eqn:Hrow;
    simpl; [|exact Hinv].
  destruct (PyList.getitem results selected_row) as [r|e] eqn:Hrec;
    simpl; [|exact Hinv].
  destruct (negb (is_edited (status r))); [exact Hinv|].
  destruct (invariant_current w image_row results Hinv Hrow)
    as (i & a & Hi & Hrow' & Ha & Hget & Hknown).
  simpl. rewrite Hget. simpl.
  change (PyList.getitem (convert_ocr_analytics_to_results [a]) 0)
    with (Ok (bubbles_of_analytic a)).
  simpl.
  destruct (first_row_with_label 0 (label r) (bubbles_of_analytic a))
    as [original_row|e] eqn:Hfirst; simpl; [|exact Hinv].
  destruct (PyList.getitem (bubbles_of_analytic a) original_row)
    as [original|e] eqn:Horig; simpl; [|exact Hinv].
  destruct (PyList.setitem results selected_row original) as [rs'|e] eqn:Hupd;
    simpl; [|exact Hinv].
  unfold store_current; simpl.
  destruct (PyList.setitem (ocr_results w) image_row rs') as [all|e] eqn:Hst;
    simpl; [|exact Hinv].
  unfold session_invariant; simpl.
  eapply invariant_store; [exact Hinv | exact Hi | exact Ha | | exact Hst | exact Hrow'].
  apply setitem_Ok in Hupd. destruct Hupd as (j' & _ & ->).
  apply Forall_replace_nth; [exact Hknown|].
  right. apply in_map. apply getitem_Ok in Horig.
  destruct Horig as (k & _ & Hk). eapply nth_error_In; eauto.
Qed.

Lemma invariant_reset_all_bubbles w cancelled image_row :
  session_invariant w ->
  session_invariant (window_of (reset_all_bubbles cancelled image_row w)).
Proof.
  intros Hinv.
  unfold reset_all_bubbles, suppress_cell_update_handling, reset_all_bubbles_body,
    load_ocr_results, suppress_cell_update_handling.
  destruct cancelled; [exact Hinv|]. simpl.
  destruct (PyList.getitem (ocr_analytics w) image_row) as [a|e] eqn:Hget;
    simpl; [|exact Hinv].
  change (PyList.getitem (convert_ocr_analytics_to_results [a]) 0)
    with (Ok (bubbles_of_analytic a)).
  simpl. unfold store_current; simpl.
  destruct (PyList.setitem (ocr_results w) image_row (bubbles_of_analytic a))
    as [all|e] eqn:Hst; simpl; [|exact Hinv].
  unfold session_invariant; simpl.
  pose proof Hst as Hst'. apply setitem_Ok in Hst'. destruct Hst' as (i & Hi & ->).
  apply getitem_Ok in Hget. destruct Hget as (i' & Hi' & Ha).
  rewrite (norm_index_same_length (ocr_analytics w) (ocr_results w)) in Hi'
    by (eapply Forall2_length; eauto).
  rewrite Hi in Hi'. inversion Hi'; subst i'.
  eapply Forall2_replace_nth; [exact Hinv | exact Ha | apply bubbles_known].
Qed.

Lemma invariant_moved w image_row selected_row target results popped :
  session_invariant w ->
  PyList.getitem (ocr_results w) image_row = Ok results ->
  PyList.pop results selected_row = Ok popped ->
  session_invariant
    (window_of
       match
         try_with (set_awaiting false w)
           (store_current image_row
              (PySeq.insert (snd popped) target (fst popped)) (set_awaiting false w))
           (fun w' => load_ocr_results
                        (PySeq.insert (snd popped) target (fst popped)) w')
       with
       | Returned w' => Returned (set_awaiting true w')
       | Raised e w' => Raised e w'
       end).
Proof.
  intros Hinv Hrow Hpop.
  destruct (invariant_current w image_row results Hinv Hrow)
    as (i & a & Hi & Hrow' & Ha & _ & Hknown).
  unfold store_current, load_ocr_results, suppress_cell_update_handling; simpl.
  destruct (PyList.setitem (ocr_results w) image_row
              (PySeq.insert (snd popped) target (fst popped)))
    as [all|e] eqn:Hst; simpl; [|exact Hinv].
  unfold session_invariant; simpl.
  eapply invariant_store; [exact Hinv | exact Hi | exact Ha | | exact Hst | exact Hrow'].
  destruct popped as [x rest]. apply pop_Ok in Hpop.
  destruct Hpop as (j & Hj & ->). simpl.
  unfold labels_known in *. apply Forall_insert.
  - apply Forall_remove_nth. exact Hknown.
  - exact (Forall_nth_error _ results j x Hknown Hj).
Qed.

Lemma invariant_move_row_up w image_row selected_row :
  session_invariant w ->
  session_invariant (window_of (move_row_up image_row selected_row w)).
Proof.
  intros Hinv.
  unfold move_row_up, suppress_cell_update_handling, move_row_up_body,
    current_image_ocr_results.
  destruct ((selected_row =? -1) || (selected_row =? 0)); [exact Hinv|]. simpl.
  destruct (PyList.getitem (ocr_results w) image_row) as [results|e] eqn:Hrow;
    simpl; [|exact Hinv].
  destruct (PyList.pop results selected_row) as [popped|e] eqn:Hpop;
    simpl; [|exact Hinv].
  exact (invariant_moved w image_row selected_row _ results popped Hinv Hrow Hpop).
Qed.

Lemma invariant_move_row_down w image_row selected_row row_count :
  session_invariant w ->
  session_invariant (window_of (move_row_down image_row selected_row row_count w)).
Proof.
  intros Hinv.
  unfold move_row_down, suppress_cell_update_handling, move_row_down_body,
    current_image_ocr_results.
  destruct ((selected_row =? -1) || (selected_row =? row_count - 1)); [exact Hinv|].
  simpl.
  destruct (PyList.getitem (ocr_results w) image_row) as [results|e] eqn:Hrow;
    simpl; [|exact Hinv].
  destruct (PyList.pop results selected_row) as [popped|e] eqn:Hpop;
    simpl; [|exact Hinv].
  exact (invariant_moved w image_row selected_row _ results popped Hinv Hrow Hpop).
Qed.

Lemma invariant_add_new_bubble w tr image_row rect :
  session_invariant w ->
  session_invariant (window_of (add_new_bubble tr image_row rect w)).
Proof.
  intros Hinv. destruct rect as [[xa ya] [xb yb]].
  unfold add_new_bubble, suppress_cell_update_handling, add_new_bubble_body,
    current_image_ocr_results, load_ocr_results, suppress_cell_update_handling.
  destruct (area (mkBox xa ya xb yb) <? MIN_BUBBLE_SIZE); [exact Hinv|]. simpl.
  destruct (PyList.getitem (ocr_results w) image_row) as [results|e] eqn:Hrow;
    simpl; [|exact Hinv].
  destruct (PyList.getitem results 0) as [first|e] eqn:Hfirst; simpl; [|exact Hinv].
  destruct (invariant_current w image_row results Hinv Hrow)
    as (i & a & Hi & Hrow' & Ha & _ & Hknown).
  unfold store_current; simpl.
  match goal with
  | |- context [PyList.setitem (ocr_results w) image_row ?rs] =>
      destruct (PyList.setitem (ocr_results w) image_row rs) as [all|e] eqn:Hst
  end; simpl; [|exact Hinv].
  unfold session_invariant; simpl.
  eapply invariant_store; [exact Hinv | exact Hi | exact Ha | | exact Hst | exact Hrow'].
  apply Forall_app. split; [exact Hknown|].
  constructor; [left; reflexivity | constructor].
Qed.

Lemma invariant_step (ev : Event) (w : OcrReviewWindow) :
  session_invariant w -> session_invariant (window_of (run_event ev w)).
Proof.
  destruct ev; simpl.
  - apply invariant_delete_bubble.
  - apply invariant_reset_single_bubble.
  - apply invariant_reset_all_bubbles.
  - apply invariant_move_row_up.
  - apply invariant_move_row_down.
  - apply invariant_add_new_bubble.
  - apply invariant_handle_table_edited.
Qed.

Lemma invariant_init (analytics : list OCRAnalytic) :
  session_invariant (init_window analytics).
Proof.
  unfold session_invariant, init_window, convert_ocr_analytics_to_results; simpl.
  induction analytics as [|a rest IH]; simpl; constructor; auto.
  apply bubbles_known.
Qed.

Lemma reachable_invariant (analytics : list OCRAnalytic) (w : OcrReviewWindow) :
  reachable analytics w -> session_invariant w.
Proof.
  induction 1 as [|v ev Hv IH]; [apply invariant_init | apply invariant_step; exact IH].
Qed.

Lemma getitem_raises_IndexError {A} (l : list A) (i : Z) e :
  PyList.getitem l i = Raise e -> e = IndexError.
Proof.
  unfold PyList.getitem. destruct (PyList.norm_index l i) as [j|];
    [destruct (nth_error l j)|]; intros H; inversion H; reflexivity.
Qed.

Lemma setitem_raises_IndexError {A} (l : list A) (i : Z) (v : A) e :
  PyList.setitem l i v = Raise e -> e = IndexError.
Proof.
  unfold PyList.setitem. destruct (PyList.norm_index l i) as [j|];
    intros H; inversion H; reflexivity.
Qed.

Lemma reset_single_bubble_outcome w image_row selected_row :
  session_invariant w ->
  (exists w', reset_single_bubble image_row selected_row w = Returned w') \/
  (exists w', reset_single_bubble image_row selected_row w = Raised IndexError w' /\
              (PyList.getitem (ocr_results w) image_row = Raise IndexError \/
               exists results,
                 PyList.getitem (ocr_results w) image_row = Ok results /\
                 PyList.getitem results selected_row = Raise IndexError)).
Proof.
  intros Hinv.
  unfold reset_single_bubble, suppress_cell_update_handling, reset_single_bubble_body,
    current_image_ocr_results, load_ocr_results, suppress_cell_update_handling.
  destruct (selected_row =? -1); [left; eexists; reflexivity|]. simpl.
  destruct (PyList.getitem (ocr_results w) image_row) as [results|e] eqn:Hrow; simpl.
  2:{ right. rewrite (getitem_raises_IndexError _ _ _ Hrow). eexists.
      split; [reflexivity | left; reflexivity]. }
  destruct (PyList.getitem results selected_row) as [r|e] eqn:Hrec; simpl.
  2:{ right. pose proof (getitem_raises_IndexError _ _ _ Hrec); subst e. eexists.
      split; [reflexivity | right; exists results; auto]. }
  destruct (is_edited (status r)) eqn:Hed; simpl; [|left; eexists; reflexivity].
  destruct (invariant_current w image_row results Hinv Hrow)
    as (i & a & Hi & Hrow' & Ha & Hget & Hknown).
  rewrite Hget. simpl.
  change (PyList.getitem (convert_ocr_analytics_to_results [a]) 0)
    with (Ok (bubbles_of_analytic a)).
  simpl.
  pose proof Hrec as Hrec'. apply getitem_Ok in Hrec'.
  destruct Hrec' as (j & Hj & Hnth).
  assert (Hr : In (label r) (map label (bubbles_of_analytic a))).
  { destruct (Forall_nth_error _ _ _ _ Hknown Hnth) as [Hnew|Hin]; [|exact Hin].
    rewrite Hnew in Hed. discriminate. }
  destruct (first_row_with_label_found 0 _ _ Hr) as (k & o & Hfirst & Ho).
  rewrite Hfirst. simpl. rewrite (getitem_nat _ _ _ Ho). simpl.
  unfold PyList.setitem at 1. rewrite Hj. simpl.
  unfold store_current, PyList.setitem. simpl. rewrite Hi. simpl.
  left. eexists. reflexivity.
Qed.

(** X20: in every window a session can reach from its analytics, whatever
    events came before and whether they raised, each record that is not
    [New] still carries the label of an entry of its image's frozen
    snapshot; so the per-record reset always finds the entry it looks for:
    it returns whenever the selected row exists, and the only exception it
    can raise is the [IndexError] of a row that does not exist, never
    [StopIteration]. *)
Theorem reset_single_bubble_finds_label (analytics : list OCRAnalytic)
    (w : OcrReviewWindow) :
  reachable analytics w ->
  Forall2 labels_known analytics (ocr_results w) /\
  (forall image_row selected_row e w',
     reset_single_bubble image_row selected_row w = Raised e w' -> e = IndexError) /\
  (forall (i j : nat) results r,
     nth_error (ocr_results w) i = Some results ->
     nth_error results j = Some r ->
     exists w', reset_single_bubble (Z.of_nat i) (Z.of_nat j) w = Returned w').
Proof.
  intros Hreach.
  pose proof (reachable_invariant _ _ Hreach) as Hinv.
  assert (Han : ocr_analytics w = analytics).
  { clear Hinv. induction Hreach as [|v ev Hv IH]; [reflexivity|].
    rewrite run_event_keeps_analytics. exact IH. }
  split; [rewrite <- Han; exact Hinv|]. split.
  - intros image_row selected_row e w' H.
    destruct (reset_single_bubble_outcome w image_row selected_row Hinv)
      as [(v & Hv)|(v & Hv & _)]; rewrite Hv in H; inversion H; reflexivity.
  - intros i j results r Hi Hj.
    destruct (reset_single_bubble_outcome w (Z.of_nat i) (Z.of_nat j) Hinv)
      as [Hret|(v & _ & [Hbad|(rs & Hrs & Hbad)])]; [exact Hret| |].
    + rewrite (getitem_nat _ _ _ Hi) in Hbad. discriminate.
    + rewrite (getitem_nat _ _ _ Hi) in Hrs. inversion Hrs; subst rs.
      rewrite (getitem_nat _ _ _ Hj) in Hbad. discriminate.
Qed.

Lemma reset_single_bubble_finds_label_witness :
  exists w',
    reset_single_bubble 0 0
      (window_of
         (run_event (TableEdited 0 "typed" 0 1)
            (window_of
               (run_event (MoveRowUp 0 1)
                  (init_window
                     [mkOCRAnalytic 2 [] []
                        [("p.png"%string, "a"%string, mkBox 0 0 1 1);
                         ("p.png"%string, "b"%string, mkBox 2 2 3 3)]])))))
    = Returned w'.
Proof.
  assert (Hreach :
    reachable
      [mkOCRAnalytic 2 [] []
         [("p.png"%string, "a"%string, mkBox 0 0 1 1);
          ("p.png"%string, "b"%string, mkBox 2 2 3 3)]]
      (window_of
         (run_event (TableEdited 0 "typed" 0 1)
            (window_of
               (run_event (MoveRowUp 0 1)
                  (init_window
                     [mkOCRAnalytic 2 [] []
                        [("p.png"%string, "a"%string, mkBox 0 0 1 1);
                         ("p.png"%string, "b"%string, mkBox 2 2 3 3)]])))))).
  { apply reachable_step. apply reachable_step. apply reachable_init. }
  destruct (reset_single_bubble_finds_label _ _ Hreach) as (_ & _ & Hreset).
  eapply (Hreset 0%nat 0%nat); reflexivity.
Defined.

(** ** Buttons and what their slots do *)

Lemma update_button_availability_at w i j results r row_count :
  nth_error (ocr_results w) i = Some results ->
  nth_error results j = Some r ->
  update_button_availability (Z.of_nat i) (Z.of_nat j) row_count w
  = Ok (mkButtons (0 <? Z.of_nat j) (Z.of_nat j <? row_count - 1)
          (is_edited (status r)) true
          (negb (is_removed (status r))) (is_removed (status r))).
Proof.
  intros Hi Hj. unfold update_button_availability.
  rewrite not_minus_one. rewrite (current_image_nat w i results Hi).
  cbn [result_bind]. rewrite (getitem_nat _ _ _ Hj). cbn [result_bind negb andb].
  destruct (is_removed (status r)); reflexivity.
Qed.

(** X21: for a selected record, [update_button_availability] offers either
    delete or undelete, never both, undelete exactly for [Removed] and
    [EditedRemoved] records; and a button it disables belongs to a slot that
    would change no annotation set: reset on a record that is not edited,
    move up on the first row, move down on the last.  Without a selection
    every button is disabled. *)
Theorem disabled_buttons_are_no_ops w (i j : nat) results r :
  nth_error (ocr_results w) i = Some results ->
  nth_error results j = Some r ->
  (exists b,
     update_button_availability (Z.of_nat i) (Z.of_nat j)
       (Z.of_nat (length results)) w = Ok b /\
     delete_enabled b = true /\
     delete_shown b = negb (undelete_shown b) /\
     (undelete_shown b = true <-> status r = Removed \/ status r = EditedRemoved) /\
     (reset_enabled b = false ->
      exists w', reset_single_bubble (Z.of_nat i) (Z.of_nat j) w = Returned w' /\
                 ocr_results w' = ocr_results w) /\
     (row_up_enabled b = false ->
      move_row_up (Z.of_nat i) (Z.of_nat j) w = Returned (set_awaiting true w)) /\
     (row_down_enabled b = false ->
      move_row_down (Z.of_nat i) (Z.of_nat j) (Z.of_nat (length results)) w
      = Returned (set_awaiting true w))) /\
  (forall image_row row_count,
     update_button_availability image_row (-1) row_count w
     = Ok (mkButtons false false false false true false)).
Proof.
  intros Hi Hj. assert (Hlen := nth_error_lt _ _ _ Hj). split.
  - eexists. split; [apply (update_button_availability_at w i j results r _ Hi Hj)|].
    cbn [delete_enabled delete_shown undelete_shown reset_enabled row_up_enabled
         row_down_enabled].
    split; [reflexivity|]. split; [reflexivity|]. split; [|split; [|split]].
    + destruct (status r); simpl; split; intros H; try discriminate; auto;
        destruct H; discriminate.
    + intros Hed. eexists. split.
      * unfold reset_single_bubble, suppress_cell_update_handling,
          reset_single_bubble_body.
        rewrite not_minus_one.
        rewrite (current_image_nat (set_awaiting false w) i results Hi).
        cbn [try_with]. rewrite (getitem_nat _ _ _ Hj). cbn [try_with].
        rewrite Hed. cbn [negb]. reflexivity.
      * reflexivity.
    + intros Hup. apply Z.ltb_ge in Hup.
      assert (Hz : Z.of_nat j = 0) by lia. rewrite Hz.
      unfold move_row_up, suppress_cell_update_handling, move_row_up_body.
      destruct w; reflexivity.
    + intros Hdown. apply Z.ltb_ge in Hdown.
      assert (Hz : Z.of_nat j = Z.of_nat (length results) - 1) by lia. rewrite Hz.
      unfold move_row_down, suppress_cell_update_handling, move_row_down_body.
      rewrite Z.eqb_refl, !orb_true_r. destruct w; reflexivity.
  - intros image_row row_count. reflexivity.
Qed.

Lemma disabled_buttons_are_no_ops_witness :
  exists b,
    update_button_availability 0 0 1
      (mkWindow [] [[mkOCRResult "p.png" "hello" (mkBox 0 0 10 10) "1" Removed]] true [])
    = Ok b /\
    reset_enabled b = false /\ row_up_enabled b = false /\ row_down_enabled b = false /\
    undelete_shown b = true.
Proof.
  destruct (disabled_buttons_are_no_ops
              (mkWindow [] [[mkOCRResult "p.png" "hello" (mkBox 0 0 10 10) "1" Removed]]
                 true [])
              0 0 [mkOCRResult "p.png" "hello" (mkBox 0 0 10 10) "1" Removed]
              (mkOCRResult "p.png" "hello" (mkBox 0 0 10 10) "1" Removed)
              eq_refl eq_refl) as ((b & Hb & _) & _).
  exists b. split; [exact Hb|].
  simpl in Hb. inversion Hb; subst b. repeat split; reflexivity.
Defined.

(** X22: in the view with boxes, [update_image_boxes] hands the viewer one
    bubble per record, in set order: label and status color of the record,
    a rectangle whose corner and size give back the record's box, and a
    dashed stroke exactly for [Removed] and [EditedRemoved] records; the
    selected row is drawn in the highlight color instead; a selected row past
    the end of the set raises [IndexError]; the original view clears the
    bubbles. *)
Theorem bubbles_follow_records w (i : nat) results (highlight : QColor) :
  nth_error (ocr_results w) i = Some results ->
  (exists rects colors labels strokes,
     update_image_boxes WithBoxes highlight (Z.of_nat i) (-1) w
     = Ok (Some (rects, colors, labels, strokes)) /\
     forall k r, nth_error results k = Some r ->
       nth_error labels k = Some (label r) /\
       nth_error colors k = Some (BUBBLE_STATUS_COLORS (status r)) /\
       (nth_error strokes k = Some DashLine <->
        status r = Removed \/ status r = EditedRemoved) /\
       (nth_error strokes k = Some SolidLine <->
        status r <> Removed /\ status r <> EditedRemoved) /\
       exists x y wd ht,
         nth_error rects k = Some (x, y, wd, ht) /\
         mkBox x y (x + wd) (y + ht) = box r) /\
  (forall j r, nth_error results j = Some r ->
     exists rects colors labels strokes,
       update_image_boxes WithBoxes highlight (Z.of_nat i) (Z.of_nat j) w
       = Ok (Some (rects, colors, labels, strokes)) /\
       nth_error colors j = Some highlight /\
       forall k r', k <> j -> nth_error results k = Some r' ->
         nth_error colors k = Some (BUBBLE_STATUS_COLORS (status r'))) /\
  (forall j, (length results <= j)%nat ->
     update_image_boxes WithBoxes highlight (Z.of_nat i) (Z.of_nat j) w
     = Raise IndexError) /\
  (forall image_row selected_row,
     update_image_boxes Original highlight image_row selected_row w = Ok None).
Proof.
  intros Hi.
  assert (Hne : match ocr_results w with [] => true | _ :: _ => false end = false).
  { destruct (ocr_results w); [destruct i; discriminate | reflexivity]. }
  split; [|split; [|split]].
  - do 4 eexists. split.
    + unfold update_image_boxes. rewrite Hne. cbn [orb].
      rewrite (current_image_nat w i results Hi). cbn [result_bind]. reflexivity.
    + intros k r Hk. rewrite !nth_error_map, Hk. simpl.
      split; [reflexivity|]. split; [reflexivity|]. split; [|split].
      * destruct (status r); simpl; split; intros H; try discriminate; auto;
          destruct H; discriminate.
      * destruct (status r); simpl; split; intros H; try discriminate; auto;
          try (split; discriminate); destruct H; congruence.
      * do 4 eexists. split; [reflexivity|].
        destruct (box r); simpl. f_equal; lia.
  - intros j r Hj. assert (Hlen := nth_error_lt _ _ _ Hj).
    do 4 eexists. split; [|split].
    + unfold update_image_boxes. rewrite Hne. cbn [orb].
      rewrite (current_image_nat w i results Hi). cbn [result_bind].
      rewrite not_minus_one. cbn [negb].
      rewrite setitem_nat by (rewrite length_map; exact Hlen).
      cbn [result_bind]. reflexivity.
    + apply nth_error_replace_nth_same. rewrite length_map. exact Hlen.
    + intros k r' Hne' Hk.
      rewrite nth_error_replace_nth_other by congruence.
      rewrite nth_error_map, Hk. reflexivity.
  - intros j Hj. unfold update_image_boxes. rewrite Hne. cbn [orb].
    rewrite (current_image_nat w i results Hi). cbn [result_bind].
    rewrite not_minus_one. cbn [negb].
    unfold PyList.setitem, PyList.norm_index. rewrite length_map.
    replace (Z.of_nat j <? 0) with false by (symmetry; apply Z.ltb_ge; lia).
    replace (Z.of_nat j <? Z.of_nat (length results)) with false
      by (symmetry; apply Z.ltb_ge; lia).
    rewrite andb_false_r. reflexivity.
  - intros. reflexivity.
Qed.

Lemma bubbles_follow_records_witness :
  update_image_boxes WithBoxes (1, 2, 3, 255) 0 1
    (mkWindow [] [[mkOCRResult "p.png" "hello" (mkBox 0 0 10 10) "1" Removed]] true [])
  = Raise IndexError.
Proof.
  refine (proj1 (proj2 (proj2
            (bubbles_follow_records
               (mkWindow [] [[mkOCRResult "p.png" "hello" (mkBox 0 0 10 10) "1" Removed]]
                  true [])
               0 [mkOCRResult "p.png" "hello" (mkBox 0 0 10 10) "1" Removed]
               (1, 2, 3, 255) eq_refl))) 1%nat _).
  simpl. lia.
Defined.

(** ** The cached image size and the collection-wide padding *)

Lemma image_size_again (probe probe' : Z * Z) (self : PageData) :
  image_size probe' (snd (image_size probe self))
  = (fst (image_size probe self), snd (image_size probe self)).
Proof. unfold image_size. destruct (_image_size self) eqn:E; simpl; [rewrite E|]; reflexivity. Qed.

Lemma pad_each_result (op : Box -> Z -> Z * Z -> Box) (probe : Z * Z) (padding : Z)
    (todo : list Box) (self : PageData) :
  pad_each op probe padding todo self
  = (map (fun b => op b padding (fst (image_size probe self))) todo,
     match todo with
     | [] => self
     | _ :: _ => snd (image_size probe self)
     end).
Proof.
  revert self; induction todo as [|box rest IH]; intros self; simpl; [reflexivity|].
  destruct (image_size probe self) as [size self1] eqn:E.
  rewrite IH.
  assert (Hagain := image_size_again probe probe self). rewrite E in Hagain.
  simpl in Hagain. rewrite Hagain. simpl.
  destruct rest; reflexivity.
Qed.

Lemma boxes_from_type_set_other self t t' new_boxes :
  t' <> t ->
  boxes_from_type (set_boxes_of_type self t new_boxes) t' = boxes_from_type self t'.
Proof. destruct t, t'; simpl; congruence. Qed.

Lemma set_boxes_of_type_same self t :
  set_boxes_of_type self t (boxes_from_type self t) = self.
Proof. destruct self, t; reflexivity. Qed.

Lemma boxes_from_type_image_size probe self t :
  boxes_from_type (snd (image_size probe self)) t = boxes_from_type self t.
Proof. unfold image_size. destruct (_image_size self), t; reflexivity. Qed.

(** X23: [grow_boxes] pads every box of the chosen collection against one
    size, the cached one if there is one and the size read from the file
    otherwise, keeps the other collections, and caches the size it used;
    for an empty collection it reads no size and changes nothing; a second
    call with a non-negative padding is the first call with the sum of the
    paddings, even if the image file has changed size in between, because
    the size is not read again. *)
Theorem grow_boxes_keeps_first_size (probe : Z * Z) (padding : Z) (box_type : BoxType)
    (self : PageData) :
  boxes_from_type (grow_boxes probe padding box_type self) box_type
  = map (fun b => pad b padding (fst (image_size probe self)))
        (boxes_from_type self box_type) /\
  (forall other, other <> box_type ->
     boxes_from_type (grow_boxes probe padding box_type self) other
     = boxes_from_type self other) /\
  (boxes_from_type self box_type = [] ->
   grow_boxes probe padding box_type self = self) /\
  (boxes_from_type self box_type <> [] ->
   _image_size (grow_boxes probe padding box_type self)
   = Some (fst (image_size probe self))) /\
  (forall probe2 padding2, 0 <= padding2 ->
     grow_boxes probe2 padding2 box_type (grow_boxes probe padding box_type self)
     = grow_boxes probe (padding + padding2) box_type self).
Proof.
  unfold grow_boxes. rewrite pad_each_result.
  split; [apply boxes_from_type_set|].
  split.
  { intros other Hne. rewrite boxes_from_type_set_other by exact Hne.
    destruct (boxes_from_type self box_type); [reflexivity|].
    apply boxes_from_type_image_size. }
  split.
  { intros Hempty. rewrite Hempty. simpl. rewrite <- Hempty.
    apply set_boxes_of_type_same. }
  split.
  { intros Hne. destruct (boxes_from_type self box_type) as [|b rest]; [congruence|].
    unfold image_size. destruct self, box_type; simpl;
      destruct _image_size0; reflexivity. }
  intros probe2 padding2 Hk.
  rewrite !pad_each_result. rewrite boxes_from_type_set.
  destruct (boxes_from_type self box_type) as [|b rest] eqn:Hbs.
  - pose proof (set_boxes_of_type_same self box_type) as Hsame.
    rewrite Hbs in Hsame. simpl. rewrite !Hsame. reflexivity.
  - cbn [map].
    assert (Hsize : forall bs,
              fst (image_size probe2
                     (set_boxes_of_type (snd (image_size probe self)) box_type bs))
              = fst (image_size probe self)).
    { intros bs. unfold image_size.
      destruct self, box_type; simpl; destruct _image_size0; reflexivity. }
    rewrite Hsize.
    assert (Hstate : forall bs bs',
              set_boxes_of_type
                (snd (image_size probe2
                        (set_boxes_of_type (snd (image_size probe self)) box_type bs)))
                box_type bs'
              = set_boxes_of_type (snd (image_size probe self)) box_type bs').
    { intros bs bs'. unfold image_size.
      destruct self, box_type; simpl; destruct _image_size0; reflexivity. }
    rewrite Hstate. f_equal. f_equal.
    + unfold pad; simpl. f_equal; lia.
    + rewrite map_map. apply map_ext. intros x. unfold pad; simpl. f_equal; lia.
Qed.

Lemma grow_boxes_keeps_first_size_witness :
  grow_boxes (50, 50) 3 BOX
    (grow_boxes (100, 100) 2 BOX
       (mkPageData "a.png" "m.png" "o.png" 1%Q [mkBox 90 90 97 97] [] [] [] None))
  = grow_boxes (100, 100) 5 BOX
      (mkPageData "a.png" "m.png" "o.png" 1%Q [mkBox 90 90 97 97] [] [] [] None).
Proof.
  apply (proj2 (proj2 (proj2 (proj2
           (grow_boxes_keeps_first_size (100, 100) 2 BOX
              (mkPageData "a.png" "m.png" "o.png" 1%Q [mkBox 90 90 97 97] [] [] [] None)))))
           (50, 50) 3).
  lia.
Defined.

(** ** icons/build_icon_cache.py : find_xdg_icon *)

Import IconCache.

Lemma split_dash_not_nil (s : string) : split_dash s <> [].
Proof.
  induction s as [|c rest IH]; simpl; [discriminate|].
  destruct (Ascii.eqb c dash); [discriminate|].
  destruct (split_dash rest); discriminate.
Qed.

Lemma join_dash_cons (part : string) (others : list string) :
  others <> [] ->
  join_dash (part :: others) = (part ++ String dash (join_dash others))%string.
Proof. destruct others; [congruence | reflexivity]. Qed.

Lemma join_split_dash (s : string) : join_dash (split_dash s) = s.
Proof.
  induction s as [|c rest IH]; [reflexivity|].
  pose proof (split_dash_not_nil rest) as Hne.
  cbn [split_dash]. destruct (Ascii.eqb_spec c dash) as [->|Hc].
  - rewrite (join_dash_cons _ _ Hne), IH. reflexivity.
  - destruct (split_dash rest) as [|first others] eqn:E; [congruence|].
    destruct others as [|second others].
    + simpl in IH. subst first. reflexivity.
    + rewrite join_dash_cons by discriminate.
      rewrite join_dash_cons in IH by discriminate.
      rewrite <- IH. reflexivity.
Qed.

Lemma split_dash_free (c : string) : dash_free c = true -> split_dash c = [c].
Proof.
  induction c as [|a rest IH]; simpl; [reflexivity|].
  intros H. apply andb_true_iff in H. destruct H as [Ha Hrest].
  apply negb_true_iff in Ha. rewrite Ha. rewrite (IH Hrest). reflexivity.
Qed.

Lemma split_dash_app (p c : string) :
  split_dash (p ++ String dash c) = split_dash p ++ split_dash c.
Proof.
  induction p as [|a p IH]; simpl.
  - reflexivity.
  - destruct (Ascii.eqb a dash); rewrite IH; [reflexivity|].
    pose proof (split_dash_not_nil p) as Hne.
    destruct (split_dash p); [congruence | reflexivity].
Qed.

Lemma last_component (f : string) :
  dash_free f = true \/
  exists p c, f = (p ++ String dash c)%string /\ dash_free c = true.
Proof.
  induction f as [|a f IH]; [left; reflexivity|].
  destruct IH as [Hfree|(p & c & -> & Hc)].
  - destruct (Ascii.eqb_spec a dash) as [->|Ha].
    + right. exists EmptyString, f. auto.
    + left. simpl. rewrite Hfree.
      apply Ascii.eqb_neq in Ha. rewrite Ha. reflexivity.
  - right. exists (String a p), c. auto.
Qed.

Lemma drop_last_of_dashed (p c : string) :
  dash_free c = true -> drop_last_component (p ++ String dash c) = p.
Proof.
  intros Hc. unfold drop_last_component.
  rewrite split_dash_app, (split_dash_free c Hc), removelast_last.
  apply join_split_dash.
Qed.

Lemma drop_last_of_dash_free (c : string) :
  dash_free c = true -> drop_last_component c = EmptyString.
Proof.
  intros Hc. unfold drop_last_component. rewrite (split_dash_free c Hc). reflexivity.
Qed.

Lemma length_append (s t : string) :
  String.length (s ++ t) = (String.length s + String.length t)%nat.
Proof. induction s as [|a s IH]; simpl; [reflexivity | rewrite IH; reflexivity]. Qed.

Lemma drop_last_shorter (f : string) :
  is_empty f = false ->
  (String.length (drop_last_component f) < String.length f)%nat.
Proof.
  intros Hne. destruct (last_component f) as [Hfree|(p & c & -> & Hc)].
  - rewrite (drop_last_of_dash_free f Hfree). destruct f; [discriminate|simpl; lia].
  - rewrite (drop_last_of_dashed p c Hc).
    rewrite length_append. simpl. lia.
Qed.

Lemma iter_drop_empty (k : nat) :
  Nat.iter k drop_last_component EmptyString = EmptyString.
Proof. induction k as [|k IH]; simpl; [reflexivity|]. rewrite IH. reflexivity. Qed.

(** The loop stops at the first name of the sequence that is there or is
    empty. *)
Lemma shorten_stops (fuel : nat) (present : string -> bool) (ext file : string) :
  (String.length file <= fuel)%nat ->
  exists k,
    shorten fuel present ext file = Some (Nat.iter k drop_last_component file) /\
    (is_empty (Nat.iter k drop_last_component file) = true \/
     present (Nat.iter k drop_last_component file ++ ext)%string = true) /\
    forall j, (j < k)%nat ->
      is_empty (Nat.iter j drop_last_component file) = false /\
      present (Nat.iter j drop_last_component file ++ ext)%string = false.
Proof.
  revert file; induction fuel as [|fuel IH]; intros file Hlen.
  - destruct file; [|simpl in Hlen; lia].
    exists 0%nat. simpl. rewrite andb_false_r.
    split; [reflexivity|]. split; [left; reflexivity | intros j Hj; lia].
  - simpl. destruct (present (file ++ ext)%string) eqn:Hp; simpl.
    + exists 0%nat. simpl. split; [reflexivity|]. split; [right; exact Hp | intros; lia].
    + destruct (is_empty file) eqn:He; simpl.
      * exists 0%nat. simpl. split; [reflexivity|]. split; [left; exact He | intros; lia].
      * destruct (IH (drop_last_component file)) as (k & Hrun & Hstop & Hbefore).
        { pose proof (drop_last_shorter file He). lia. }
        exists (S k). rewrite Nat.iter_succ_r. split; [exact Hrun|].
        split; [exact Hstop|].
        intros [|j] Hj; [simpl; auto|].
        rewrite Nat.iter_succ_r. apply Hbefore. lia.
Qed.

Lemma find_from_result (fuel : nat) (present : string -> bool) (file : string)
    (extensions : list string) :
  (String.length file <= fuel)%nat ->
  exists r,
    find_from fuel present file extensions = Some r /\
    (forall name, r = Some name ->
       exists p ext, name = (p ++ ext)%string /\ In ext extensions /\
                     candidate file p /\ present name = true) /\
    (r = None ->
       forall ext p, In ext extensions -> candidate file p ->
                     present (p ++ ext)%string = false).
Proof.
  intros Hlen. induction extensions as [|ext others IH]; simpl.
  - exists None. split; [reflexivity|]. split; [discriminate|]. intros _ ext p [].
  - destruct (shorten_stops fuel present ext file Hlen) as (k & Hrun & Hstop & Hbefore).
    rewrite Hrun.
    destruct (is_empty (Nat.iter k drop_last_component file)) eqn:He; simpl.
    + destruct IH as (r & Hr & Hsome & Hnone). exists r. split; [exact Hr|]. split.
      * intros name Hname. destruct (Hsome name Hname) as (p & e & H1 & H2 & H3 & H4).
        exists p, e. auto.
      * intros Hn e p [<-|Hin] Hcand; [|apply (Hnone Hn); auto].
        destruct Hcand as (Hpne & j & ->).
        destruct (Nat.lt_ge_cases j k) as [Hlt|Hge]; [apply (Hbefore j Hlt)|].
        exfalso. replace j with ((j - k) + k)%nat in Hpne by lia.
        rewrite Nat.iter_add in Hpne.
        destruct (Nat.iter k drop_last_component file); [|discriminate].
        rewrite iter_drop_empty in Hpne. discriminate.
    + eexists. split; [reflexivity|]. split; [|discriminate].
      intros name Hname. inversion Hname; subst name.
      exists (Nat.iter k drop_last_component file), ext.
      split; [reflexivity|]. split; [left; reflexivity|].
      split; [split; [exact He | exists k; reflexivity]|].
      destruct Hstop as [Hempty|Hp]; [congruence | exact Hp].
Qed.

(** X24: [find_xdg_icon] always returns.  A name it returns is there in the
    source directory and is a candidate (the icon name, or the icon name
    with some last dash-separated components taken off, never empty)
    followed by one of the extensions; it returns [None] exactly when no
    candidate is there with any of the extensions; the icon name itself with
    the first extension is preferred to everything else.  Taking off the
    last component of [p-c], for [c] without a dash, gives [p], and of a
    name without a dash gives the empty name. *)
Theorem find_xdg_icon_search (present : string -> bool) (file : string)
    (extensions : list string) :
  (exists r,
     find_xdg_icon present file extensions = Some r /\
     (forall name, r = Some name ->
        exists p ext, name = (p ++ ext)%string /\ In ext extensions /\
                      candidate file p /\ present name = true) /\
     (r = None <->
        forall ext p, In ext extensions -> candidate file p ->
                      present (p ++ ext)%string = false) /\
     (forall ext others,
        extensions = ext :: others -> is_empty file = false ->
        present (file ++ ext)%string = true -> r = Some (file ++ ext)%string)) /\
  (forall p c, dash_free c = true ->
     drop_last_component (p ++ String dash c) = p) /\
  (forall c, dash_free c = true -> drop_last_component c = EmptyString).
Proof.
  split; [|split; [apply drop_last_of_dashed | apply drop_last_of_dash_free]].
  destruct (find_from_result (String.length file) present file extensions (le_n _))
    as (r & Hr & Hsome & Hnone).
  exists r. split; [exact Hr|]. split; [exact Hsome|]. split.
  - split; [exact Hnone|]. intros Hall. destruct r as [name|]; [|reflexivity].
    destruct (Hsome name eq_refl) as (p & ext & -> & Hin & Hcand & Hp).
    rewrite (Hall ext p Hin Hcand) in Hp. discriminate.
  - intros ext others -> Hne Hp. unfold find_xdg_icon in Hr.
    destruct (String.length file) as [|n] eqn:Hlen.
    + destruct file; [discriminate | simpl in Hlen; lia].
    + simpl in Hr. rewrite Hp in Hr. simpl in Hr. rewrite Hne in Hr. simpl in Hr.
      inversion Hr. reflexivity.
Qed.

(** With only [document.png] in the directory, the search for
    [document-new] gives up on [.svg] and finds it with [.png]. *)
Example find_xdg_icon_runs :
  find_xdg_icon (fun name => String.eqb name "document.png") "document-new"
    SUPPORTED_EXTENSIONS
  = Some (Some "document.png"%string).
Proof. vm_compute. reflexivity. Qed.
